(** * flux-core: membership monitor and KVS waitqueue

    A shallow embedding of two C sources of flux-core,

    - [src/modules/resource/monitor.c]: the resource module's membership
      monitor (online/torpid groups, join/leave events, the
      [monitor-waitup] and [monitor-force-down] RPCs), and
    - [src/modules/kvs/waitqueue.c]: reference-counted wait objects that
      can sit on several queues,

    with the properties of the specification stated and proved over
    them.  C pointers are modelled by names (addresses) into finite maps,
    a NULL pointer by [None], [int] by [Z], and the calls into libraries
    outside these two files (libidset, libflux, reslog, czmq's zlist) by
    small models given with each module. *)

From stdpp Require Import gmap strings list fin_maps sorting pretty.
From Stdlib Require Import ZArith Lia Ascii.

(** errno values used by the two sources (Linux numbering). *)
Definition ENOMEM : Z := 12.
Definition EINVAL : Z := 22.
Definition EPROTO : Z := 71.

(* ===================================================================== *)
(** * Part I: the membership monitor ([monitor.c])                         *)
(* ===================================================================== *)

Module Monitor.

(** ** Library models *)

(** Modelled from the spec: libidset ([struct idset], not in the sources
    at hand).  An idset is a finite set of ranks; [difference], [add],
    [subtract], [count], [test] and [range_set] are the set operations of
    the spec's section 4.A, which names no failure for them on a valid
    set.  A NULL set is [None]; [idset_copy] of NULL is NULL. *)
Abbreviation idset := (gset nat).

Definition idset_count (s : idset) : Z := Z.of_nat (size s).
Definition idset_test (s : idset) (id : nat) : bool := bool_decide (id ∈ s).
Definition idset_difference (a b : idset) : idset := a ∖ b.
Definition idset_add (a b : idset) : idset := a ∪ b.
Definition idset_subtract (a b : idset) : idset := a ∖ b.
Definition idset_range (lo : nat) (n : nat) : idset := list_to_set (seq lo n).
Definition idset_copy (a : option idset) : option idset := a.

(** Modelled from the spec: [idset_encode (ids, IDSET_FLAG_RANGE)], the
    canonical form of section 4.A: ids in increasing order, consecutive
    runs compressed to [lo-hi], items joined by commas. *)
Fixpoint runs (l : list nat) : list (nat * nat) :=
  match l with
  | [] => []
  | x :: l' =>
      match runs l' with
      | (lo, hi) :: r => if Nat.eqb lo (S x) then (x, hi) :: r
                         else (x, x) :: (lo, hi) :: r
      | [] => [(x, x)]
      end
  end.

Definition encode_run (r : nat * nat) : string :=
  if Nat.eqb (fst r) (snd r) then pretty (fst r)
  else pretty (fst r) +:+ "-" +:+ pretty (snd r).

Definition idset_encode (s : idset) : string :=
  String.concat "," (encode_run <$> runs (merge_sort Nat.le (elements s))).

(** Modelled from the spec: [idset_decode], for the grammar of section 6:
    [ids := id ("," id)*], [id := N | N "-" M] with [M >= N]; the empty
    string is the empty set.  [None] is a parse error. *)
Definition digit (a : ascii) : option nat :=
  let n := nat_of_ascii a in
  if Nat.leb 48 n && Nat.leb n 57 then Some (n - 48)%nat else None.

Fixpoint parse_digits (l : list ascii) (acc : nat) : option nat :=
  match l with
  | [] => Some acc
  | a :: l' => match digit a with
               | Some d => parse_digits l' (10 * acc + d)%nat
               | None => None
               end
  end.

Definition parse_nat (l : list ascii) : option nat :=
  match l with [] => None | _ => parse_digits l 0%nat end.

Fixpoint split_on (sep : ascii) (l : list ascii) : list (list ascii) :=
  match l with
  | [] => [[]]
  | a :: l' =>
      if Ascii.eqb a sep then [] :: split_on sep l'
      else match split_on sep l' with
           | w :: ws => (a :: w) :: ws
           | [] => [[a]]
           end
  end.

Definition parse_id (l : list ascii) : option idset :=
  match split_on "-"%char l with
  | [n] => x ← parse_nat n; Some {[ x ]}
  | [n; m] => lo ← parse_nat n; hi ← parse_nat m;
              if Nat.leb lo hi then Some (idset_range lo (S hi - lo)) else None
  | _ => None
  end.

Fixpoint parse_ids (items : list (list ascii)) : option idset :=
  match items with
  | [] => Some ∅
  | i :: rest => a ← parse_id i; b ← parse_ids rest; Some (a ∪ b)
  end.

Definition idset_decode (s : string) : option idset :=
  match String.list_ascii_of_string s with
  | [] => Some ∅
  | l => parse_ids (split_on ","%char l)
  end.

(** Modelled from the spec: [idset_decode_subtract (set, str, -1, &error)]:
    parse and subtract in one step; on a parse error the set is left
    alone and [error.text] carries a message. *)
Definition decode_error_text : string := "error decoding idset".

Definition idset_decode_subtract (a : idset) (s : string) : idset + string :=
  match idset_decode s with
  | Some b => inl (a ∖ b)
  | None => inr decode_error_text
  end.

Local Open Scope Z_scope.

(** JSON payloads, as far as the monitor packs and unpacks them. *)
Inductive json := JInt (n : Z) | JStr (s : string).

(** A request message: its identity and its payload (if any). *)
Record flux_msg := Msg { msg_id : nat; msg_payload : option (gmap string json) }.

(** Modelled from the spec: [flux_request_unpack (msg, NULL, "{s:i}", key, &v)]
    and its ["{s:s}"] form (libflux, jansson): the payload must be an
    object that has [key] with a value of the asked type; otherwise the
    call fails with errno EPROTO. *)
Definition unpack_int (key : string) (p : option (gmap string json)) : option Z :=
  match p with
  | Some o => match o !! key with Some (JInt n) => Some n | _ => None end
  | None => None
  end.

Definition unpack_str (key : string) (p : option (gmap string json)) : option string :=
  match p with
  | Some o => match o !! key with Some (JStr s) => Some s | _ => None end
  | None => None
  end.

(** An entry of the resource event log: [reslog_post_pack]'s name and
    context. *)
Record event := Event { ev_name : string; ev_context : list (string * string) }.

(** A response handed to [flux_respond] / [flux_respond_error]. *)
Inductive response :=
| Respond (m : flux_msg)
| RespondError (m : flux_msg) (errnum : Z) (errstr : option string).

(** What the handlers reach through the broker handle [h] and the module
    context: the event log, the responses sent, the log, errno, and the
    outcomes of the coming [reslog_post_pack] calls ([Some e]: the call
    fails with errno [e]; [None], or no entry left: it succeeds). *)
Record flux := Flux {
  eventlog : list event;
  responses : list response;
  logged : list string;
  errno : Z;
  post_outcomes : list (option Z)
}.

Definition set_errno (e : Z) (h : flux) : flux :=
  Flux (eventlog h) (responses h) (logged h) e (post_outcomes h).

Definition flux_log (s : string) (h : flux) : flux :=
  Flux (eventlog h) (responses h) (logged h ++ [s]) (errno h) (post_outcomes h).

(** [flux_respond (h, msg, NULL)]. *)
Definition flux_respond (m : flux_msg) (h : flux) : flux :=
  Flux (eventlog h) (responses h ++ [Respond m]) (logged h) (errno h)
       (post_outcomes h).

(** [flux_respond_error (h, msg, errnum, errstr)]. *)
Definition flux_respond_error (m : flux_msg) (e : Z) (errstr : option string)
    (h : flux) : flux :=
  Flux (eventlog h) (responses h ++ [RespondError m e errstr]) (logged h)
       (errno h) (post_outcomes h).

(** Modelled from the spec: [reslog_post_pack (reslog, NULL, 0., name,
    EVENT_NO_COMMIT, fmt, ...)] (reslog.c is not in the sources at hand):
    append the event to the log, or fail with a transport error and
    leave the log alone. *)
Definition reslog_post_pack (name : string) (ctx : list (string * string))
    (h : flux) : Z * flux :=
  match post_outcomes h with
  | Some e :: rest =>
      (-1, Flux (eventlog h) (responses h) (logged h) e rest)
  | None :: rest =>
      (0, Flux (eventlog h ++ [Event name ctx]) (responses h) (logged h)
               (errno h) rest)
  | [] =>
      (0, Flux (eventlog h ++ [Event name ctx]) (responses h) (logged h)
               (errno h) [])
  end.

(** ** The monitor *)

(** [struct monitor].  [ctx->rank] is kept with it; the two futures and
    the handler table are left out. *)
Record monitor := Mon {
  rank : nat;
  size : Z;
  torpid : option idset;
  up : option idset;
  down : option idset;
  lost : option idset;
  waitup_requests : option (list flux_msg)
}.

Definition set_up (s : option idset) (m : monitor) : monitor :=
  Mon (rank m) (size m) (torpid m) s (down m) (lost m) (waitup_requests m).
Definition set_torpid (s : option idset) (m : monitor) : monitor :=
  Mon (rank m) (size m) s (up m) (down m) (lost m) (waitup_requests m).
Definition set_down (s : option idset) (m : monitor) : monitor :=
  Mon (rank m) (size m) (torpid m) (up m) s (lost m) (waitup_requests m).
Definition set_lost (s : option idset) (m : monitor) : monitor :=
  Mon (rank m) (size m) (torpid m) (up m) (down m) s (waitup_requests m).
Definition set_waitup_requests (l : option (list flux_msg)) (m : monitor)
    : monitor :=
  Mon (rank m) (size m) (torpid m) (up m) (down m) (lost m) l.

(** The [oldset] argument of [post_join_leave] is always one of the
    monitor's own sets, passed by pointer; the pointer is modelled by the
    name of the field it points to, and [oldset == monitor->up] by a
    test on that name. *)
Inductive setref := RefUp | RefTorpid.

Definition deref (r : setref) (m : monitor) : option idset :=
  match r with RefUp => up m | RefTorpid => torpid m end.

Definition is_up (r : setref) : bool :=
  match r with RefUp => true | RefTorpid => false end.

(** [monitor_get_down]: the cached complement of [up] in [0, size). *)
Definition monitor_get_down (m : monitor) : option idset * monitor :=
  match up m with
  | Some u =>
      let d := idset_range 0 (Z.to_nat (size m)) ∖ u in
      (Some d, set_down (Some d) m)
  | None =>
      let d := idset_range 0 (Z.to_nat (size m)) in
      (Some d, set_down (Some d) m)
  end.

(** [post_event]: nothing for an empty set, else one event
    [name {idset: encode(ids)}]. *)
Definition post_event (name : string) (ids : idset) (h : flux) : Z * flux :=
  if Z.eqb (idset_count ids) 0 then (0, h)
  else reslog_post_pack name [("idset", idset_encode ids)] h.

(** [post_join_leave (monitor, oldset, newset, join_event, leave_event)]. *)
Definition post_join_leave (oldset : setref) (newset : idset)
    (join_event leave_event : string) (m : monitor) (h : flux)
    : Z * monitor * flux :=
  match deref oldset m with
  | None => (-1, m, set_errno EINVAL h)
  | Some old =>
      let join := idset_difference newset old in
      let leave := idset_difference old newset in
      let '(rc1, h1) := post_event join_event join h in
      if Z.ltb rc1 0 then (-1, m, h1) else
      let '(rc2, h2) := post_event leave_event leave h1 in
      if Z.ltb rc2 0 then (-1, m, h2) else
      if is_up oldset then
        match lost m with
        | Some l =>
            (0, set_lost (Some (idset_subtract (idset_add l leave) join)) m, h2)
        | None => (-1, m, set_errno EINVAL h2)
        end
      else (0, m, h2)
  end.

(** [notify_waitup]: walk the deferred requests; answer and delete those
    whose [up] equals the count of [monitor->up].  A request whose
    payload does not unpack is answered with the error and deleted. *)
Fixpoint notify_list (upcount : Z) (l : list flux_msg) (h : flux)
    : list flux_msg * flux :=
  match l with
  | [] => ([], h)
  | msg :: rest =>
      match unpack_int "up" (msg_payload msg) with
      | None =>
          let h1 := flux_respond_error msg EPROTO None (set_errno EPROTO h) in
          notify_list upcount rest h1
      | Some upwant =>
          if Z.eqb upwant upcount then
            notify_list upcount rest (flux_respond msg h)
          else
            let '(keep, h') := notify_list upcount rest h in
            (msg :: keep, h')
      end
  end.

Definition up_count (m : monitor) : Z :=
  match up m with Some u => idset_count u | None => 0 end.

Definition notify_waitup (m : monitor) (h : flux) : monitor * flux :=
  match waitup_requests m with
  | None => (m, h)
  | Some l =>
      let '(keep, h') := notify_list (up_count m) l h in
      (set_waitup_requests (Some keep) m, h')
  end.

(** A streaming response of [groups.get]: an error, or a payload. *)
Inductive rpc_result :=
| RpcError (errnum : Z)
| RpcPayload (p : gmap string json).

(** [group_get]: unpack [members] and decode it. *)
Definition group_get (f : rpc_result) (h : flux) : option idset * flux :=
  match f with
  | RpcError e => (None, set_errno e h)
  | RpcPayload p =>
      match unpack_str "members" (Some p) with
      | None => (None, set_errno EPROTO h)
      | Some members =>
          match idset_decode members with
          | Some s => (Some s, h)
          | None => (None, set_errno EINVAL h)
          end
      end
  end.

(** [broker_online_cb]. *)
Definition broker_online_cb (f : rpc_result) (m : monitor) (h : flux)
    : monitor * flux :=
  match group_get f h with
  | (None, h0) => (m, flux_log "monitor: broker.online" h0)
  | (Some new_up, h0) =>
      let '(rc, m1, h1) := post_join_leave RefUp new_up "online" "offline" m h0 in
      if Z.ltb rc 0 then
        (m1, flux_log "monitor: error posting online/offline event" h1)
      else
        notify_waitup (set_up (Some new_up) m1) h1
  end.

(** [broker_torpid_cb]. *)
Definition broker_torpid_cb (f : rpc_result) (m : monitor) (h : flux)
    : monitor * flux :=
  match group_get f h with
  | (None, h0) => (m, flux_log "monitor: broker.torpid" h0)
  | (Some new_torpid, h0) =>
      let '(rc, m1, h1) :=
        post_join_leave RefTorpid new_torpid "torpid" "lively" m h0 in
      if Z.ltb rc 0 then
        (m1, flux_log "monitor: error posting torpid/lively event" h1)
      else
        (set_torpid (Some new_torpid) m1, h1)
  end.

(** Modelled from the spec: [flux_msglist_append] on the deferred list
    (libflux): the message goes to the end of the list; on a NULL list
    the call fails with EINVAL. *)
Definition flux_msglist_append (l : option (list flux_msg)) (msg : flux_msg)
    : option (list flux_msg) :=
  match l with Some r => Some (r ++ [msg]) | None => None end.

(** [waitup_cb]. *)
Definition waitup_cb (msg : flux_msg) (m : monitor) (h : flux)
    : monitor * flux :=
  match unpack_int "up" (msg_payload msg) with
  | None =>
      let h1 := set_errno EPROTO h in
      (m, flux_respond_error msg (errno h1) None h1)
  | Some want =>
      if negb (Nat.eqb (rank m) 0) then
        let h1 := set_errno EPROTO h in
        (m, flux_respond_error msg (errno h1)
              (Some "this RPC only works on rank 0") h1)
      else if Z.gtb want (size m) || Z.ltb want 0 then
        let h1 := set_errno EPROTO h in
        (m, flux_respond_error msg (errno h1)
              (Some "up value is out of range") h1)
      else if negb (Z.eqb (up_count m) want) then
        match flux_msglist_append (waitup_requests m) msg with
        | Some l' => (set_waitup_requests (Some l') m, h)
        | None =>
            let h1 := set_errno EINVAL h in
            (m, flux_respond_error msg (errno h1) None h1)
        end
      else (m, flux_respond msg h)
  end.

(** [force_down_cb]. *)
Definition force_down_cb (msg : flux_msg) (m : monitor) (h : flux)
    : monitor * flux :=
  match unpack_str "ranks" (msg_payload msg) with
  | None =>
      let h1 := set_errno EPROTO h in
      (m, flux_respond_error msg (errno h1) None h1)
  | Some ranks =>
      match idset_copy (up m) with
      | None =>
          let h1 := set_errno EINVAL h in
          (m, flux_respond_error msg (errno h1) None h1)
      | Some cpy =>
          match idset_decode_subtract cpy ranks with
          | inr text =>
              let h1 := set_errno EINVAL h in
              (m, flux_respond_error msg (errno h1) (Some text) h1)
          | inl new_up =>
              let '(rc, m1, h1) :=
                post_join_leave RefUp new_up "online" "offline" m h in
              if Z.ltb rc 0 then
                (m1, flux_respond_error msg (errno h1)
                       (Some "monitor: error posting online/offline event") h1)
              else
                let '(m2, h2) := notify_waitup (set_up (Some new_up) m1) h1 in
                (m2, flux_respond msg h2)
          end
      end
  end.

(** The module context [struct resource_ctx] and the broker attributes
    [monitor_create] reads, and [struct resource_config]. *)
Record resource_ctx := Ctx {
  ctx_rank : nat;
  ctx_size : Z;
  attr_hostlist : option string;
  attr_recovery_mode : option string
}.

Record resource_config := Config {
  monitor_force_up : bool;
  systemd_enable : bool
}.

(** [post_restart_event]. *)
Definition post_restart_event (c : resource_ctx) (m : monitor) (h : flux)
    : Z * flux :=
  match attr_hostlist c with
  | None => (-1, h)
  | Some hostlist =>
      if Z.leb (size m) 0 then (-1, set_errno EINVAL h) else
      let ranks := idset_range 0 (Z.to_nat (size m)) in
      match up m with
      | None => (-1, set_errno EINVAL h)
      | Some u =>
          reslog_post_pack "restart"
            [("ranks", idset_encode ranks); ("online", idset_encode u);
             ("nodelist", hostlist)] h
      end
  end.

(** [monitor_create]: the monitor (NULL on failure), the groups whose
    streams were opened, and the handle.  Registering the two message
    handlers is not modelled: both are registered on every rank. *)
Definition monitor_create (c : resource_ctx) (inventory_size : Z)
    (config : resource_config) (h : flux)
    : option monitor * list string * flux :=
  let sz := if Z.ltb (ctx_size c) inventory_size then inventory_size
            else ctx_size c in
  let m0 := Mon (ctx_rank c) sz None None None None None in
  if Nat.ltb 0 (ctx_rank c) then (Some m0, [], h) else
  let m1 := Mon (ctx_rank c) sz (Some ∅) (Some ∅) None (Some ∅) (Some []) in
  let '(m2, groups) :=
    if monitor_force_up config then
      (set_up (Some (idset_range 0 (Z.to_nat sz))) m1, [])
    else match attr_recovery_mode c with
         | None =>
             (m1, [if systemd_enable config then "sdmon.online"
                   else "broker.online"; "broker.torpid"])
         | Some _ => (m1, [])
         end in
  let '(rc, h1) := post_restart_event c m2 h in
  if Z.ltb rc 0 then (None, [], h1) else (Some m2, groups, h1).

(** The inputs the reactor delivers to a monitor, and the dispatch. *)
Inductive input :=
| OnlineSnapshot (f : rpc_result)
| TorpidSnapshot (f : rpc_result)
| WaitupRequest (msg : flux_msg)
| ForceDownRequest (msg : flux_msg).

Definition handle (i : input) (m : monitor) (h : flux) : monitor * flux :=
  match i with
  | OnlineSnapshot f => broker_online_cb f m h
  | TorpidSnapshot f => broker_torpid_cb f m h
  | WaitupRequest msg => waitup_cb msg m h
  | ForceDownRequest msg => force_down_cb msg m h
  end.

Fixpoint run (ins : list input) (m : monitor) (h : flux) : monitor * flux :=
  match ins with
  | [] => (m, h)
  | i :: rest => let '(m', h') := handle i m h in run rest m' h'
  end.

(** A fresh handle, and the request and snapshot payloads used below. *)
Definition flux0 (outcomes : list (option Z)) : flux :=
  Flux [] [] [] 0 outcomes.

Definition members (s : string) : rpc_result :=
  RpcPayload {[ "members" := JStr s ]}.

Definition waitup_request (id : nat) (want : Z) : flux_msg :=
  Msg id (Some {[ "up" := JInt want ]}).

Definition force_down_request (id : nat) (ranks : string) : flux_msg :=
  Msg id (Some {[ "ranks" := JStr ranks ]}).

Definition leader4 : option monitor * list string * flux :=
  monitor_create (Ctx 0 4 (Some "node[0-3]") None) 0 (Config false false)
                 (flux0 []).

(** ** Notions used in the statements *)

(** The events one diff of [old] against [new] asks for: the join event,
    if any rank joined, then the leave event, if any rank left. *)
Definition event_for (name : string) (ids : idset) : list event :=
  if Z.eqb (idset_count ids) 0 then []
  else [Event name [("idset", idset_encode ids)]].

Definition diff_events (join_event leave_event : string) (old new : idset)
    : list event :=
  event_for join_event (new ∖ old) ++ event_for leave_event (old ∖ new).

(** Membership in a set that may be NULL. *)
Definition member (id : nat) (s : option idset) : Prop :=
  match s with Some x => id ∈ x | None => False end.

(** The desired count of a deferred request. *)
Definition wants (msg : flux_msg) : option Z :=
  unpack_int "up" (msg_payload msg).

(** A deferred request stays on the list when its count differs from the
    current one. *)
Definition stays (count : Z) (msg : flux_msg) : bool :=
  match wants msg with Some w => negb (Z.eqb w count) | None => false end.

Definition answer (msg : flux_msg) : response :=
  match wants msg with
  | Some _ => Respond msg
  | None => RespondError msg EPROTO None
  end.

(** A follower as [monitor_create] leaves it, a request without the [up]
    key, and a force-down request. *)
Definition follower : monitor := Mon 1 4 None None None None None.

Definition bad_waitup : flux_msg := Msg 7 (Some {[ "up" := JStr "3" ]}).

Definition rank0_only : string := "this RPC only works on rank 0".

(** The claim "a leader-only RPC on a follower is rejected with EPROTO and
    the fixed message, and the monitor is left alone", for a handler. *)
Definition rejects_on_follower
    (handler : flux_msg → monitor → flux → monitor * flux) : Prop :=
  ∀ msg m h, rank m ≠ 0%nat →
    let '(m', h') := handler msg m h in
    m' = m ∧ responses h' = responses h ++ [RespondError msg EPROTO (Some rank0_only)].

(** The diff an input asks the monitor to post. *)
Definition asked_diff (i : input) (m : monitor) (h : flux) : list event :=
  match i with
  | OnlineSnapshot f =>
      match fst (group_get f h), up m with
      | Some new, Some old => diff_events "online" "offline" old new
      | _, _ => []
      end
  | TorpidSnapshot f =>
      match fst (group_get f h), torpid m with
      | Some new, Some old => diff_events "torpid" "lively" old new
      | _, _ => []
      end
  | ForceDownRequest msg =>
      match unpack_str "ranks" (msg_payload msg), up m with
      | Some ranks, Some old =>
          match idset_decode ranks with
          | Some b => diff_events "online" "offline" old (old ∖ b)
          | None => []
          end
      | _, _ => []
      end
  | WaitupRequest _ => []
  end.

(** A leader with [up = {0,1,2,3}] and nothing deferred. *)
Definition leader_up4 : monitor :=
  Mon 0 4 (Some ∅) (Some (idset_range 0 4)) None (Some ∅) (Some []).

(** A leader with [up = {0,1}] and one request waiting for three ranks. *)
Definition leader_waiting : monitor :=
  Mon 0 4 (Some ∅) (Some {[ 0%nat; 1%nat ]}) None (Some ∅)
      (Some [waitup_request 1 3]).

(** A session of the leader of four ranks: cold start, then the given
    inputs.  The result is the eventlog, the ids of the requests answered
    with success, in order, and the lost set at the end. *)
Definition answered (r : response) : list nat :=
  match r with Respond msg => [msg_id msg] | RespondError _ _ _ => [] end.

Definition session (ins : list input)
    : list event * list nat * option string :=
  match leader4 with
  | (Some m, _, h) =>
      let '(m', h') := run ins m h in
      (eventlog h', responses h' ≫= answered, idset_encode <$> lost m')
  | _ => ([], [], None)
  end.

Definition restart4 : event :=
  Event "restart" [("ranks", "0-3"); ("online", ""); ("nodelist", "node[0-3]")].

(** ** The accessors and the cached down set *)

(** [monitor_get_up], [monitor_get_torpid], [monitor_get_lost]. *)
Definition monitor_get_up (m : monitor) : option idset := up m.
Definition monitor_get_torpid (m : monitor) : option idset := torpid m.
Definition monitor_get_lost (m : monitor) : option idset := lost m.

(** Modelled from the spec: [idset_test] on a set that may be NULL
    (libidset): no id is in a NULL set. *)
Definition test_in (s : option idset) (id : nat) : bool :=
  match s with Some x => idset_test x id | None => false end.

(** The loop of [monitor_get_down] over the ids [0 .. size-1]: an id that
    is up is cleared in [down], any other id is set. *)
Fixpoint down_loop (u : option idset) (ids : list nat) (d : idset) : idset :=
  match ids with
  | [] => d
  | id :: rest =>
      down_loop u rest (if test_in u id then d ∖ {[ id ]} else d ∪ {[ id ]})
  end.

(** [monitor_get_down], statement by statement: the cached set is
    created (empty, as in [monitor_create]) on first use and then
    updated in place by the loop.  The loop counter is an [unsigned int]
    and the [int] size is compared with it as unsigned. *)
Definition monitor_get_down_loop (m : monitor) : option idset * monitor :=
  let d0 := match down m with Some d => d | None => ∅ end in
  let d := down_loop (up m) (seq 0 (Z.to_nat (size m mod 2 ^ 32))) d0 in
  (Some d, set_down (Some d) m).

(** The cached down set holds ranks below [size] only. *)
Definition cached_down_ok (m : monitor) : Prop :=
  match down m with
  | Some d => ∀ id, id ∈ d → Z.of_nat id < size m
  | None => True
  end.

(** ** Notions for the sessions of a leader *)

(** A deferred request that is rightly waiting: it asks for a count in
    range that is not the current count of [up]. *)
Definition waiting (m : monitor) (msg : flux_msg) : Prop :=
  ∃ w, wants msg = Some w ∧ 0 ≤ w ≤ size m ∧ w ≠ up_count m.

(** The state of a leader between two inputs. *)
Record leader_ok (m : monitor) : Prop := LeaderOk {
  lo_rank : rank m = 0%nat;
  lo_up : is_Some (up m);
  lo_torpid : is_Some (torpid m);
  lo_lost : is_Some (lost m);
  lo_reqs : ∃ reqs, waitup_requests m = Some reqs ∧ Forall (waiting m) reqs;
  lo_disjoint : ∀ id, member id (up m) → ¬ member id (lost m)
}.

(** The message a response answers, and whether it is an error. *)
Definition response_to (r : response) : flux_msg :=
  match r with Respond msg => msg | RespondError msg _ _ => msg end.

(** A leader of four ranks with ranks 0 to 2 up, rank 3 lost, a cached
    down set, and one request waiting for all four. *)
Definition leader_3of4 : monitor :=
  Mon 0 4 (Some ∅) (Some (idset_range 0 3)) (Some {[ 3%nat ]})
      (Some {[ 3%nat ]}) (Some [waitup_request 5 4]).

(** The context of the leader of four ranks, and a configuration that
    forces all ranks up. *)
Definition ctx4 : resource_ctx := Ctx 0 4 (Some "node[0-3]") None.
Definition forced_up : resource_config := Config true false.

(** The request an input carries, if it is one, and whether a response
    is an error. *)
Definition request_of (i : input) : list flux_msg :=
  match i with
  | WaitupRequest msg | ForceDownRequest msg => [msg]
  | OnlineSnapshot _ | TorpidSnapshot _ => []
  end.

Definition is_error (r : response) : Prop :=
  match r with RespondError _ _ _ => True | Respond _ => False end.

(** The leader of four ranks as [monitor_create] leaves it, and its
    handle after the restart event. *)
Definition leader_start : monitor :=
  Mon 0 4 (Some ∅) (Some ∅) None (Some ∅) (Some []).

Definition flux_start : flux := Flux [restart4] [] [] 0 [].

(** Rank 3 goes away and comes back; and two ranks come up while a
    request waits for three. *)
Definition loss_and_return : list input :=
  [OnlineSnapshot (members "0-3"); OnlineSnapshot (members "0-2");
   OnlineSnapshot (members "0-3")].

Definition two_up_one_waiting : list input :=
  [OnlineSnapshot (members "0-1"); WaitupRequest (waitup_request 1 3)].

(** The inputs a follower may see, and the context of rank 1 of four. *)
Definition follower_inputs : list input :=
  [WaitupRequest (waitup_request 1 2); OnlineSnapshot (members "0-3");
   ForceDownRequest (force_down_request 2 "0")].

Definition ctx4_rank1 : resource_ctx := Ctx 1 4 (Some "node[0-3]") None.

(** What [notify_waitup] sends for the deferred requests [reqs] when the
    count of [up] has become [count]. *)
Definition notified (count : Z) (reqs : list flux_msg) : list response :=
  map answer (List.filter (λ r, negb (stays count r)) reqs).

(** The events a monitor posts after its restart event. *)
Definition membership_event (e : event) : Prop :=
  ev_name e = "online" ∨ ev_name e = "offline"
  ∨ ev_name e = "torpid" ∨ ev_name e = "lively".

(** The events of [evs] that the log takes, given the outcomes of the
    coming posts: the events are posted in order, and posting stops at
    the first post that fails. *)
Fixpoint posted (outcomes : list (option Z)) (evs : list event)
    : list event :=
  match evs with
  | [] => []
  | e :: rest =>
      match outcomes with
      | Some _ :: _ => []
      | None :: outcomes' => e :: posted outcomes' rest
      | [] => e :: posted [] rest
      end
  end.

End Monitor.

(* ===================================================================== *)
(** * Part II: the waitqueue ([waitqueue.c])                               *)
(* ===================================================================== *)

Module Waitqueue.

Local Open Scope Z_scope.

(** ** The heap *)

(** Pointers are names: of a [wait_t], of a [waitqueue_t], of a message,
    of a callback function (with the arguments it was registered with). *)
Abbreviation addr := nat.
Abbreviation qaddr := nat.
Abbreviation msg := nat.
Abbreviation cbname := nat.

(** [struct wait_struct], with [struct handler] flattened into it.  The
    magic tag is the wait being allocated; the error hook ([errnum],
    [error_cb]) plays no part in queueing and is left out. *)
Record wait_struct := Wait {
  usecount : Z;
  cb : option cbname;
  hand_cb : option cbname;
  hand_msg : option msg
}.

(** [struct waitqueue_struct]: the zlist of wait pointers and the counter
    of entries that have a message. *)
Record waitqueue_struct := Queue {
  q : list addr;
  msgs_on_queue : Z
}.

(** A callback invocation: [w->cb (w->cb_arg)] or
    [w->hand.cb (h, mh, w->hand.msg, w->hand.arg)], for the wait [w]. *)
Inductive fired :=
| FiredPlain (w : addr) (c : cbname)
| FiredHandler (w : addr) (c : cbname) (m : option msg).

Definition fired_wait (e : fired) : addr :=
  match e with FiredPlain w _ => w | FiredHandler w _ _ => w end.

(** The state: the allocated waits and queues, the next fresh address,
    the outcomes of the coming allocations ([true]: the allocation
    fails; none left: it succeeds), errno, and the callbacks invoked so
    far. *)
Record heap := Heap {
  waits : gmap addr wait_struct;
  queues : gmap qaddr waitqueue_struct;
  brk : nat;
  oom : list bool;
  errno : Z;
  trace : list fired
}.

Definition set_waits (ws : gmap addr wait_struct) (s : heap) : heap :=
  Heap ws (queues s) (brk s) (oom s) (errno s) (trace s).
Definition set_queues (qs : gmap qaddr waitqueue_struct) (s : heap) : heap :=
  Heap (waits s) qs (brk s) (oom s) (errno s) (trace s).
Definition set_brk (b : nat) (s : heap) : heap :=
  Heap (waits s) (queues s) b (oom s) (errno s) (trace s).
Definition set_errno (e : Z) (s : heap) : heap :=
  Heap (waits s) (queues s) (brk s) (oom s) e (trace s).
Definition log (e : fired) (s : heap) : heap :=
  Heap (waits s) (queues s) (brk s) (oom s) (errno s) (trace s ++ [e]).

(** One allocation (calloc, zlist_new, zlist_append, zlist_dup): whether
    it fails, and the state with that outcome used up. *)
Definition alloc_fails (s : heap) : bool * heap :=
  match oom s with
  | b :: rest => (b, Heap (waits s) (queues s) (brk s) rest (errno s) (trace s))
  | [] => (false, s)
  end.

Definition store_wait (w : addr) (wt : wait_struct) (s : heap) : heap :=
  set_waits (<[w := wt]> (waits s)) s.
Definition store_queue (qa : qaddr) (wq : waitqueue_struct) (s : heap) : heap :=
  set_queues (<[qa := wq]> (queues s)) s.

Definition free_wait (w : addr) (s : heap) : heap :=
  set_waits (delete w (waits s)) s.
Definition free_queue (qa : qaddr) (s : heap) : heap :=
  set_queues (delete qa (queues s)) s.

Definition set_usecount (n : Z) (wt : wait_struct) : wait_struct :=
  Wait n (cb wt) (hand_cb wt) (hand_msg wt).
Definition clear_hand_cb (wt : wait_struct) : wait_struct :=
  Wait (usecount wt) (cb wt) None (hand_msg wt).

Definition has_msg (wt : wait_struct) : bool :=
  match hand_msg wt with Some _ => true | None => false end.

(** [zlist_remove]: the first node holding the pointer goes. *)
Fixpoint remove_first (w : addr) (l : list addr) : list addr :=
  match l with
  | [] => []
  | x :: l' => if Nat.eqb x w then l' else x :: remove_first w l'
  end.

(** ** User callbacks *)

(** What a callback does when it is invoked is user code.  It is
    modelled as a program over the waitqueue interface that creates new
    waits and puts them on queues, as a KVS handler does when it is run
    again and stalls again. *)
Inductive action :=
| NewWait (c : option cbname) (qs : list qaddr)
| NewMsgWait (m : option msg) (c : option cbname) (qs : list qaddr).

(** ** The functions of waitqueue.c

    A function returns [None] when it trips an assertion or follows a
    pointer that is not allocated. *)

(** [wait_create (cb, arg)]: NULL when calloc fails. *)
Definition wait_create (c : option cbname) (s : heap) : option addr * heap :=
  let '(fails, s1) := alloc_fails s in
  if fails then (None, set_errno ENOMEM s1)
  else
    let w := brk s1 in
    (Some w, set_brk (S w) (store_wait w (Wait 0 c None None) s1)).

(** [wait_create_msg_handler (h, mh, msg, arg, cb)]. *)
Definition wait_create_msg_handler (m : option msg) (c : option cbname)
    (s : heap) : option addr * heap :=
  match wait_create None s with
  | (Some w, s1) => (Some w, store_wait w (Wait 0 None c m) s1)
  | (None, s1) => (None, s1)
  end.

(** [wait_destroy (w)], for a [w] that is not NULL. *)
Definition wait_destroy (w : addr) (s : heap) : option heap :=
  match waits s !! w with
  | None => None
  | Some wt =>
      if Z.eqb (usecount wt) 0 then Some (free_wait w s) else None
  end.

(** [wait_queue_create ()]: calloc, then zlist_new. *)
Definition wait_queue_create (s : heap) : option qaddr * heap :=
  let '(fails, s1) := alloc_fails s in
  if fails then (None, set_errno ENOMEM s1)
  else
    let '(fails2, s2) := alloc_fails s1 in
    if fails2 then (None, set_errno ENOMEM s2)
    else
      let qa := brk s2 in
      (Some qa, set_brk (S qa) (store_queue qa (Queue [] 0) s2)).

(** [--w->usecount == 0], then [wait_destroy (w)]: the body shared by
    the loops of [wait_queue_destroy] and [wait_destroy_msg]. *)
Definition unref (w : addr) (s : heap) : option heap :=
  match waits s !! w with
  | None => None
  | Some wt =>
      let n := usecount wt - 1 in
      let s1 := store_wait w (set_usecount n wt) s in
      if Z.eqb n 0 then wait_destroy w s1 else Some s1
  end.

Fixpoint unref_all (l : list addr) (s : heap) : option heap :=
  match l with
  | [] => Some s
  | w :: rest =>
      match unref w s with
      | Some s1 => unref_all rest s1
      | None => None
      end
  end.

(** [wait_queue_destroy (q)], for a [q] that is not NULL. *)
Definition wait_queue_destroy (qa : qaddr) (s : heap) : option heap :=
  match queues s !! qa with
  | None => None
  | Some wq =>
      match unref_all (q wq) s with
      | Some s1 => Some (free_queue qa s1)
      | None => None
      end
  end.

(** [wait_queue_length], [wait_queue_msgs_count]. *)
Definition wait_queue_length (qa : qaddr) (s : heap) : option Z :=
  match queues s !! qa with
  | Some wq => Some (Z.of_nat (length (q wq)))
  | None => None
  end.

Definition wait_queue_msgs_count (qa : qaddr) (s : heap) : option Z :=
  match queues s !! qa with
  | Some wq => Some (msgs_on_queue wq)
  | None => None
  end.

(** [wait_addqueue (q, w)]. *)
Definition wait_addqueue (qa : qaddr) (w : addr) (s : heap)
    : option (Z * heap) :=
  match queues s !! qa, waits s !! w with
  | Some wq, Some wt =>
      let '(fails, s1) := alloc_fails s in
      if fails then Some (-1, set_errno ENOMEM s1)
      else
        let wq' := Queue (q wq ++ [w])
                         (if has_msg wt then msgs_on_queue wq + 1
                          else msgs_on_queue wq) in
        Some (0, store_queue qa wq'
                   (store_wait w (set_usecount (usecount wt + 1) wt) s1))
  | _, _ => None
  end.

(** Running the program of a callback.  A queue that is gone is skipped,
    and so is the rest of an action whose wait could not be allocated. *)
Fixpoint add_to_queues (qs : list qaddr) (w : addr) (s : heap) : heap :=
  match qs with
  | [] => s
  | qa :: rest =>
      match wait_addqueue qa w s with
      | Some (_, s1) => add_to_queues rest w s1
      | None => add_to_queues rest w s
      end
  end.

Definition run_action (a : action) (s : heap) : heap :=
  match a with
  | NewWait c qs =>
      match wait_create c s with
      | (Some w, s1) => add_to_queues qs w s1
      | (None, s1) => s1
      end
  | NewMsgWait m c qs =>
      match wait_create_msg_handler m c s with
      | (Some w, s1) => add_to_queues qs w s1
      | (None, s1) => s1
      end
  end.

Definition run_actions (acts : list action) (s : heap) : heap :=
  fold_left (λ s a, run_action a s) acts s.

Section WithUser.

(** The program of each callback. *)
Variable user : cbname → list action.

(** [wait_runone (w)]. *)
Definition wait_runone (w : addr) (s : heap) : option heap :=
  match waits s !! w with
  | None => None
  | Some wt =>
      let n := usecount wt - 1 in
      let s1 := store_wait w (set_usecount n wt) s in
      if Z.eqb n 0 then
        let s2 :=
          match cb wt with
          | Some c => run_actions (user c) (log (FiredPlain w c) s1)
          | None =>
              match hand_cb wt with
              | Some c =>
                  run_actions (user c) (log (FiredHandler w c (hand_msg wt)) s1)
              | None => s1
              end
          end in
        wait_destroy w s2
      else Some s1
  end.

(** The loop of [wait_runqueue] over the copy [cpy]. *)
Fixpoint run_copy (qa : qaddr) (cpy : list addr) (s : heap) : option heap :=
  match cpy with
  | [] => Some s
  | w :: rest =>
      match waits s !! w with
      | None => None
      | Some wt =>
          let s1 :=
            if has_msg wt then
              match queues s !! qa with
              | Some wq =>
                  Some (store_queue qa (Queue (q wq) (msgs_on_queue wq - 1)) s)
              | None => None
              end
            else Some s in
          match s1 with
          | Some s1 =>
              match wait_runone w s1 with
              | Some s2 => run_copy qa rest s2
              | None => None
              end
          | None => None
          end
      end
  end.

(** [wait_runqueue (q)]. *)
Definition wait_runqueue (qa : qaddr) (s : heap) : option (Z * heap) :=
  match queues s !! qa with
  | None => None
  | Some wq =>
      if Nat.ltb 0 (length (q wq)) then
        let '(fails, s1) := alloc_fails s in
        if fails then Some (-1, set_errno ENOMEM s1)
        else
          let cpy := q wq in
          let s2 := store_queue qa (Queue [] (msgs_on_queue wq)) s1 in
          match run_copy qa cpy s2 with
          | Some s3 => Some (0, s3)
          | None => None
          end
      else Some (0, s)
  end.

End WithUser.

(** The first loop of [wait_destroy_msg]: walk the queue, put the waits
    whose message passes the test on [tmp] and clear their handler.
    The result is [tmp] and the count, or [None] when an allocation
    failed on the way. *)
Fixpoint collect (test : option (msg → bool)) (l : list addr)
    (tmp : option (list addr)) (count : Z) (s : heap)
    : option (option (list addr) * Z * heap) + heap :=
  match l with
  | [] => inl (Some (tmp, count, s))
  | w :: rest =>
      match waits s !! w with
      | None => inl None
      | Some wt =>
          let hit := match hand_msg wt, test with
                     | Some m, Some f => f m
                     | _, _ => false
                     end in
          if hit then
            let '(fails1, s1) :=
              match tmp with None => alloc_fails s | Some _ => (false, s) end in
            if fails1 then inr (set_errno ENOMEM s1)
            else
              let '(fails2, s2) := alloc_fails s1 in
              if fails2 then inr (set_errno ENOMEM s2)
              else
                let tmp' := match tmp with
                            | None => [w]
                            | Some t => t ++ [w]
                            end in
                collect test rest (Some tmp') (count + 1)
                        (store_wait w (clear_hand_cb wt) s2)
          else collect test rest tmp count s
      end
  end.

(** The second loop of [wait_destroy_msg]: take each collected wait off
    the queue and drop its reference. *)
Fixpoint cull (qa : qaddr) (tmp : list addr) (s : heap) : option heap :=
  match tmp with
  | [] => Some s
  | w :: rest =>
      match queues s !! qa with
      | None => None
      | Some wq =>
          let s1 := store_queue qa (Queue (remove_first w (q wq))
                                          (msgs_on_queue wq - 1)) s in
          match unref w s1 with
          | Some s2 => cull qa rest s2
          | None => None
          end
      end
  end.

(** [wait_destroy_msg (q, cb, arg)]. *)
Definition wait_destroy_msg (qa : qaddr) (test : option (msg → bool))
    (s : heap) : option (Z * heap) :=
  match queues s !! qa with
  | None => None
  | Some wq =>
      match collect test (q wq) None 0 s with
      | inl None => None
      | inr s1 => Some (-1, s1)
      | inl (Some (tmp, count, s1)) =>
          match tmp with
          | None => Some (count, s1)
          | Some t =>
              match cull qa t s1 with
              | Some s2 => Some (count, s2)
              | None => None
              end
          end
      end
  end.

(** ** Programs over the interface *)

Inductive op :=
| QueueCreate
| Create (c : option cbname)
| CreateMsg (m : option msg) (c : option cbname)
| Destroy (w : addr)
| Addqueue (qa : qaddr) (w : addr)
| Runqueue (qa : qaddr)
| DestroyMsg (qa : qaddr) (test : option (msg → bool))
| QueueDestroy (qa : qaddr).

Definition step (user : cbname → list action) (o : op) (s : heap)
    : option heap :=
  match o with
  | QueueCreate => Some (wait_queue_create s).2
  | Create c => Some (wait_create c s).2
  | CreateMsg m c => Some (wait_create_msg_handler m c s).2
  | Destroy w => wait_destroy w s
  | Addqueue qa w => snd <$> wait_addqueue qa w s
  | Runqueue qa => snd <$> wait_runqueue user qa s
  | DestroyMsg qa test => snd <$> wait_destroy_msg qa test s
  | QueueDestroy qa => wait_queue_destroy qa s
  end.

Fixpoint exec (user : cbname → list action) (ops : list op) (s : heap)
    : option heap :=
  match ops with
  | [] => Some s
  | o :: rest =>
      match step user o s with
      | Some s1 => exec user rest s1
      | None => None
      end
  end.

(** The empty heap, with the outcomes of the allocations to come. *)
Definition init (outcomes : list bool) : heap :=
  Heap ∅ ∅ 0 outcomes 0 [].

(** ** Notions used in the statements *)

(** The number of entries of [l] that are the wait [a]. *)
Fixpoint occ (a : addr) (l : list addr) : nat :=
  match l with
  | [] => 0
  | x :: l' => (if Nat.eqb x a then 1 else 0) + occ a l'
  end.

(** The number of entries of [l] that have a message ([w->hand.msg]). *)
Definition bears_msg (s : heap) (a : addr) : bool :=
  match waits s !! a with Some wt => has_msg wt | None => false end.

Fixpoint count_msgs (s : heap) (l : list addr) : nat :=
  match l with
  | [] => 0
  | a :: l' => (if bears_msg s a then 1 else 0) + count_msgs s l'
  end.

(** A sum over all queues, and with it the number of queue entries that
    point to [a]. *)
Definition qsum (f : waitqueue_struct → nat)
    (m : gmap qaddr waitqueue_struct) : nat :=
  map_fold (λ _ wq acc, f wq + acc)%nat 0%nat m.

Definition refs (s : heap) (a : addr) : nat :=
  qsum (λ wq, occ a (q wq)) (queues s).

(** How often a callback of the wait [a] was invoked. *)
Fixpoint fire_count (a : addr) (t : list fired) : nat :=
  match t with
  | [] => 0
  | e :: t' => (if Nat.eqb (fired_wait e) a then 1 else 0) + fire_count a t'
  end.

(** The callback [wait_runone] invokes for a wait: the plain one if set,
    else the message handler if set. *)
Definition callback_of (a : addr) (wt : wait_struct)
    : option (fired * cbname) :=
  match cb wt with
  | Some c => Some (FiredPlain a c, c)
  | None =>
      match hand_cb wt with
      | Some c => Some (FiredHandler a c (hand_msg wt), c)
      | None => None
      end
  end.

(** A wait after [k] of its references were dropped: destroyed when
    they were all it had. *)
Definition after (k : nat) (wt : wait_struct) : option wait_struct :=
  if Nat.eqb k 0 then Some wt
  else if Z.eqb (usecount wt) (Z.of_nat k) then None
  else Some (set_usecount (usecount wt - Z.of_nat k) wt).

(** The callbacks a run over the entries [l] invokes, from the waits as
    they are in [s] when the run starts: an entry fires when it is the
    one that takes its wait's use count to zero.  [seen] are the entries
    already run. *)
Fixpoint run_events (s : heap) (seen l : list addr) : list fired :=
  match l with
  | [] => []
  | a :: rest =>
      match waits s !! a with
      | Some wt =>
          if Z.eqb (usecount wt) (Z.of_nat (occ a seen) + 1) then
            match callback_of a wt with
            | Some (e, _) => [e]
            | None => []
            end
          else []
      | None => []
      end ++ run_events s (a :: seen) rest
  end.

(** The invariant of the heap.  [pend] are entries taken off a queue
    and not yet released (the copy [wait_runqueue] walks), and [k] is
    the number of decrements of [q0]'s message counter still to come. *)
Record wf_pend (pend : list addr) (k : nat) (q0 : qaddr) (s : heap)
    : Prop := WfPend {
  wf_ref : ∀ a,
    match waits s !! a with
    | Some wt => usecount wt = Z.of_nat (refs s a + occ a pend)
    | None => (refs s a + occ a pend = 0)%nat
    end;
  wf_msgs : ∀ qa wq, queues s !! qa = Some wq →
    msgs_on_queue wq =
      Z.of_nat (count_msgs s (q wq) + if Nat.eqb qa q0 then k else 0);
  wf_brk_w : ∀ a, is_Some (waits s !! a) → (a < brk s)%nat;
  wf_brk_q : ∀ qa, is_Some (queues s !! qa) → (qa < brk s)%nat;
  wf_shape : ∀ a wt, waits s !! a = Some wt →
    is_Some (hand_msg wt) → cb wt = None
}.

Definition wf (s : heap) : Prop := wf_pend [] 0 0 s.

(** The invariant of the trace: no wait has fired twice, and a wait that
    is allocated has not fired. *)
Record unfired (s : heap) : Prop := Unfired {
  uf_once : ∀ a, (fire_count a (trace s) ≤ 1)%nat;
  uf_live : ∀ a, is_Some (waits s !! a) → fire_count a (trace s) = 0%nat;
  uf_brk : ∀ a, (brk s ≤ a)%nat → fire_count a (trace s) = 0%nat;
  uf_alloc : ∀ a, is_Some (waits s !! a) → (a < brk s)%nat
}.

(** A wait that will never fire: it has not fired, and it is destroyed
    or has both callbacks unset. *)
Definition silenced (a : addr) (s : heap) : Prop :=
  (a < brk s)%nat ∧ fire_count a (trace s) = 0%nat
  ∧ ∀ wt, waits s !! a = Some wt → cb wt = None ∧ hand_cb wt = None.

(** A state reached by a program from the empty heap. *)
Definition reachable (user : cbname → list action) (s : heap) : Prop :=
  ∃ outcomes ops, exec user ops (init outcomes) = Some s.

(** What user callbacks do to a heap, seen from the waits below the
    address [b]: those waits are as they were, the queues have gained
    entries for waits from [b] on, and nothing was fired. *)
Record extends_from (b : nat) (s s' : heap) : Prop := ExtendsFrom {
  ext_brk : (brk s ≤ brk s')%nat;
  ext_waits : ∀ a, (a < b)%nat → waits s' !! a = waits s !! a;
  ext_queues : ∀ qa,
    match queues s !! qa with
    | Some wq =>
        ∃ wq' news, queues s' !! qa = Some wq' ∧ q wq' = q wq ++ news
                    ∧ ∀ x, x ∈ news → (b ≤ x)%nat
    | None => queues s' !! qa = None
    end;
  ext_trace : trace s' = trace s
}.

(** The invariant of the loop of [wait_runqueue (qa)] that started in
    [s0]: [seen] are the entries of the copy already run, [rest] those
    still to run. *)
Record run_inv (s0 : heap) (qa : qaddr) (seen rest : list addr) (s : heap)
    : Prop := RunInv {
  ri_wf : wf_pend rest (count_msgs s rest) qa s;
  ri_brk : (brk s0 ≤ brk s)%nat;
  ri_waits : ∀ a, (a < brk s0)%nat →
    waits s !! a = waits s0 !! a ≫= after (occ a seen);
  ri_queues : ∀ qa',
    match queues s0 !! qa' with
    | Some wq0 =>
        ∃ wq news, queues s !! qa' = Some wq
          ∧ q wq = (if decide (qa' = qa) then [] else q wq0) ++ news
          ∧ ∀ x, x ∈ news → (brk s0 ≤ x)%nat
    | None => queues s !! qa' = None
    end;
  ri_old : ∀ x, x ∈ rest → (x < brk s0)%nat
}.

(** What any operation does to the waits that exist when it starts: a
    wait may go, its use count may change, and its message handler may be
    cleared, but its callbacks are not replaced. *)
Record evolves (s s' : heap) : Prop := Evolves {
  ev_brk : (brk s ≤ brk s')%nat;
  ev_waits : ∀ a wt', (a < brk s)%nat → waits s' !! a = Some wt' →
    ∃ wt, waits s !! a = Some wt ∧ cb wt' = cb wt
          ∧ hand_msg wt' = hand_msg wt
          ∧ (hand_cb wt' = hand_cb wt ∨ hand_cb wt' = None)
}.

(** Whether [wait_destroy_msg]'s test picks the wait [a]. *)
Definition hit (test : option (msg → bool)) (s : heap) (a : addr) : bool :=
  match waits s !! a with
  | Some wt =>
      match hand_msg wt, test with
      | Some m, Some f => f m
      | _, _ => false
      end
  | None => false
  end.

(** A small program for the examples: callback 5 stalls again, creating
    a message wait (message 3, handler 6) on queue 0.  After [demo_ops],
    queue 0 holds the plain wait 2 (callback 5) and the message wait 3
    (message 4, handler 7), each with one reference left; queue 1 has
    been run. *)
Definition demo_user : cbname → list action :=
  λ c, if Nat.eqb c 5 then [NewMsgWait (Some 3%nat) (Some 6%nat) [0%nat]]
       else [].

Definition demo_ops : list op :=
  [QueueCreate; QueueCreate; Create (Some 5%nat);
   CreateMsg (Some 4%nat) (Some 7%nat);
   Addqueue 0 2; Addqueue 1 2; Addqueue 0 3; Addqueue 1 3; Runqueue 1].

Definition demo : heap :=
  default (init []) (exec demo_user demo_ops (init [])).

Definition demo_queue : waitqueue_struct := Queue [2%nat; 3%nat] 1.

(** Projections of the result of [wait_runqueue], for the examples. *)
Definition rc_of (r : option (Z * heap)) : option Z := fst <$> r.
Definition trace_of (r : option (Z * heap)) : list fired :=
  match r with Some (_, s) => trace s | None => [] end.
Definition queue_of (r : option (Z * heap)) : option (list addr) :=
  match r with
  | Some (_, s) => q <$> queues s !! 0%nat
  | None => None
  end.

(** The same program before queue 1 is run: both waits sit on both
    queues.  Then every message wait of queue 0 is culled, and queue 1
    is run. *)
Definition demo2 : heap :=
  default (init []) (exec demo_user (take 8 demo_ops) (init [])).

Definition any_msg : option (msg → bool) := Some (λ _, true).

Definition demo2_culled : heap :=
  match wait_destroy_msg 0 any_msg demo2 with
  | Some (_, s) => s
  | None => init []
  end.

Definition demo2_final : heap :=
  default (init []) (exec demo_user [Runqueue 1] demo2_culled).


(** Two queues with one wait on both, and what a program leaves: the
    callbacks invoked and the waits still allocated. *)
Definition on_both (create : op) : list op :=
  [QueueCreate; QueueCreate; create; Addqueue 0 2; Addqueue 1 2].

Definition observe (ops : list op)
    : option (list fired * list (addr * wait_struct)) :=
  (λ s, (trace s, map_to_list (waits s))) <$> exec (λ _, []) ops (init []).

(** ** More of the interface, and notions for its properties *)

(** [wait_get_usecount (w)]. *)
Definition wait_get_usecount (w : addr) (s : heap) : option Z :=
  usecount <$> waits s !! w.

(** The wait [w] is an entry of some queue. *)
Definition queued (s : heap) (w : addr) : Prop :=
  ∃ qa wq, queues s !! qa = Some wq ∧ w ∈ q wq.

(** No allocation to come fails. *)
Definition no_oom (s : heap) : Prop := ∀ b, b ∈ oom s → b = false.

(** The waits of [s] with the message handler of those in [hits]
    cleared. *)
Definition cleared (hits : list addr) (s : heap) (a : addr)
    : option wait_struct :=
  if decide (a ∈ hits) then clear_hand_cb <$> waits s !! a else waits s !! a.

(** The program of the examples up to the point where both waits sit on
    both queues, then a second message wait (message 8, handler 9) put
    on queue 0; of the allocations that follow, the third fails.  Then
    queue 0 is culled: the list of matches is made, the message wait 3
    is put on it, and putting the message wait 4 on it fails. *)
Definition demo3 : heap :=
  default (init [])
    (exec demo_user
       (take 8 demo_ops ++ [CreateMsg (Some 8%nat) (Some 9%nat); Addqueue 0 4])
       (init (replicate 14 false ++ [true]))).

Definition demo3_queue : waitqueue_struct := Queue [2%nat; 3%nat; 4%nat] 2.

Definition demo3_failed : heap :=
  match wait_destroy_msg 0 any_msg demo3 with
  | Some (_, s) => s
  | None => init []
  end.

(** What a call that fails for lack of memory leaves: the waits, the
    queues and the trace as they were, and errno set. *)
Definition only_errno (s s' : heap) : Prop :=
  waits s' = waits s ∧ queues s' = queues s ∧ trace s' = trace s
  ∧ brk s' = brk s ∧ errno s' = ENOMEM.

(** The heap of the examples with the next allocation failing. *)
Definition demo_oom : heap :=
  Heap (waits demo) (queues demo) (brk demo) [true] (errno demo) (trace demo).

(** ** The error hook

    The fields [errnum], [error_cb] and [error_arg] of
    [struct wait_struct] are read and written by the three functions
    below only.  They are kept in a table of their own, by the address
    of the wait; calloc leaves them zero, which is what the table gives
    for a wait it has no entry for.  An invocation
    [w->error_cb (w, w->errnum, w->error_arg)] is recorded with the
    wait, the error number and the callback. *)
Record wait_hook := Hook { errnum : Z; error_cb : option cbname }.

Record hooks := Hooks {
  hook : gmap addr wait_hook;
  reported : list (addr * Z * cbname)
}.

Definition hook_of (w : addr) (k : hooks) : wait_hook :=
  default (Hook 0 None) (hook k !! w).

(** [wait_aux_set_errnum (w, errnum)]; [w] may be NULL. *)
Definition wait_aux_set_errnum (w : option addr) (e : Z) (s : heap)
    (k : hooks) : option (Z * hooks) :=
  match w with
  | None => Some (0, k)
  | Some a =>
      match waits s !! a with
      | None => None
      | Some _ =>
          let x := Hook e (error_cb (hook_of a k)) in
          let k1 := Hooks (<[a := x]> (hook k)) (reported k) in
          Some (0, match error_cb x with
                   | Some c => Hooks (hook k1) (reported k1 ++ [(a, e, c)])
                   | None => k1
                   end)
      end
  end.

(** [wait_aux_get_errnum (w)]: -1 for NULL. *)
Definition wait_aux_get_errnum (w : option addr) (s : heap) (k : hooks)
    : option Z :=
  match w with
  | None => Some (-1)
  | Some a =>
      match waits s !! a with
      | None => None
      | Some _ => Some (errnum (hook_of a k))
      end
  end.

(** [wait_set_error_cb (w, cb, arg)]; [w] may be NULL. *)
Definition wait_set_error_cb (w : option addr) (c : option cbname) (s : heap)
    (k : hooks) : option (Z * hooks) :=
  match w with
  | None => Some (0, k)
  | Some a =>
      match waits s !! a with
      | None => None
      | Some _ =>
          Some (0, Hooks (<[a := Hook (errnum (hook_of a k)) c]> (hook k))
                         (reported k))
      end
  end.

(** Setting the error number of [w] to each of [es] in turn. *)
Fixpoint set_errnums (w : addr) (es : list Z) (s : heap) (k : hooks)
    : option hooks :=
  match es with
  | [] => Some k
  | e :: rest =>
      match wait_aux_set_errnum (Some w) e s k with
      | Some (_, k1) => set_errnums w rest s k1
      | None => None
      end
  end.

Definition no_hooks : hooks := Hooks ∅ [].

(** The invocations of the error callback [c] of [w] for the error
    numbers [es]; none when no callback is registered. *)
Definition reports (w : addr) (c : option cbname) (es : list Z)
    : list (addr * Z * cbname) :=
  match c with
  | Some f => map (λ e, (w, e, f)) es
  | None => []
  end.

(** [wait_queue_iter (q, cb, arg)]: the callback, if there is one, is
    called for each entry, in the order of the queue.  The callback is
    user code that is given the wait; the callbacks considered here work
    on the error hook of that wait (as one that calls
    [wait_aux_set_errnum] does) and leave the waits and the queues
    alone. *)
Definition visitor := addr → heap → hooks → option hooks.

Fixpoint visit_all (f : visitor) (l : list addr) (s : heap) (k : hooks)
    : option hooks :=
  match l with
  | [] => Some k
  | w :: rest =>
      match f w s k with
      | Some k1 => visit_all f rest s k1
      | None => None
      end
  end.

Definition wait_queue_iter (qa : qaddr) (cb : option visitor) (s : heap)
    (k : hooks) : option (Z * hooks) :=
  match queues s !! qa with
  | None => None
  | Some wq =>
      match cb with
      | None => Some (0, k)
      | Some f => (λ k', (0, k')) <$> visit_all f (q wq) s k
      end
  end.

(** The callback that sets the error number [e] on the wait it is
    given. *)
Definition set_errnum_cb (e : Z) : visitor :=
  λ w s k, snd <$> wait_aux_set_errnum (Some w) e s k.

(** ** What the callbacks of a run append *)





(** Two heaps on which the programs of callbacks act alike: they have
    the same next address, the same allocations to come, the same
    entries on every queue, and the same waits from the address [b]
    on. *)
Record sim (b : nat) (s r : heap) : Prop := Sim {
  sim_brk : brk s = brk r;
  sim_oom : oom s = oom r;
  sim_lists : ∀ qa, q <$> queues s !! qa = q <$> queues r !! qa;
  sim_new : ∀ a, (b ≤ a)%nat → waits s !! a = waits r !! a;
  sim_le : (b ≤ brk s)%nat
}.

(** ** The message counter and the shape of the callback *)

(** A wait whose callback is of the message-handler shape: it has a
    message handler and no plain callback. *)
Definition handler_shaped (s : heap) (a : addr) : bool :=
  match waits s !! a with
  | Some wt =>
      match cb wt, hand_cb wt with
      | None, Some _ => true
      | _, _ => false
      end
  | None => false
  end.

Fixpoint count_handlers (s : heap) (l : list addr) : nat :=
  match l with
  | [] => 0
  | a :: l' => (if handler_shaped s a then 1 else 0) + count_handlers s l'
  end.

(** The counter of every queue is the number of its entries whose
    callback is of the message-handler shape. *)
Definition counts_handlers (s : heap) : Prop :=
  ∀ qa wq, queues s !! qa = Some wq →
    msgs_on_queue wq = Z.of_nat (count_handlers s (q wq)).

(** A message handler registered without a message, and put on a queue. *)
Definition null_msg_ops : list op :=
  [QueueCreate; CreateMsg None (Some 7%nat); Addqueue 0 1].

Definition null_msg_heap : heap :=
  default (init []) (exec (λ _, []) null_msg_ops (init [])).

End Waitqueue.

(* ===================================================================== *)
(** * Part III: properties of the monitor                                  *)
(* ===================================================================== *)

Module MonitorSpec.
Import Monitor.
Local Open Scope Z_scope.

(** ** Event posting *)

Lemma reslog_post_pack_log name ctx h :
  let '(rc, h') := reslog_post_pack name ctx h in
  (rc = 0 ∧ eventlog h' = eventlog h ++ [Event name ctx]
   ∧ responses h' = responses h)
  ∨ (rc = -1 ∧ eventlog h' = eventlog h ∧ responses h' = responses h).
Proof.
  unfold reslog_post_pack.
  destruct (post_outcomes h) as [|[e|] rest]; simpl; auto.
Qed.

Lemma post_event_log name ids h :
  let '(rc, h') := post_event name ids h in
  (rc = 0 ∧ eventlog h' = eventlog h ++ event_for name ids
   ∧ responses h' = responses h)
  ∨ (rc = -1 ∧ eventlog h' = eventlog h ∧ responses h' = responses h).
Proof.
  unfold post_event, event_for.
  destruct (idset_count ids =? 0).
  - left. rewrite app_nil_r. auto.
  - apply reslog_post_pack_log.
Qed.

(** What [post_join_leave] does to the monitor and to the log, by the
    outcome of the two postings. *)
Lemma post_join_leave_cases r new J L m h old :
  deref r m = Some old →
  let '(rc, m', h') := post_join_leave r new J L m h in
  responses h' = responses h ∧
  up m' = up m ∧ torpid m' = torpid m ∧
  waitup_requests m' = waitup_requests m ∧ rank m' = rank m ∧
  size m' = size m ∧
  ((rc = -1 ∧ m' = m ∧
    ((eventlog h' = eventlog h)
     ∨ (eventlog h' = eventlog h ++ event_for J (new ∖ old))
     ∨ (eventlog h' = eventlog h ++ diff_events J L old new
        ∧ is_up r = true ∧ lost m = None)))
   ∨ (rc = 0 ∧ eventlog h' = eventlog h ++ diff_events J L old new ∧
      ((is_up r = false ∧ m' = m)
       ∨ (is_up r = true ∧ ∃ l, lost m = Some l ∧
          m' = set_lost (Some ((l ∪ (old ∖ new)) ∖ (new ∖ old))) m)))).
Proof.
  intros Hold. unfold post_join_leave. rewrite Hold.
  unfold idset_difference, idset_subtract, idset_add.
  pose proof (post_event_log J (new ∖ old) h) as H1.
  destruct (post_event J (new ∖ old) h) as [rc1 h1].
  destruct H1 as [(-> & E1 & R1)|(-> & E1 & R1)]; simpl.
  2:{ rewrite R1. repeat split; eauto 10. }
  pose proof (post_event_log L (old ∖ new) h1) as H2.
  destruct (post_event L (old ∖ new) h1) as [rc2 h2].
  destruct H2 as [(-> & E2 & R2)|(-> & E2 & R2)]; simpl.
  2:{ rewrite R2, R1, E2, E1. repeat split; eauto 10. }
  assert (Elog : eventlog h2 = eventlog h ++ diff_events J L old new).
  { rewrite E2, E1. unfold diff_events. by rewrite app_assoc. }
  destruct r; simpl.
  - destruct (lost m) as [l|] eqn:Hl; simpl;
      rewrite R2, R1; repeat split; eauto 12.
  - rewrite R2, R1. repeat split; eauto 10.
Qed.


Lemma group_get_frame f h :
  let '(r, h0) := group_get f h in
  eventlog h0 = eventlog h ∧ responses h0 = responses h.
Proof.
  unfold group_get. repeat case_match; simplify_eq; simpl; auto.
Qed.

(** ** The deferred waitup requests *)

Lemma notify_list_spec count l h :
  let '(keep, h') := notify_list count l h in
  keep = List.filter (stays count) l ∧
  eventlog h' = eventlog h ∧
  responses h' =
    responses h ++ map answer (List.filter (λ r, negb (stays count r)) l).
Proof.
  revert h. induction l as [|msg rest IH]; intros h; simpl.
  - rewrite app_nil_r. auto.
  - destruct (unpack_int "up" (msg_payload msg)) as [w|] eqn:Hw.
    + assert (Hs : stays count msg = negb (w =? count))
        by (unfold stays, wants; by rewrite Hw).
      assert (Ha : answer msg = Respond msg)
        by (unfold answer, wants; by rewrite Hw).
      rewrite Hs. destruct (w =? count) eqn:Hc; simpl.
      * specialize (IH (flux_respond msg h)).
        destruct (notify_list count rest (flux_respond msg h)) as [k h'].
        destruct IH as (-> & -> & ->). simpl.
        rewrite Ha, <- app_assoc. auto.
      * specialize (IH h). destruct (notify_list count rest h) as [k h'].
        destruct IH as (-> & -> & ->). auto.
    + assert (Hs : stays count msg = false)
        by (unfold stays, wants; by rewrite Hw).
      assert (Ha : answer msg = RespondError msg EPROTO None)
        by (unfold answer, wants; by rewrite Hw).
      rewrite Hs. simpl.
      specialize (IH (flux_respond_error msg EPROTO None (set_errno EPROTO h))).
      destruct (notify_list count rest _) as [k h'].
      destruct IH as (-> & -> & ->). simpl.
      rewrite Ha, <- app_assoc. auto.
Qed.

Lemma notify_waitup_spec m h reqs :
  waitup_requests m = Some reqs →
  let '(m', h') := notify_waitup m h in
  m' = set_waitup_requests (Some (List.filter (stays (up_count m)) reqs)) m ∧
  eventlog h' = eventlog h ∧
  responses h' =
    responses h
    ++ map answer (List.filter (λ r, negb (stays (up_count m) r)) reqs).
Proof.
  intros Hr. unfold notify_waitup. rewrite Hr.
  pose proof (notify_list_spec (up_count m) reqs h) as H.
  destruct (notify_list (up_count m) reqs h) as [k h'].
  destruct H as (-> & ? & ?). auto.
Qed.

Lemma notify_waitup_none m h :
  waitup_requests m = None → notify_waitup m h = (m, h).
Proof. intros Hr. unfold notify_waitup. by rewrite Hr. Qed.

(** One committed change of [up]: what [notify_waitup] is run on, and what
    comes out. *)
Lemma commit_up_spec new m1 h1 reqs :
  waitup_requests m1 = Some reqs →
  let '(m', h') := notify_waitup (set_up (Some new) m1) h1 in
  up m' = Some new ∧ lost m' = lost m1 ∧ torpid m' = torpid m1 ∧
  waitup_requests m' = Some (List.filter (stays (idset_count new)) reqs) ∧
  eventlog h' = eventlog h1 ∧
  responses h' =
    responses h1
    ++ map answer (List.filter (λ r, negb (stays (idset_count new) r)) reqs).
Proof.
  intros Hr.
  pose proof (notify_waitup_spec (set_up (Some new) m1) h1 reqs Hr) as H.
  destruct (notify_waitup (set_up (Some new) m1) h1) as [m' h'].
  destruct H as (-> & ? & ?). unfold up_count in *. simpl in *.
  repeat split; auto.
Qed.



(** ** Frame lemmas *)

Lemma post_join_leave_frame r new J L m h :
  let '(rc, m', h') := post_join_leave r new J L m h in
  (rc = 0 ∨ rc = -1) ∧ (rc = -1 → m' = m) ∧
  up m' = up m ∧ torpid m' = torpid m ∧ responses h' = responses h ∧
  waitup_requests m' = waitup_requests m.
Proof.
  destruct (deref r m) as [old|] eqn:Hd.
  - pose proof (post_join_leave_cases r new J L m h old Hd) as H.
    destruct (post_join_leave r new J L m h) as [[rc m'] h'].
    destruct H as (? & ? & ? & ? & ? & ? & [(-> & -> & _)|(-> & _)]);
      repeat split; auto; lia.
  - unfold post_join_leave. rewrite Hd. simpl. repeat split; auto.
Qed.

Lemma notify_waitup_frame m h :
  let '(m', h') := notify_waitup m h in
  up m' = up m ∧ torpid m' = torpid m ∧ lost m' = lost m ∧
  rank m' = rank m ∧ size m' = size m ∧ eventlog h' = eventlog h.
Proof.
  destruct (waitup_requests m) as [reqs|] eqn:Hr.
  - pose proof (notify_waitup_spec m h reqs Hr) as H.
    destruct (notify_waitup m h) as [m' h'].
    destruct H as (-> & ? & ?). simpl. repeat split; auto.
  - rewrite notify_waitup_none by done. repeat split; auto.
Qed.

(** ** C3: the cached set is committed only after posting succeeds *)

(** C3: in [broker_online_cb] and [broker_torpid_cb] the cached set ([up],
    resp. [torpid]) becomes the parsed snapshot only when
    [post_join_leave] has succeeded; when posting fails both cached sets
    (and [lost]) are as before, so the next snapshot is diffed against
    the same base; a snapshot that does not parse changes nothing. *)
Theorem commit_after_post (f : rpc_result) (m : monitor) (h : flux) :
  (∀ new h0, group_get f h = (Some new, h0) →
     let '(rc, _, _) := post_join_leave RefUp new "online" "offline" m h0 in
     let m' := (broker_online_cb f m h).1 in
     (rc < 0 → up m' = up m ∧ torpid m' = torpid m ∧ lost m' = lost m)
     ∧ (rc = 0 → up m' = Some new ∧ torpid m' = torpid m))
  ∧ (∀ new h0, group_get f h = (Some new, h0) →
     let '(rc, _, _) := post_join_leave RefTorpid new "torpid" "lively" m h0 in
     let m' := (broker_torpid_cb f m h).1 in
     (rc < 0 → up m' = up m ∧ torpid m' = torpid m ∧ lost m' = lost m)
     ∧ (rc = 0 → torpid m' = Some new ∧ up m' = up m))
  ∧ ((group_get f h).1 = None →
     (broker_online_cb f m h).1 = m ∧ (broker_torpid_cb f m h).1 = m).
Proof.
  split; [|split].
  - intros new h0 Hg. unfold broker_online_cb. rewrite Hg.
    pose proof (post_join_leave_frame RefUp new "online" "offline" m h0) as H.
    destruct (post_join_leave RefUp new "online" "offline" m h0)
      as [[rc m1] h1].
    destruct H as ([-> | ->] & Hm & Hu & Ht & _); simpl.
    + pose proof (notify_waitup_frame (set_up (Some new) m1) h1) as Hn.
      destruct (notify_waitup (set_up (Some new) m1) h1) as [m' h'].
      destruct Hn as (Hu' & Ht' & _). simpl in *.
      split; [lia|]. intros _. rewrite Hu', Ht'. auto.
    + rewrite Hm by done. simpl. split; [intros _; repeat split; reflexivity|lia].
  - intros new h0 Hg. unfold broker_torpid_cb. rewrite Hg.
    pose proof (post_join_leave_frame RefTorpid new "torpid" "lively" m h0)
      as H.
    destruct (post_join_leave RefTorpid new "torpid" "lively" m h0)
      as [[rc m1] h1].
    destruct H as ([-> | ->] & Hm & Hu & Ht & _); simpl.
    + split; [lia|]. intros _. simpl. auto.
    + rewrite Hm by done. simpl. split; [intros _; repeat split; reflexivity|lia].
  - intros Hg. unfold broker_online_cb, broker_torpid_cb.
    destruct (group_get f h) as [[new|] h0]; [discriminate|]. auto.
Qed.


Lemma commit_after_post_witness :
  up (broker_online_cb (members "0-2") leader_up4 (flux0 [Some 5])).1
  = up leader_up4.
Proof.
  pose proof (proj1 (commit_after_post (members "0-2") leader_up4
                       (flux0 [Some 5]))
                (idset_range 0 3) (flux0 [Some 5]) eq_refl) as H.
  vm_compute in H. destruct H as [H _]. exact (proj1 (H eq_refl)).
Defined.

(** ** The commit path shared by the online snapshot and force-down *)

Lemma diff_prefixes J L old new :
  [] `prefix_of` diff_events J L old new
  ∧ event_for J (new ∖ old) `prefix_of` diff_events J L old new
  ∧ diff_events J L old new `prefix_of` diff_events J L old new.
Proof.
  split; [apply prefix_nil|]. split; [|done].
  unfold diff_events. by apply prefix_app_r.
Qed.

Lemma post_join_leave_prefix r new J L m h old :
  deref r m = Some old →
  let '(rc, m', h') := post_join_leave r new J L m h in
  (∃ evs, eventlog h' = eventlog h ++ evs
          ∧ evs `prefix_of` diff_events J L old new)
  ∧ (rc = 0 → eventlog h' = eventlog h ++ diff_events J L old new).
Proof.
  intros Hd. pose proof (post_join_leave_cases r new J L m h old Hd) as H.
  pose proof (diff_prefixes J L old new) as (P0 & P1 & P2).
  destruct (post_join_leave r new J L m h) as [[rc m'] h'].
  destruct H as (_ & _ & _ & _ & _ & _ & [(-> & _ & [E|[E|(E & _)]])|(-> & E & _)]).
  - split; [|lia]. exists []. by rewrite app_nil_r.
  - split; [|lia]. eauto.
  - split; [|lia]. eauto.
  - split; [|done]. eauto.
Qed.

Lemma up_commit_cases new m h old l reqs :
  up m = Some old → lost m = Some l → waitup_requests m = Some reqs →
  let '(rc, m1, h1) := post_join_leave RefUp new "online" "offline" m h in
  responses h1 = responses h ∧
  ((rc = -1 ∧ m1 = m)
   ∨ (rc = 0 ∧
      let '(m', h') := notify_waitup (set_up (Some new) m1) h1 in
      up m' = Some new
      ∧ lost m' = Some ((l ∪ (old ∖ new)) ∖ (new ∖ old))
      ∧ torpid m' = torpid m
      ∧ waitup_requests m' =
          Some (List.filter (stays (idset_count new)) reqs)
      ∧ eventlog h' = eventlog h1
      ∧ responses h' =
          responses h
          ++ map answer
               (List.filter (λ r, negb (stays (idset_count new) r)) reqs))).
Proof.
  intros Hu Hl Hr.
  pose proof (post_join_leave_cases RefUp new "online" "offline" m h old Hu)
    as H.
  destruct (post_join_leave RefUp new "online" "offline" m h) as [[rc m1] h1].
  destruct H as (R & _ & T & W & _ & _ & [(-> & -> & _)|(-> & _ & [[? _]|(_ & l0 & Hl0 & ->)])]);
    [by eauto| done |].
  split; [done|]. right. split; [done|].
  rewrite Hl in Hl0. injection Hl0 as <-.
  pose proof (commit_up_spec new
                (set_lost (Some ((l ∪ (old ∖ new)) ∖ (new ∖ old))) m) h1 reqs Hr)
    as Hc.
  destruct (notify_waitup _ h1) as [m' h'].
  destruct Hc as (? & ? & ? & ? & ? & ?). simpl in *. rewrite <- R.
  repeat split; auto.
Qed.


(** ** C6: join before leave *)

Lemma event_for_empty name (ids : idset) :
  event_for name ids =
    if decide (ids = ∅) then []
    else [Event name [("idset", idset_encode ids)]].
Proof.
  unfold event_for.
  destruct (decide (ids = ∅)) as [->|Hne].
  - unfold idset_count. by rewrite size_empty.
  - destruct (Z.eqb_spec (idset_count ids) 0) as [Hz|]; [|done].
    exfalso. apply Hne. unfold idset_count in Hz.
    apply leibniz_equiv, size_empty_inv. lia.
Qed.

Lemma post_join_leave_log r new J L m h :
  let '(rc, m', h') := post_join_leave r new J L m h in
  ∃ evs, eventlog h' = eventlog h ++ evs
         ∧ evs `prefix_of` match deref r m with
                           | Some old => diff_events J L old new
                           | None => []
                           end.
Proof.
  destruct (deref r m) as [old|] eqn:Hd.
  - pose proof (post_join_leave_prefix r new J L m h old Hd) as H.
    destruct (post_join_leave r new J L m h) as [[rc m'] h'].
    by destruct H as [H _].
  - unfold post_join_leave. rewrite Hd. simpl.
    exists []. by rewrite app_nil_r.
Qed.

Lemma posted_no_outcomes evs : posted [] evs = evs.
Proof. induction evs as [|e rest IH]; simpl; [done|]. by rewrite IH. Qed.

Lemma posted_nil outs : posted outs [] = [].
Proof. done. Qed.

Lemma reslog_post_pack_posted name ctx h :
  let '(rc, h') := reslog_post_pack name ctx h in
  eventlog h' = eventlog h ++ posted (post_outcomes h) [Event name ctx]
  ∧ post_outcomes h' = drop 1 (post_outcomes h)
  ∧ ((rc = 0 ∧ posted (post_outcomes h) [Event name ctx] = [Event name ctx])
     ∨ (rc = -1 ∧ posted (post_outcomes h) [Event name ctx] = [])).
Proof.
  unfold reslog_post_pack.
  destruct (post_outcomes h) as [|[e|] rest] eqn:Ho; simpl.
  - auto.
  - rewrite app_nil_r. auto.
  - auto.
Qed.

Lemma post_event_posted name ids h :
  let '(rc, h') := post_event name ids h in
  eventlog h' = eventlog h ++ posted (post_outcomes h) (event_for name ids)
  ∧ post_outcomes h'
    = drop (length (event_for name ids)) (post_outcomes h)
  ∧ ((rc = 0 ∧ posted (post_outcomes h) (event_for name ids)
               = event_for name ids)
     ∨ (rc = -1 ∧ event_for name ids ≠ []
        ∧ posted (post_outcomes h) (event_for name ids) = [])).
Proof.
  unfold post_event, event_for.
  destruct (idset_count ids =? 0).
  - simpl. rewrite app_nil_r, drop_0. auto.
  - pose proof (reslog_post_pack_posted name [("idset", idset_encode ids)] h)
      as H.
    destruct (reslog_post_pack name [("idset", idset_encode ids)] h)
      as [rc h'].
    destruct H as (E & O & [[-> P]|[-> P]]); simpl length; [by auto|].
    split; [done|]. split; [done|]. right. by auto.
Qed.

Lemma posted_app_all outs a b :
  posted outs a = a →
  posted outs (a ++ b) = a ++ posted (drop (length a) outs) b.
Proof.
  revert outs. induction a as [|e a IH]; intros outs H; simpl.
  - by rewrite drop_0.
  - simpl in H. destruct outs as [|[x|] outs']; simpl.
    + rewrite posted_no_outcomes. f_equal. by rewrite posted_no_outcomes.
    + done.
    + injection H as H. f_equal. by apply IH.
Qed.

Lemma posted_app_stop outs a b :
  a ≠ [] → posted outs a = [] → posted outs (a ++ b) = [].
Proof.
  destruct a as [|e a]; [done|]. intros _. simpl.
  by destruct outs as [|[x|] outs'].
Qed.

Lemma post_join_leave_posted r new J L m h old :
  deref r m = Some old →
  let '(rc, _, h') := post_join_leave r new J L m h in
  eventlog h'
  = eventlog h ++ posted (post_outcomes h) (diff_events J L old new)
  ∧ (rc = 0 ∨ rc = -1)
  ∧ (rc = 0 ↔
     posted (post_outcomes h) (diff_events J L old new)
     = diff_events J L old new
     ∧ (is_up r = true → is_Some (lost m))).
Proof.
  intros Hold. unfold post_join_leave. rewrite Hold.
  unfold idset_difference, idset_subtract, idset_add, diff_events.
  pose proof (post_event_posted J (new ∖ old) h) as H1.
  destruct (post_event J (new ∖ old) h) as [rc1 h1].
  destruct H1 as (E1 & O1 & [[-> P1]|(-> & N1 & P1)]); simpl.
  2:{ rewrite (posted_app_stop _ _ _ N1 P1). rewrite P1 in E1.
      split; [done|]. split; [by right|]. split; [done|].
      intros [H _]. destruct (event_for J (new ∖ old)); [done|].
      by destruct (event_for L (old ∖ new)). }
  rewrite (posted_app_all _ _ _ P1).
  pose proof (post_event_posted L (old ∖ new) h1) as H2.
  destruct (post_event L (old ∖ new) h1) as [rc2 h2].
  rewrite O1 in H2.
  destruct H2 as (E2 & O2 & [[-> P2]|(-> & N2 & P2)]); simpl.
  2:{ rewrite P2 in *. rewrite E2, E1, P1, !app_nil_r.
      split; [done|]. split; [by right|]. split; [done|].
      intros [H _]. apply (f_equal length) in H.
      rewrite length_app in H.
      destruct (event_for L (old ∖ new)); [done|]. simpl in H. lia. }
  assert (Elog : eventlog h2
                 = eventlog h
                   ++ event_for J (new ∖ old) ++ event_for L (old ∖ new)).
  { rewrite E2, E1, P1, P2. by rewrite app_assoc. }
  rewrite P2. destruct r; simpl.
  - destruct (lost m) as [l|] eqn:Hl; simpl.
    + split; [done|]. split; [by left|]. split; [|done].
      intros _. split; [done|]. by eauto.
    + split; [done|]. split; [by right|]. split; [done|].
      intros [_ H]. destruct (H eq_refl) as [? ?]. done.
  - split; [done|]. split; [by left|]. split; [|done].
    intros _. split; [done|]. done.
Qed.

Lemma group_get_outcomes f h :
  post_outcomes (group_get f h).2 = post_outcomes h.
Proof.
  unfold group_get. destruct f as [e|p]; [done|].
  destruct (unpack_str "members" (Some p)) as [s|]; [|done].
  by destruct (idset_decode s).
Qed.

Lemma posted_all_accepted outs evs :
  (∀ o, o ∈ take (length evs) outs → o = None) → posted outs evs = evs.
Proof.
  revert outs. induction evs as [|e rest IH]; intros outs H; simpl; [done|].
  destruct outs as [|[x|] outs'].
  - by rewrite posted_no_outcomes.
  - by specialize (H (Some x) (list_elem_of_here _ _)).
  - f_equal. apply IH. intros o Ho. apply H. simpl.
    by apply list_elem_of_further.
Qed.

Lemma handle_posted i m h :
  eventlog (handle i m h).2
  = eventlog h ++ posted (post_outcomes h) (asked_diff i m h).
Proof.
  destruct i as [f|f|msg|msg]; simpl.
  - unfold broker_online_cb.
    pose proof (group_get_frame f h) as Hg.
    pose proof (group_get_outcomes f h) as Ho.
    destruct (group_get f h) as [[new|] h0]; simpl in *; destruct Hg as [Eg _].
    2:{ by rewrite app_nil_r. }
    destruct (up m) as [old|] eqn:Hu.
    2:{ unfold post_join_leave. simpl. rewrite Hu. simpl.
        by rewrite app_nil_r. }
    pose proof (post_join_leave_posted RefUp new "online" "offline" m h0 old Hu)
      as H.
    destruct (post_join_leave RefUp new "online" "offline" m h0)
      as [[rc m1] h1].
    destruct H as (E & _ & _). rewrite Ho, Eg in E.
    destruct (rc <? 0); simpl; [done|].
    pose proof (notify_waitup_frame (set_up (Some new) m1) h1) as Hn.
    destruct (notify_waitup (set_up (Some new) m1) h1) as [m' h'].
    destruct Hn as (_ & _ & _ & _ & _ & En). simpl. by rewrite En.
  - unfold broker_torpid_cb.
    pose proof (group_get_frame f h) as Hg.
    pose proof (group_get_outcomes f h) as Ho.
    destruct (group_get f h) as [[new|] h0]; simpl in *; destruct Hg as [Eg _].
    2:{ by rewrite app_nil_r. }
    destruct (torpid m) as [old|] eqn:Ht.
    2:{ unfold post_join_leave. simpl. rewrite Ht. simpl.
        by rewrite app_nil_r. }
    pose proof (post_join_leave_posted RefTorpid new "torpid" "lively" m h0 old
                  Ht) as H.
    destruct (post_join_leave RefTorpid new "torpid" "lively" m h0)
      as [[rc m1] h1].
    destruct H as (E & _ & _). rewrite Ho, Eg in E.
    by destruct (rc <? 0).
  - rewrite app_nil_r. unfold waitup_cb. repeat case_match; reflexivity.
  - unfold force_down_cb, idset_copy, idset_decode_subtract.
    destruct (unpack_str "ranks" (msg_payload msg)) as [ranks|]; simpl.
    2:{ by rewrite app_nil_r. }
    destruct (up m) as [old|] eqn:Hu; simpl.
    2:{ by rewrite app_nil_r. }
    destruct (idset_decode ranks) as [b|]; simpl.
    2:{ by rewrite app_nil_r. }
    pose proof (post_join_leave_posted RefUp (old ∖ b) "online" "offline" m h
                  old Hu) as H.
    destruct (post_join_leave RefUp (old ∖ b) "online" "offline" m h)
      as [[rc m1] h1].
    destruct H as (E & _ & _).
    destruct (rc <? 0); simpl; [done|].
    pose proof (notify_waitup_frame (set_up (Some (old ∖ b)) m1) h1) as Hn.
    destruct (notify_waitup (set_up (Some (old ∖ b)) m1) h1) as [m' h'].
    destruct Hn as (_ & _ & _ & _ & _ & En). simpl. by rewrite En.
Qed.

(** C6: one diff asks for the join event [{idset: encode(join)}] first
    and the leave event [{idset: encode(leave)}] second, each only when
    its idset is not empty.  [post_join_leave] posts exactly these, in
    this order, up to the first post the log refuses: all of them when
    the log refuses none, and it returns 0 exactly when all were posted
    (and, for a diff of [up], the lost set is there).  Every handler
    posts exactly the same for the diff it is asked for: the two
    snapshot handlers and the force-down path. *)
Theorem join_posted_before_leave (i : input) (m : monitor) (h : flux) :
  (∀ J L (old new : idset),
     diff_events J L old new =
       (if decide (new ∖ old = ∅) then []
        else [Event J [("idset", idset_encode (new ∖ old))]])
       ++ (if decide (old ∖ new = ∅) then []
           else [Event L [("idset", idset_encode (old ∖ new))]]))
  ∧ (∀ outcomes evs,
       (∀ o, o ∈ take (length evs) outcomes → o = None) →
       posted outcomes evs = evs)
  ∧ (∀ r new J L old, deref r m = Some old →
       let '(rc, _, h') := post_join_leave r new J L m h in
       eventlog h'
       = eventlog h ++ posted (post_outcomes h) (diff_events J L old new)
       ∧ (rc = 0 ↔
          posted (post_outcomes h) (diff_events J L old new)
          = diff_events J L old new
          ∧ (is_up r = true → is_Some (lost m))))
  ∧ eventlog (handle i m h).2
    = eventlog h ++ posted (post_outcomes h) (asked_diff i m h).
Proof.
  split; [|split; [|split]].
  - intros. unfold diff_events. by rewrite !event_for_empty.
  - apply posted_all_accepted.
  - intros r new J L old Hd.
    pose proof (post_join_leave_posted r new J L m h old Hd) as H.
    destruct (post_join_leave r new J L m h) as [[rc m'] h'].
    destruct H as (E & _ & R). by split.
  - apply handle_posted.
Qed.

Lemma join_posted_before_leave_witness :
  eventlog (post_join_leave RefUp {[ 0%nat; 4%nat ]} "online" "offline"
              leader_up4 (flux0 [])).2
  = [Event "online" [("idset", "4")]; Event "offline" [("idset", "1-3")]].
Proof.
  pose proof (proj1 (proj2 (proj2 (join_posted_before_leave
                                     (WaitupRequest bad_waitup) leader_up4
                                     (flux0 []))))
                RefUp {[ 0%nat; 4%nat ]} "online" "offline"
                (idset_range 0 4) eq_refl) as H.
  destruct (post_join_leave RefUp {[ 0%nat; 4%nat ]} "online" "offline"
              leader_up4 (flux0 [])) as [[rc m'] h'].
  simpl. rewrite (proj1 H). vm_compute. reflexivity.
Defined.


(** ** C7: the lost set *)

Lemma post_join_leave_lost r new J L m h old l :
  deref r m = Some old → lost m = Some l →
  let '(rc, m1, _) := post_join_leave r new J L m h in
  lost m1 = if is_up r && (rc =? 0)
            then Some ((l ∪ (old ∖ new)) ∖ (new ∖ old)) else Some l.
Proof.
  intros Hd Hl.
  pose proof (post_join_leave_cases r new J L m h old Hd) as H.
  destruct (post_join_leave r new J L m h) as [[rc m1] h1].
  destruct H as (_ & _ & _ & _ & _ & _ & [(-> & -> & _)|(-> & _ & [[-> ->]|(-> & l0 & Hl0 & ->)])]);
    simpl; try by rewrite ?andb_false_r.
  congruence.
Qed.

Lemma post_join_leave_torpid new J L m h :
  (post_join_leave RefTorpid new J L m h).1.2 = m.
Proof.
  destruct (deref RefTorpid m) as [old|] eqn:Hd.
  - pose proof (post_join_leave_cases RefTorpid new J L m h old Hd) as H.
    destruct (post_join_leave RefTorpid new J L m h) as [[rc m1] h1].
    by destruct H as (_ & _ & _ & _ & _ & _ & [(_ & -> & _)|(_ & _ & [[_ ->]|(? & _)])]).
  - unfold post_join_leave. by rewrite Hd.
Qed.

(** How one handler run moves [up] and [lost] on a leader. *)
Lemma handle_up_lost i m h l u :
  lost m = Some l → up m = Some u →
  let m' := (handle i m h).1 in
  (lost m' = Some l ∧ up m' = Some u)
  ∨ (∃ new, up m' = Some new
            ∧ lost m' = Some ((l ∪ (u ∖ new)) ∖ (new ∖ u))
            ∧ match i with
              | OnlineSnapshot _ | ForceDownRequest _ => True
              | _ => False
              end).
Proof.
  intros Hl Hu. destruct i as [f|f|msg|msg]; simpl.
  - unfold broker_online_cb.
    destruct (group_get f h) as [[new|] h0]; simpl; [|by left].
    pose proof (post_join_leave_cases RefUp new "online" "offline" m h0 u Hu)
      as H.
    destruct (post_join_leave RefUp new "online" "offline" m h0)
      as [[rc m1] h1].
    destruct H as (_ & _ & _ & _ & _ & _ & [(-> & -> & _)|(-> & _ & [[? _]|(_ & l0 & Hl0 & ->)])]);
      simpl; [by left|done|].
    pose proof (notify_waitup_frame (set_up (Some new) (set_lost
                  (Some ((l0 ∪ (u ∖ new)) ∖ (new ∖ u))) m)) h1) as Hn.
    destruct (notify_waitup _ h1) as [m' h'].
    destruct Hn as (Hu' & _ & Hl' & _). simpl in *.
    right. exists new. rewrite Hu', Hl'. split; [done|]. split; [|done].
    congruence.
  - unfold broker_torpid_cb.
    destruct (group_get f h) as [[new|] h0]; simpl; [|by left].
    pose proof (post_join_leave_torpid new "torpid" "lively" m h0) as H.
    destruct (post_join_leave RefTorpid new "torpid" "lively" m h0)
      as [[rc m1] h1].
    simpl in H. subst m1. left. destruct (rc <? 0); simpl; auto.
  - left. unfold waitup_cb. repeat case_match; simpl; auto.
  - unfold force_down_cb, idset_copy, idset_decode_subtract. rewrite Hu.
    destruct (unpack_str "ranks" (msg_payload msg)) as [ranks|]; simpl;
      [|by left].
    destruct (idset_decode ranks) as [b|]; simpl; [|by left].
    pose proof (post_join_leave_cases RefUp (u ∖ b) "online" "offline" m h u Hu)
      as H.
    destruct (post_join_leave RefUp (u ∖ b) "online" "offline" m h)
      as [[rc m1] h1].
    destruct H as (_ & _ & _ & _ & _ & _ & [(-> & -> & _)|(-> & _ & [[? _]|(_ & l0 & Hl0 & ->)])]);
      simpl; [by left|done|].
    pose proof (notify_waitup_frame (set_up (Some (u ∖ b)) (set_lost
                  (Some ((l0 ∪ (u ∖ (u ∖ b))) ∖ (u ∖ b ∖ u))) m)) h1) as Hn.
    destruct (notify_waitup _ h1) as [m' h'].
    destruct Hn as (Hu' & _ & Hl' & _). simpl in *.
    right. exists (u ∖ b). rewrite Hu', Hl'. split; [done|]. split; [|done].
    congruence.
Qed.

(** C7: [post_join_leave] changes [lost] only when the old set is
    [monitor->up] (and the call succeeds), to [(lost ∪ leave) \ join];
    torpid diffs and waitup requests never change it.  Over any handler
    run, [lost] moves by the transition of [up]: a rank enters [lost]
    only if it was in [up] and is no longer, and leaves [lost] only if it
    was not in [up] and now is. *)
Theorem lost_follows_up (i : input) (m : monitor) (h : flux) (l u : idset) :
  lost m = Some l → up m = Some u →
  (∀ r new J L old h0, deref r m = Some old →
     let '(rc, m1, _) := post_join_leave r new J L m h0 in
     lost m1 = if is_up r && (rc =? 0)
               then Some ((l ∪ (old ∖ new)) ∖ (new ∖ old)) else Some l)
  ∧ match i with
    | TorpidSnapshot _ | WaitupRequest _ => lost (handle i m h).1 = Some l
    | _ => True
    end
  ∧ (∃ l' u', lost (handle i m h).1 = Some l' ∧ up (handle i m h).1 = Some u'
      ∧ l' = (l ∪ (u ∖ u')) ∖ (u' ∖ u)
      ∧ (∀ id, (id ∈ l' → id ∉ l → id ∈ u ∧ id ∉ u')
               ∧ (id ∈ l → id ∉ l' → (id ∉ u) ∧ id ∈ u'))).
Proof.
  intros Hl Hu. pose proof (handle_up_lost i m h l u Hl Hu) as H.
  split; [|split].
  - intros r new J L old h0 Hd.
    apply (post_join_leave_lost r new J L m h0 old l Hd Hl).
  - destruct i; try done; simpl in *;
      by destruct H as [[? _]|(? & _ & _ & ?)].
  - simpl in H. destruct H as [[-> ->]|(new & -> & -> & _)].
    + exists l, u. repeat split; try done; set_solver.
    + exists ((l ∪ (u ∖ new)) ∖ (new ∖ u)), new.
      repeat split; try done; set_solver.
Qed.


Lemma lost_follows_up_witness :
  ∃ l' u',
    lost (handle (OnlineSnapshot (members "0-2")) leader_up4 (flux0 [])).1
      = Some l'
    ∧ up (handle (OnlineSnapshot (members "0-2")) leader_up4 (flux0 [])).1
      = Some u'
    ∧ l' = (∅ ∪ (idset_range 0 4 ∖ u')) ∖ (u' ∖ idset_range 0 4)
    ∧ (∀ id, (id ∈ l' → id ∉ (∅ : idset) → id ∈ idset_range 0 4 ∧ id ∉ u')
             ∧ (id ∈ (∅ : idset) → id ∉ l' → (id ∉ idset_range 0 4) ∧ id ∈ u')).
Proof.
  exact (proj2 (proj2 (lost_follows_up (OnlineSnapshot (members "0-2"))
                         leader_up4 (flux0 []) ∅ (idset_range 0 4)
                         eq_refl eq_refl))).
Defined.

(** ** C5: waitup *)

Lemma answered_and_removed count (reqs : list flux_msg) r :
  r ∈ reqs → wants r = Some count →
  Respond r ∈ map answer (List.filter (λ r, negb (stays count r)) reqs)
  ∧ r ∉ List.filter (stays count) reqs.
Proof.
  intros Hin Hw.
  assert (Hs : stays count r = false).
  { unfold stays. rewrite Hw. by rewrite Z.eqb_refl. }
  split.
  - replace (Respond r) with (answer r) by (unfold answer; by rewrite Hw).
    apply list_elem_of_In, in_map, filter_In.
    split; [by apply list_elem_of_In|]. by rewrite Hs.
  - intros Hf. apply list_elem_of_In, filter_In in Hf. destruct Hf as [_ Hf].
    congruence.
Qed.

(** C5: on the leader a waitup request with [up] in [0, size] is answered
    with success at once when the count of [up] equals it, and else put
    at the end of the deferred list without an answer; an [up] out of
    range is answered at once with an error.  Whenever a handler run
    changes the [up] set, every deferred request whose [up] equals the
    new count has been answered with success and is off the list (and
    the others stay, unanswered). *)
Theorem waitup_deferred_until_count (i : input) (msg : flux_msg) (want : Z)
    (m : monitor) (h : flux) (reqs : list flux_msg) (u l : idset) :
  rank m = 0%nat → up m = Some u → lost m = Some l →
  waitup_requests m = Some reqs → wants msg = Some want →
  (0 ≤ want ≤ size m → idset_count u = want →
     waitup_cb msg m h = (m, flux_respond msg h))
  ∧ (0 ≤ want ≤ size m → idset_count u ≠ want →
     waitup_cb msg m h = (set_waitup_requests (Some (reqs ++ [msg])) m, h))
  ∧ (¬ (0 ≤ want ≤ size m) →
     waitup_cb msg m h =
       (m, flux_respond_error msg EPROTO (Some "up value is out of range")
             (set_errno EPROTO h)))
  ∧ (up (handle i m h).1 ≠ up m →
     ∃ u' tail,
       up (handle i m h).1 = Some u'
       ∧ waitup_requests (handle i m h).1 =
           Some (List.filter (stays (idset_count u')) reqs)
       ∧ responses (handle i m h).2 =
           responses h
           ++ map answer
                (List.filter (λ r, negb (stays (idset_count u') r)) reqs)
           ++ tail
       ∧ (∀ r, r ∈ reqs → wants r = Some (idset_count u') →
               Respond r ∈ responses (handle i m h).2
               ∧ r ∉ List.filter (stays (idset_count u')) reqs)).
Proof.
  intros Hrank Hu Hl Hr Hw. unfold wants in Hw.
  split; [|split; [|split]].
  - intros Hrange Hc. unfold waitup_cb, up_count. rewrite Hw, Hrank, Hu, Hc.
    simpl. destruct (Z.gtb_spec want (size m)); [lia|].
    destruct (Z.ltb_spec want 0); [lia|]. simpl. by rewrite Z.eqb_refl.
  - intros Hrange Hc. unfold waitup_cb, up_count. rewrite Hw, Hrank, Hu, Hr.
    simpl. destruct (Z.gtb_spec want (size m)); [lia|].
    destruct (Z.ltb_spec want 0); [lia|]. simpl.
    by destruct (Z.eqb_spec (idset_count u) want).
  - intros Hrange. unfold waitup_cb. rewrite Hw, Hrank. simpl.
    destruct (Z.gtb_spec want (size m)); [done|].
    destruct (Z.ltb_spec want 0); [done|]. lia.
  - intros Hch.
    assert (Hfin : ∀ u' tail,
      up (handle i m h).1 = Some u' →
      waitup_requests (handle i m h).1 =
        Some (List.filter (stays (idset_count u')) reqs) →
      responses (handle i m h).2 =
        responses h
        ++ map answer
             (List.filter (λ r, negb (stays (idset_count u') r)) reqs)
        ++ tail →
      ∃ u' tail,
       up (handle i m h).1 = Some u'
       ∧ waitup_requests (handle i m h).1 =
           Some (List.filter (stays (idset_count u')) reqs)
       ∧ responses (handle i m h).2 =
           responses h
           ++ map answer
                (List.filter (λ r, negb (stays (idset_count u') r)) reqs)
           ++ tail
       ∧ (∀ r, r ∈ reqs → wants r = Some (idset_count u') →
               Respond r ∈ responses (handle i m h).2
               ∧ r ∉ List.filter (stays (idset_count u')) reqs)).
    { intros u' tail H1 H2 H3. exists u', tail. repeat split; try done.
      - rewrite H3.
        destruct (answered_and_removed (idset_count u') reqs r) as [Ha _];
          try done.
        apply elem_of_app. right. apply elem_of_app. by left.
      - by destruct (answered_and_removed (idset_count u') reqs r). }
    destruct i as [f|f|rq|rq]; simpl in *.
    + unfold broker_online_cb in *.
      pose proof (group_get_frame f h) as Hg.
      destruct (group_get f h) as [[new|] h0]; simpl in *; [|done].
      destruct Hg as [_ Rg].
      pose proof (up_commit_cases new m h0 u l reqs Hu Hl Hr) as H.
      destruct (post_join_leave RefUp new "online" "offline" m h0)
        as [[rc m1] h1].
      destruct H as (R1 & [(-> & ->)|(-> & H)]); simpl in *; [done|].
      destruct (notify_waitup (set_up (Some new) m1) h1) as [m' h'].
      destruct H as (Hu' & _ & _ & Hq & _ & Hrs). simpl in *.
      apply (Hfin new []); try done. by rewrite app_nil_r, Hrs, Rg.
    + unfold broker_torpid_cb in *.
      destruct (group_get f h) as [[new|] h0]; simpl in *; [|done].
      pose proof (post_join_leave_torpid new "torpid" "lively" m h0) as H.
      destruct (post_join_leave RefTorpid new "torpid" "lively" m h0)
        as [[rc m1] h1].
      simpl in H. subst m1. destruct (rc <? 0); simpl in *; done.
    + exfalso. apply Hch. unfold waitup_cb. repeat case_match; done.
    + unfold force_down_cb, idset_copy, idset_decode_subtract in *.
      rewrite Hu in *.
      destruct (unpack_str "ranks" (msg_payload rq)) as [ranks|];
        simpl in *; [|by rewrite Hu in Hch].
      destruct (idset_decode ranks) as [b|]; simpl in *;
        [|by rewrite Hu in Hch].
      pose proof (up_commit_cases (u ∖ b) m h u l reqs Hu Hl Hr) as H.
      destruct (post_join_leave RefUp (u ∖ b) "online" "offline" m h)
        as [[rc m1] h1].
      destruct H as (R1 & [(-> & ->)|(-> & H)]); simpl in *;
        [by rewrite Hu in Hch|].
      destruct (notify_waitup (set_up (Some (u ∖ b)) m1) h1) as [m' h'].
      destruct H as (Hu' & _ & _ & Hq & _ & Hrs). simpl in *.
      apply (Hfin (u ∖ b) [Respond rq]); try done.
      by rewrite Hrs, <- app_assoc.
Qed.


Lemma waitup_deferred_until_count_witness :
  ∃ u' tail,
    up (handle (OnlineSnapshot (members "0-2")) leader_waiting (flux0 [])).1
      = Some u'
    ∧ waitup_requests
        (handle (OnlineSnapshot (members "0-2")) leader_waiting (flux0 [])).1
      = Some (List.filter (stays (idset_count u')) [waitup_request 1 3])
    ∧ responses
        (handle (OnlineSnapshot (members "0-2")) leader_waiting (flux0 [])).2
      = responses (flux0 [])
        ++ map answer
             (List.filter (λ r, negb (stays (idset_count u') r))
                [waitup_request 1 3])
        ++ tail
    ∧ (∀ r, r ∈ [waitup_request 1 3] → wants r = Some (idset_count u') →
         Respond r
           ∈ responses
               (handle (OnlineSnapshot (members "0-2")) leader_waiting
                  (flux0 [])).2
         ∧ r ∉ List.filter (stays (idset_count u')) [waitup_request 1 3]).
Proof.
  refine (proj2 (proj2 (proj2
            (waitup_deferred_until_count (OnlineSnapshot (members "0-2"))
               (waitup_request 2 3) 3 leader_waiting (flux0 [])
               [waitup_request 1 3] {[ 0%nat; 1%nat ]} ∅
               eq_refl eq_refl eq_refl eq_refl eq_refl))) _).
  vm_compute. discriminate.
Defined.

(** ** C1: leader-only RPCs on a follower *)

(** C1, as the code has it: on a follower (rank != 0) a
    [resource.monitor-waitup] request whose payload unpacks as [{up:int}]
    is answered at once with EPROTO and the message "this RPC only works
    on rank 0"; one whose payload does not unpack is answered with EPROTO
    and no message.  Either way the monitor is left as it was. *)
Theorem waitup_on_follower (msg : flux_msg) (m : monitor) (h : flux) :
  rank m ≠ 0%nat →
  (∀ want, wants msg = Some want →
     waitup_cb msg m h =
       (m, flux_respond_error msg EPROTO (Some rank0_only) (set_errno EPROTO h)))
  ∧ (wants msg = None →
     waitup_cb msg m h =
       (m, flux_respond_error msg EPROTO None (set_errno EPROTO h))).
Proof.
  intros Hr. unfold wants, waitup_cb. split.
  - intros want ->. destruct (Nat.eqb_spec (rank m) 0); [done|]. reflexivity.
  - intros ->. reflexivity.
Qed.

Lemma waitup_on_follower_witness :
  waitup_cb (waitup_request 1 2) follower (flux0 []) =
    (follower,
     flux_respond_error (waitup_request 1 2) EPROTO (Some rank0_only)
       (set_errno EPROTO (flux0 []))).
Proof.
  refine (proj1 (waitup_on_follower (waitup_request 1 2) follower
                   (flux0 []) _) 2 _).
  - vm_compute. discriminate.
  - vm_compute. reflexivity.
Defined.

(** C1 as stated fails twice on the follower [monitor_create] builds:
    a waitup request without an integer [up] gets no message, and a
    force-down request is not checked against the rank at all: it fails
    in [idset_copy] of the follower's NULL [up] with EINVAL and no
    message. *)
Lemma follower_rpc_counterexample :
  (monitor_create (Ctx 1 4 (Some "node[0-3]") None) 0 (Config false false)
     (flux0 [])).1.1 = Some follower
  ∧ rank follower ≠ 0%nat
  ∧ waitup_cb bad_waitup follower (flux0 []) =
      (follower,
       flux_respond_error bad_waitup EPROTO None (set_errno EPROTO (flux0 [])))
  ∧ force_down_cb (force_down_request 8 "0") follower (flux0 []) =
      (follower,
       flux_respond_error (force_down_request 8 "0") EINVAL None
         (set_errno EINVAL (flux0 [])))
  ∧ ¬ rejects_on_follower waitup_cb
  ∧ ¬ rejects_on_follower force_down_cb.
Proof.
  split; [reflexivity|]. split; [discriminate|].
  split; [reflexivity|]. split; [reflexivity|]. split.
  - intros H. specialize (H bad_waitup follower (flux0 [])).
    destruct H as [_ H]; [discriminate|]. vm_compute in H. discriminate.
  - intros H. specialize (H (force_down_request 8 "0") follower (flux0 [])).
    destruct H as [_ H]; [discriminate|]. vm_compute in H. discriminate.
Qed.

(** ** Sessions *)

(** Cold start with the full quorum joining, the loss of rank 3, and its
    return. *)
Example session_join_loss_rejoin :
  session [OnlineSnapshot (members "0-3")]
  = ([restart4; Event "online" [("idset", "0-3")]], [], Some "")
  ∧ session [OnlineSnapshot (members "0-3"); OnlineSnapshot (members "0-2")]
    = ([restart4; Event "online" [("idset", "0-3")];
        Event "offline" [("idset", "3")]], [], Some "3")
  ∧ session [OnlineSnapshot (members "0-3"); OnlineSnapshot (members "0-2");
             OnlineSnapshot (members "0-3")]
    = ([restart4; Event "online" [("idset", "0-3")];
        Event "offline" [("idset", "3")]; Event "online" [("idset", "3")]],
       [], Some "").
Proof. repeat split; vm_compute; reflexivity. Qed.

(** Forcing rank 1 down while all four ranks are up. *)
Example session_force_down :
  session [OnlineSnapshot (members "0-3");
           ForceDownRequest (force_down_request 9 "1")]
  = ([restart4; Event "online" [("idset", "0-3")];
      Event "offline" [("idset", "1")]], [9%nat], Some "1").
Proof. vm_compute. reflexivity. Qed.

(** A request for three ranks that arrives while two are up is answered
    by the snapshot that brings the third. *)
Example session_waitup :
  session [OnlineSnapshot (members "0-1"); WaitupRequest (waitup_request 1 3)]
  = ([restart4; Event "online" [("idset", "0-1")]], [], Some "")
  ∧ session [OnlineSnapshot (members "0-1"); WaitupRequest (waitup_request 1 3);
             OnlineSnapshot (members "0-2")]
    = ([restart4; Event "online" [("idset", "0-1")];
        Event "online" [("idset", "2")]], [1%nat], Some "").
Proof. split; vm_compute; reflexivity. Qed.

(** ** The cached down set *)

Lemma down_loop_spec u :
  ∀ ids d x,
    x ∈ down_loop u ids d ↔
      (x ∈ ids ∧ test_in u x = false) ∨ ((x ∉ ids) ∧ x ∈ d).
Proof.
  induction ids as [|id rest IH]; intros d x; simpl.
  - rewrite elem_of_nil. tauto.
  - rewrite IH, elem_of_cons.
    destruct (decide (x ∈ rest)) as [Hr|Hr]; [tauto|].
    destruct (decide (x = id)) as [->|Hne].
    + destruct (test_in u id) eqn:Ht.
      * rewrite elem_of_difference, elem_of_singleton. split; [tauto|].
        intros [[_ ?]|[? _]]; [done|tauto].
      * rewrite elem_of_union, elem_of_singleton. tauto.
    + destruct (test_in u id) eqn:Ht.
      * rewrite elem_of_difference, elem_of_singleton. tauto.
      * rewrite elem_of_union, elem_of_singleton. tauto.
Qed.

Lemma test_in_member u id : test_in u id = false ↔ ¬ member id u.
Proof.
  destruct u as [x|]; simpl; [|tauto].
  unfold idset_test. by rewrite bool_decide_eq_false.
Qed.

Lemma idset_count_range n : idset_count (idset_range 0 n) = Z.of_nat n.
Proof.
  unfold idset_count, idset_range.
  rewrite size_list_to_set by apply NoDup_seq.
  by rewrite length_seq.
Qed.

Lemma elem_of_idset_range id lo n :
  id ∈ idset_range lo n ↔ (lo ≤ id < lo + n)%nat.
Proof. unfold idset_range. rewrite elem_of_list_to_set, elem_of_seq. lia. Qed.

(** X1: [monitor_get_down] returns the ranks below [size] that are not
    up, whatever it had cached for them: the result is disjoint from
    [up], it stays within [0, size), asking again without a change of
    [up] gives the same set, and when every rank that is up is below
    [size] the counts of [up] and [down] add up to [size].  The loop
    computes what the closed form [monitor_get_down] gives. *)
Theorem down_is_complement_of_up (m : monitor) :
  0 ≤ size m < 2 ^ 31 → cached_down_ok m →
  ∃ d, monitor_get_down_loop m = (Some d, set_down (Some d) m)
    ∧ (∀ id, id ∈ d ↔ Z.of_nat id < size m ∧ ¬ member id (up m))
    ∧ cached_down_ok (set_down (Some d) m)
    ∧ monitor_get_down_loop (set_down (Some d) m)
        = (Some d, set_down (Some d) m)
    ∧ (∀ u, up m = Some u → (∀ id, id ∈ u → Z.of_nat id < size m) →
         idset_count u + idset_count d = size m)
    ∧ monitor_get_down m = (Some d, set_down (Some d) m).
Proof.
  intros Hs Hc.
  assert (Hmod : size m mod 2 ^ 32 = size m) by (apply Z.mod_small; lia).
  assert (Hseq : ∀ x, x ∈ seq 0 (Z.to_nat (size m)) ↔ Z.of_nat x < size m).
  { intros x. rewrite elem_of_seq. lia. }
  set (d0 := match down m with Some d => d | None => ∅ end).
  assert (Hd0 : ∀ x, x ∈ d0 → Z.of_nat x < size m).
  { unfold d0, cached_down_ok in *. destruct (down m); [done|].
    intros x Hx. by apply elem_of_empty in Hx. }
  set (d := down_loop (up m) (seq 0 (Z.to_nat (size m))) d0).
  assert (Hmem : ∀ id, id ∈ d ↔ Z.of_nat id < size m ∧ ¬ member id (up m)).
  { intros id. unfold d. rewrite down_loop_spec, Hseq, test_in_member.
    split; [|tauto]. intros [?|[Hn Hx]]; [done|]. by apply Hd0 in Hx. }
  exists d. split.
  { unfold monitor_get_down_loop. rewrite Hmod. done. }
  split; [done|]. split.
  { unfold cached_down_ok. simpl. intros id Hid. apply Hmem in Hid. tauto. }
  split.
  { unfold monitor_get_down_loop. simpl. rewrite Hmod.
    assert (Hsame : down_loop (up m) (seq 0 (Z.to_nat (size m))) d = d).
    { apply set_eq. intros x.
      rewrite down_loop_spec, Hseq, test_in_member, Hmem. tauto. }
    rewrite Hsame. done. }
  split.
  { intros u Hu Hin. rewrite Hu in Hmem. simpl in Hmem.
    assert (Hd : d = idset_range 0 (Z.to_nat (size m)) ∖ u).
    { apply set_eq. intros x.
      rewrite Hmem, elem_of_difference, elem_of_idset_range. split.
      - intros [? ?]. split; [lia|done].
      - intros [? ?]. split; [lia|done]. }
    assert (Hsub : u ⊆ idset_range 0 (Z.to_nat (size m))).
    { intros x Hx. apply elem_of_idset_range. specialize (Hin x Hx). lia. }
    pose proof (size_difference _ _ Hsub) as Hsz.
    pose proof (subseteq_size _ _ Hsub) as Hle.
    pose proof (idset_count_range (Z.to_nat (size m))) as Hr.
    unfold idset_count in *. rewrite Hd. lia. }
  unfold monitor_get_down. destruct (up m) as [u|] eqn:Hu; simpl in Hmem.
  - assert (Hd : idset_range 0 (Z.to_nat (size m)) ∖ u = d).
    { apply set_eq. intros x.
      rewrite Hmem, elem_of_difference, elem_of_idset_range. split.
      - intros [? ?]. split; [lia|done].
      - intros [? ?]. split; [lia|done]. }
    by rewrite Hd.
  - assert (Hd : idset_range 0 (Z.to_nat (size m)) = d).
    { apply set_eq. intros x. rewrite Hmem, elem_of_idset_range. split.
      - intros ?. split; [lia|tauto].
      - intros [? _]. lia. }
    by rewrite Hd.
Qed.

Lemma down_is_complement_of_up_witness :
  ∃ d, monitor_get_down_loop leader_3of4
       = (Some d, set_down (Some d) leader_3of4)
    ∧ (∀ id, id ∈ d ↔ Z.of_nat id < 4 ∧ ¬ member id (up leader_3of4)).
Proof.
  destruct (down_is_complement_of_up leader_3of4) as (d & H1 & H2 & _).
  - split; by vm_compute.
  - intros id Hid. apply elem_of_singleton in Hid. subst id. by vm_compute.
  - exists d. split; [exact H1|exact H2].
Defined.

(** ** The sessions of a leader *)

Lemma commit_record new m h old l reqs :
  up m = Some old → lost m = Some l → waitup_requests m = Some reqs →
  let '(rc, m1, h1) := post_join_leave RefUp new "online" "offline" m h in
  responses h1 = responses h ∧
  ((rc = -1 ∧ m1 = m
    ∧ (eventlog h1 = eventlog h
       ∨ eventlog h1 = eventlog h ++ event_for "online" (new ∖ old)))
   ∨ (rc = 0
      ∧ eventlog h1 = eventlog h ++ diff_events "online" "offline" old new
      ∧ let '(m', h') := notify_waitup (set_up (Some new) m1) h1 in
        m' = Mon (rank m) (size m) (torpid m) (Some new) (down m)
                 (Some ((l ∪ (old ∖ new)) ∖ (new ∖ old)))
                 (Some (List.filter (stays (idset_count new)) reqs))
        ∧ eventlog h' = eventlog h1
        ∧ responses h' =
            responses h
            ++ map answer
                 (List.filter (λ r, negb (stays (idset_count new) r)) reqs))).
Proof.
  intros Hu Hl Hr.
  pose proof (post_join_leave_cases RefUp new "online" "offline" m h old Hu)
    as H.
  destruct (post_join_leave RefUp new "online" "offline" m h) as [[rc m1] h1].
  destruct H as (R & _ & _ & _ & _ & _ & H). split; [done|].
  destruct H as [(-> & -> & H)|(-> & E & H)].
  - left. split; [done|]. split; [done|].
    destruct H as [?|[?|(_ & _ & Hn)]]; [by left|by right|].
    by rewrite Hl in Hn.
  - right. split; [done|]. split; [done|].
    destruct H as [[? _]|(_ & l0 & Hl0 & ->)]; [done|].
    rewrite Hl in Hl0. injection Hl0 as <-.
    set (m1 := set_lost (Some ((l ∪ (old ∖ new)) ∖ (new ∖ old))) m).
    assert (Hr1 : waitup_requests (set_up (Some new) m1) = Some reqs) by done.
    pose proof (notify_waitup_spec (set_up (Some new) m1) h1 reqs Hr1) as Hn.
    destruct (notify_waitup (set_up (Some new) m1) h1) as [m' h'].
    destruct Hn as (-> & En & Rn). split; [done|]. split; [done|].
    by rewrite Rn, R.
Qed.

Lemma stays_waiting m m' c reqs :
  size m' = size m → up_count m' = c →
  Forall (waiting m) reqs →
  Forall (waiting m') (List.filter (stays c) reqs).
Proof.
  intros Hs Hc HF. apply Forall_forall. intros r Hr.
  apply list_elem_of_In, filter_In in Hr. destruct Hr as [Hr Hst].
  apply list_elem_of_In in Hr.
  rewrite Forall_forall in HF. destruct (HF r Hr) as (w & Hw & Hrange & _).
  exists w. split; [done|]. rewrite Hs. split; [done|].
  unfold stays in Hst. rewrite Hw in Hst.
  apply negb_true_iff, Z.eqb_neq in Hst. by rewrite Hc.
Qed.

Lemma commit_ok m new l old reqs :
  leader_ok m → up m = Some old → lost m = Some l →
  waitup_requests m = Some reqs →
  leader_ok (Mon (rank m) (size m) (torpid m) (Some new) (down m)
               (Some ((l ∪ (old ∖ new)) ∖ (new ∖ old)))
               (Some (List.filter (stays (idset_count new)) reqs))).
Proof.
  intros [Hrk _ Ht _ (reqs0 & Hr0 & HF) Hd] Hu Hl Hr.
  rewrite Hr in Hr0. injection Hr0 as <-.
  split; simpl; eauto.
  - eexists. split; [done|]. by apply (stays_waiting m).
  - intros id Hin Hlost. rewrite Hu, Hl in Hd. simpl in Hd.
    specialize (Hd id). set_solver.
Qed.

Lemma handle_ok i m h : leader_ok m → leader_ok (handle i m h).1.
Proof.
  intros Hok. pose proof Hok as [Hrk [u Hu] [t Ht] [l Hl] (reqs & Hr & HF) Hd].
  destruct i as [f|f|msg|msg]; simpl.
  - unfold broker_online_cb.
    destruct (group_get f h) as [[new|] h0]; [|done].
    pose proof (commit_record new m h0 u l reqs Hu Hl Hr) as H.
    destruct (post_join_leave RefUp new "online" "offline" m h0)
      as [[rc m1] h1].
    destruct H as (_ & [(-> & -> & _)|(-> & _ & H)]); simpl; [done|].
    destruct (notify_waitup (set_up (Some new) m1) h1) as [m' h'].
    destruct H as (-> & _). simpl. by apply commit_ok.
  - unfold broker_torpid_cb.
    destruct (group_get f h) as [[new|] h0]; [|done].
    pose proof (post_join_leave_torpid new "torpid" "lively" m h0) as H.
    pose proof (post_join_leave_frame RefTorpid new "torpid" "lively" m h0)
      as HF2.
    destruct (post_join_leave RefTorpid new "torpid" "lively" m h0)
      as [[rc m1] h1].
    simpl in H. subst m1. destruct HF2 as ([-> | ->] & _); simpl; [|done].
    split; simpl; eauto.
  - unfold waitup_cb.
    destruct (unpack_int "up" (msg_payload msg)) as [want|] eqn:Hw; [|done].
    rewrite Hrk. simpl.
    destruct (_ || _) eqn:Hrange; [done|].
    destruct (negb (up_count m =? want)) eqn:Hc; [|done].
    rewrite Hr. simpl. split; simpl; eauto.
    eexists. split; [done|]. apply Forall_app. split; [done|].
    apply Forall_singleton. exists want. split; [done|].
    apply orb_false_iff in Hrange. destruct Hrange as [H1 H2].
    apply negb_true_iff, Z.eqb_neq in Hc.
    rewrite Z.gtb_ltb in H1. apply Z.ltb_ge in H1. apply Z.ltb_ge in H2.
    simpl. split; [lia|]. unfold up_count in *. simpl. congruence.
  - unfold force_down_cb.
    destruct (unpack_str "ranks" (msg_payload msg)) as [ranks|]; [|done].
    rewrite Hu. simpl. unfold idset_decode_subtract.
    destruct (idset_decode ranks) as [b|]; [|done].
    pose proof (commit_record (u ∖ b) m h u l reqs Hu Hl Hr) as H.
    destruct (post_join_leave RefUp (u ∖ b) "online" "offline" m h)
      as [[rc m1] h1].
    destruct H as (_ & [(-> & -> & _)|(-> & _ & H)]); simpl; [done|].
    destruct (notify_waitup (set_up (Some (u ∖ b)) m1) h1) as [m' h'].
    destruct H as (-> & _). simpl. by apply commit_ok.
Qed.

Lemma run_ok ins : ∀ m h, leader_ok m → leader_ok (run ins m h).1.
Proof.
  induction ins as [|i rest IH]; intros m h Hok; simpl; [done|].
  pose proof (handle_ok i m h Hok) as H.
  destruct (handle i m h) as [m' h']. by apply IH.
Qed.

Lemma monitor_create_ok c inv cfg h m groups h1 :
  monitor_create c inv cfg h = (Some m, groups, h1) → ctx_rank c = 0%nat →
  leader_ok m.
Proof.
  unfold monitor_create. intros H Hrk. rewrite Hrk in H. simpl in H.
  set (sz := if ctx_size c <? inv then inv else ctx_size c) in *.
  destruct (monitor_force_up cfg).
  - destruct (post_restart_event c _ h) as [rc h'].
    destruct (rc <? 0); [done|]. injection H as <- _ _.
    split; simpl; eauto. intros id _ Hid. by apply elem_of_empty in Hid.
  - destruct (attr_recovery_mode c);
      destruct (post_restart_event c _ h) as [rc h'];
      destruct (rc <? 0); try done; injection H as <- _ _;
      split; simpl; eauto; intros id Hid; by apply elem_of_empty in Hid.
Qed.

(** X2: on the leader, from [monitor_create] on and after any inputs, no
    request is left on the deferred list whose count is the current
    count of [up]: every deferred request asks for a count in
    [0, size] that differs from it. *)
Theorem no_request_waits_in_vain (c : resource_ctx) (inventory_size : Z)
    (cfg : resource_config) (h h1 : flux) (m : monitor)
    (groups : list string) (ins : list input) :
  monitor_create c inventory_size cfg h = (Some m, groups, h1) →
  ctx_rank c = 0%nat →
  ∃ reqs, waitup_requests (run ins m h1).1 = Some reqs
    ∧ ∀ r, r ∈ reqs →
        ∃ w, wants r = Some w ∧ 0 ≤ w ≤ size (run ins m h1).1
             ∧ w ≠ up_count (run ins m h1).1.
Proof.
  intros Hc Hrk.
  pose proof (run_ok ins m h1 (monitor_create_ok _ _ _ _ _ _ _ Hc Hrk)) as Hok.
  destruct Hok as [_ _ _ _ (reqs & Hr & HF) _].
  exists reqs. split; [done|]. intros r Hin.
  rewrite Forall_forall in HF. exact (HF r Hin).
Qed.

Lemma no_request_waits_in_vain_witness :
  ∃ reqs, waitup_requests (run two_up_one_waiting leader_start flux_start).1
          = Some reqs
    ∧ ∀ r, r ∈ reqs →
        ∃ w, wants r = Some w
             ∧ 0 ≤ w ≤ size (run two_up_one_waiting leader_start flux_start).1
             ∧ w ≠ up_count (run two_up_one_waiting leader_start flux_start).1.
Proof.
  apply (no_request_waits_in_vain ctx4 0 (Config false false) (flux0 [])
           flux_start leader_start ["broker.online"; "broker.torpid"]).
  - vm_compute. reflexivity.
  - reflexivity.
Defined.

(** X3: on the leader, from [monitor_create] on and after any inputs, no
    rank is in both the set [monitor_get_up] returns and the set
    [monitor_get_lost] returns. *)
Theorem lost_is_disjoint_from_up (c : resource_ctx) (inventory_size : Z)
    (cfg : resource_config) (h h1 : flux) (m : monitor)
    (groups : list string) (ins : list input) (id : nat) :
  monitor_create c inventory_size cfg h = (Some m, groups, h1) →
  ctx_rank c = 0%nat →
  member id (monitor_get_up (run ins m h1).1) →
  ¬ member id (monitor_get_lost (run ins m h1).1).
Proof.
  intros Hc Hrk.
  pose proof (run_ok ins m h1 (monitor_create_ok _ _ _ _ _ _ _ Hc Hrk)) as Hok.
  apply (lo_disjoint _ Hok).
Qed.

Lemma lost_is_disjoint_from_up_witness :
  member 3 (monitor_get_up (run loss_and_return leader_start flux_start).1)
  ∧ ¬ member 3
        (monitor_get_lost (run loss_and_return leader_start flux_start).1).
Proof.
  assert (H : member 3
                (monitor_get_up (run loss_and_return leader_start flux_start).1))
    by (vm_compute; reflexivity).
  split; [exact H|].
  apply (lost_is_disjoint_from_up ctx4 0 (Config false false) (flux0 [])
           flux_start leader_start ["broker.online"; "broker.torpid"]
           loss_and_return 3%nat).
  - vm_compute. reflexivity.
  - reflexivity.
  - exact H.
Defined.

(** ** Followers *)

Lemma handle_follower i m h :
  rank m ≠ 0%nat → up m = None → torpid m = None →
  ∃ rs, (handle i m h).1 = m
    ∧ eventlog (handle i m h).2 = eventlog h
    ∧ responses (handle i m h).2 = responses h ++ rs
    ∧ map response_to rs = request_of i
    ∧ Forall is_error rs.
Proof.
  intros Hrk Hu Ht. destruct i as [f|f|msg|msg]; simpl.
  - exists []. rewrite app_nil_r. unfold broker_online_cb.
    pose proof (group_get_frame f h) as Hg.
    destruct (group_get f h) as [[new|] h0]; destruct Hg as [E R].
    + unfold post_join_leave. simpl. rewrite Hu. simpl. auto.
    + simpl. auto.
  - exists []. rewrite app_nil_r. unfold broker_torpid_cb.
    pose proof (group_get_frame f h) as Hg.
    destruct (group_get f h) as [[new|] h0]; destruct Hg as [E R].
    + unfold post_join_leave. simpl. rewrite Ht. simpl. auto.
    + simpl. auto.
  - unfold waitup_cb.
    destruct (unpack_int "up" (msg_payload msg)) as [want|]; simpl.
    + destruct (Nat.eqb_spec (rank m) 0) as [?|_]; [done|]. simpl.
      eexists [_]. repeat split; simpl; auto; by apply Forall_singleton.
    + eexists [_]. repeat split; simpl; auto; by apply Forall_singleton.
  - unfold force_down_cb.
    destruct (unpack_str "ranks" (msg_payload msg)) as [ranks|]; simpl.
    + rewrite Hu. simpl. eexists [_]. repeat split; simpl; auto; by apply Forall_singleton.
    + eexists [_]. repeat split; simpl; auto; by apply Forall_singleton.
Qed.

Lemma run_follower ins :
  ∀ m h, rank m ≠ 0%nat → up m = None → torpid m = None →
  ∃ rs, (run ins m h).1 = m
    ∧ eventlog (run ins m h).2 = eventlog h
    ∧ responses (run ins m h).2 = responses h ++ rs
    ∧ map response_to rs = ins ≫= request_of
    ∧ Forall is_error rs.
Proof.
  induction ins as [|i rest IH]; intros m h Hrk Hu Ht; simpl.
  - exists []. rewrite app_nil_r. auto.
  - destruct (handle_follower i m h Hrk Hu Ht) as (rs1 & Hm & He & Hr & Hq & Hf).
    destruct (handle i m h) as [m' h']. simpl in *. subst m'.
    destruct (IH m h' Hrk Hu Ht) as (rs2 & Hm2 & He2 & Hr2 & Hq2 & Hf2).
    exists (rs1 ++ rs2). split; [done|]. split; [by rewrite He2|].
    split; [by rewrite Hr2, Hr, app_assoc|].
    split; [by rewrite map_app, Hq, Hq2|].
    by apply Forall_app.
Qed.

(** X4: the monitor [monitor_create] makes on a follower rank opens no
    group stream and posts nothing, and stays as it is whatever it
    receives: no input changes it or posts an event, and each request is
    answered once, in order, with an error. *)
Theorem follower_is_inert (c : resource_ctx) (inventory_size : Z)
    (cfg : resource_config) (h h1 : flux) (m : monitor)
    (groups : list string) (ins : list input) :
  monitor_create c inventory_size cfg h = (Some m, groups, h1) →
  ctx_rank c ≠ 0%nat →
  groups = [] ∧ h1 = h
  ∧ (run ins m h1).1 = m
  ∧ eventlog (run ins m h1).2 = eventlog h
  ∧ ∃ rs, responses (run ins m h1).2 = responses h ++ rs
      ∧ map response_to rs = ins ≫= request_of
      ∧ Forall is_error rs.
Proof.
  unfold monitor_create. intros Hc Hrk.
  destruct (Nat.ltb_spec 0 (ctx_rank c)) as [_|?]; [|lia].
  injection Hc as <- <- <-. split; [done|]. split; [done|].
  destruct (run_follower ins
              (Mon (ctx_rank c)
                 (if ctx_size c <? inventory_size then inventory_size
                  else ctx_size c) None None None None None) h)
    as (rs & H1 & H2 & H3 & H4 & H5); try done.
  split; [done|]. split; [done|]. by exists rs.
Qed.

Lemma follower_is_inert_witness :
  ([] : list string) = [] ∧ flux0 [] = flux0 []
  ∧ (run follower_inputs follower (flux0 [])).1 = follower
  ∧ eventlog (run follower_inputs follower (flux0 [])).2 = eventlog (flux0 [])
  ∧ ∃ rs, responses (run follower_inputs follower (flux0 [])).2
          = responses (flux0 []) ++ rs
      ∧ map response_to rs = follower_inputs ≫= request_of
      ∧ Forall is_error rs.
Proof.
  apply (follower_is_inert ctx4_rank1 0 (Config false false) (flux0 [])
           (flux0 []) follower [] follower_inputs).
  - vm_compute. reflexivity.
  - vm_compute. discriminate.
Defined.

(** ** Force-down *)

Lemma diff_force_down (u b : idset) :
  diff_events "online" "offline" u (u ∖ b) = event_for "offline" (u ∩ b).
Proof.
  unfold diff_events.
  assert (H1 : (u ∖ b) ∖ u = ∅) by set_solver.
  assert (H2 : u ∖ (u ∖ b) = u ∩ b).
  { apply set_eq. intros x. rewrite !elem_of_difference, elem_of_intersection.
    split; [|tauto]. intros [? Hn]. split; [done|].
    destruct (decide (x ∈ b)); [done|]. exfalso. apply Hn. done. }
  rewrite H1, H2. done.
Qed.

Lemma lost_force_down (l u b : idset) :
  (l ∪ (u ∖ (u ∖ b))) ∖ ((u ∖ b) ∖ u) = l ∪ (u ∩ b).
Proof.
  apply set_eq. intros x.
  rewrite !elem_of_difference, !elem_of_union, !elem_of_difference,
    elem_of_intersection.
  destruct (decide (x ∈ b)); tauto.
Qed.

(** X5: on a leader, [monitor-force-down] is all or nothing.  Either the
    request is answered with an error and neither the monitor nor the
    eventlog has changed; or it is answered with success, last, after
    the deferred waitup requests the new count satisfies, and then [up]
    has lost exactly the named ranks, [lost] has gained exactly those of
    them that were up, and the only event posted is one [offline] event
    for these (none when there is none): never an [online] event. *)
Theorem force_down_all_or_nothing (msg : flux_msg) (m : monitor) (h : flux)
    (u l : idset) (reqs : list flux_msg) :
  up m = Some u → lost m = Some l → waitup_requests m = Some reqs →
  (∃ e s, (force_down_cb msg m h).1 = m
     ∧ eventlog (force_down_cb msg m h).2 = eventlog h
     ∧ responses (force_down_cb msg m h).2
       = responses h ++ [RespondError msg e s])
  ∨ (∃ ranks b,
       unpack_str "ranks" (msg_payload msg) = Some ranks
       ∧ idset_decode ranks = Some b
       ∧ (force_down_cb msg m h).1
         = Mon (rank m) (size m) (torpid m) (Some (u ∖ b)) (down m)
               (Some (l ∪ (u ∩ b)))
               (Some (List.filter (stays (idset_count (u ∖ b))) reqs))
       ∧ eventlog (force_down_cb msg m h).2
         = eventlog h ++ event_for "offline" (u ∩ b)
       ∧ responses (force_down_cb msg m h).2
         = responses h ++ notified (idset_count (u ∖ b)) reqs ++ [Respond msg]).
Proof.
  intros Hu Hl Hr. unfold force_down_cb.
  destruct (unpack_str "ranks" (msg_payload msg)) as [ranks|] eqn:Hp.
  2:{ left. simpl. eauto. }
  rewrite Hu. simpl. unfold idset_decode_subtract.
  destruct (idset_decode ranks) as [b|] eqn:Hb.
  2:{ left. simpl. eauto. }
  pose proof (commit_record (u ∖ b) m h u l reqs Hu Hl Hr) as H.
  destruct (post_join_leave RefUp (u ∖ b) "online" "offline" m h)
    as [[rc m1] h1].
  destruct H as (R & [(-> & -> & E)|(-> & E & H)]); simpl.
  - left. exists (errno h1), (Some "monitor: error posting online/offline event").
    split; [done|]. split; [|by rewrite R].
    destruct E as [E|E]; [done|]. rewrite E.
    assert (H1 : (u ∖ b) ∖ u = ∅) by set_solver.
    rewrite H1. unfold event_for. simpl. by rewrite app_nil_r.
  - right. exists ranks, b. split; [done|]. split; [done|].
    destruct (notify_waitup (set_up (Some (u ∖ b)) m1) h1) as [m' h'].
    destruct H as (-> & E' & R'). simpl.
    rewrite lost_force_down. split; [done|].
    rewrite E', E, diff_force_down. split; [done|].
    rewrite R'. unfold notified. by rewrite <- app_assoc.
Qed.

Lemma force_down_all_or_nothing_witness :
  (∃ e s, (force_down_cb (force_down_request 9 "1") leader_up4 (flux0 [])).1
          = leader_up4
     ∧ eventlog (force_down_cb (force_down_request 9 "1") leader_up4
                   (flux0 [])).2 = eventlog (flux0 [])
     ∧ responses (force_down_cb (force_down_request 9 "1") leader_up4
                    (flux0 [])).2
       = responses (flux0 []) ++ [RespondError (force_down_request 9 "1") e s])
  ∨ (∃ ranks b,
       unpack_str "ranks" (msg_payload (force_down_request 9 "1")) = Some ranks
       ∧ idset_decode ranks = Some b
       ∧ (force_down_cb (force_down_request 9 "1") leader_up4 (flux0 [])).1
         = Mon (rank leader_up4) (size leader_up4) (torpid leader_up4)
               (Some (idset_range 0 4 ∖ b)) (down leader_up4)
               (Some (∅ ∪ (idset_range 0 4 ∩ b)))
               (Some (List.filter (stays (idset_count (idset_range 0 4 ∖ b))) []))
       ∧ eventlog (force_down_cb (force_down_request 9 "1") leader_up4
                     (flux0 [])).2
         = eventlog (flux0 []) ++ event_for "offline" (idset_range 0 4 ∩ b)
       ∧ responses (force_down_cb (force_down_request 9 "1") leader_up4
                      (flux0 [])).2
         = responses (flux0 [])
           ++ notified (idset_count (idset_range 0 4 ∖ b)) []
           ++ [Respond (force_down_request 9 "1")]).
Proof.
  apply (force_down_all_or_nothing (force_down_request 9 "1") leader_up4
           (flux0 []) (idset_range 0 4) ∅ []); reflexivity.
Defined.

Lemma notify_list_outcomes c rs :
  ∀ h, post_outcomes (notify_list c rs h).2 = post_outcomes h.
Proof.
  induction rs as [|r rest IH]; intros h; simpl; [done|].
  destruct (unpack_int "up" (msg_payload r)) as [w|].
  - destruct (w =? c).
    + by rewrite IH.
    + specialize (IH h). by destruct (notify_list c rest h).
  - by rewrite IH.
Qed.

Lemma notify_waitup_outcomes m h :
  post_outcomes (notify_waitup m h).2 = post_outcomes h.
Proof.
  unfold notify_waitup. destruct (waitup_requests m) as [reqs|]; [|done].
  pose proof (notify_list_outcomes (up_count m) reqs h) as H.
  by destruct (notify_list (up_count m) reqs h).
Qed.

Lemma idset_count_empty : idset_count (∅ : idset) = 0.
Proof. unfold idset_count. by rewrite size_empty. Qed.

(** X6: forcing down ranks of which none is up changes nothing and posts
    nothing: the request succeeds without an attempt to post, and [up]
    and [lost] are as before.  So a force-down that is repeated posts its
    [offline] event once. *)
Theorem force_down_of_down_ranks_posts_nothing (msg : flux_msg) (m : monitor)
    (h : flux) (u l b : idset) (reqs : list flux_msg) (ranks : string) :
  up m = Some u → lost m = Some l → waitup_requests m = Some reqs →
  unpack_str "ranks" (msg_payload msg) = Some ranks →
  idset_decode ranks = Some b → u ∩ b = ∅ →
  up (force_down_cb msg m h).1 = Some u
  ∧ lost (force_down_cb msg m h).1 = Some l
  ∧ eventlog (force_down_cb msg m h).2 = eventlog h
  ∧ post_outcomes (force_down_cb msg m h).2 = post_outcomes h
  ∧ responses (force_down_cb msg m h).2
    = responses h ++ notified (idset_count u) reqs ++ [Respond msg].
Proof.
  intros Hu Hl Hr Hp Hb Hdis.
  assert (Hub : u ∖ b = u) by set_solver.
  unfold force_down_cb. rewrite Hp, Hu. simpl.
  unfold idset_decode_subtract. rewrite Hb, Hub.
  unfold post_join_leave. simpl. rewrite Hu.
  unfold idset_difference, idset_add, idset_subtract.
  rewrite difference_diag_L.
  unfold post_event. rewrite idset_count_empty. simpl. rewrite Hl. simpl.
  set (m2 := set_up (Some u) (set_lost (Some ((l ∪ ∅) ∖ ∅)) m)).
  assert (Hr1 : waitup_requests m2 = Some reqs) by done.
  pose proof (notify_waitup_spec m2 h reqs Hr1) as Hn.
  pose proof (notify_waitup_outcomes m2 h) as Hpo2.
  destruct (notify_waitup m2 h) as [m' h'].
  destruct Hn as (-> & E & R). simpl in *.
  assert (Hl' : (l ∪ ∅) ∖ ∅ = l) by set_solver.
  rewrite Hl'. split; [done|]. split; [done|]. split; [done|].
  split; [done|]. rewrite R. unfold notified, up_count. simpl.
  by rewrite <- app_assoc.
Qed.

Lemma force_down_of_down_ranks_posts_nothing_witness :
  eventlog (force_down_cb (force_down_request 9 "3") leader_3of4
              (flux0 [Some 5])).2 = eventlog (flux0 [Some 5])
  ∧ post_outcomes (force_down_cb (force_down_request 9 "3") leader_3of4
                     (flux0 [Some 5])).2 = post_outcomes (flux0 [Some 5]).
Proof.
  destruct (force_down_of_down_ranks_posts_nothing (force_down_request 9 "3")
              leader_3of4 (flux0 [Some 5]) (idset_range 0 3) {[ 3%nat ]}
              {[ 3%nat ]} [waitup_request 5 4] "3")
    as (_ & _ & H1 & H2 & _); try reflexivity.
  split; [exact H1|exact H2].
Defined.

(** ** Snapshots without a change *)

(** X7: a snapshot that names the set already cached posts nothing: for
    the online group the eventlog, [up], [lost] and [torpid] are as
    before and no post is attempted; for the torpid group nothing
    changes at all. *)
Theorem unchanged_snapshot_posts_nothing (f : rpc_result) (m : monitor)
    (h h0 : flux) (s l : idset) (reqs : list flux_msg) :
  group_get f h = (Some s, h0) →
  (up m = Some s → lost m = Some l → waitup_requests m = Some reqs →
     up (broker_online_cb f m h).1 = Some s
     ∧ lost (broker_online_cb f m h).1 = Some l
     ∧ torpid (broker_online_cb f m h).1 = torpid m
     ∧ eventlog (broker_online_cb f m h).2 = eventlog h
     ∧ post_outcomes (broker_online_cb f m h).2 = post_outcomes h)
  ∧ (torpid m = Some s → broker_torpid_cb f m h = (m, h)).
Proof.
  intros Hg.
  assert (Hh : h0 = h).
  { unfold group_get in Hg. destruct f as [e|p]; [done|].
    destruct (unpack_str "members" (Some p)); [|done].
    destruct (idset_decode s0); by simplify_eq. }
  subst h0. split.
  - intros Hu Hl Hr. unfold broker_online_cb. rewrite Hg.
    unfold post_join_leave. simpl. rewrite Hu.
    unfold idset_difference, idset_add, idset_subtract.
    rewrite difference_diag_L.
    unfold post_event. rewrite idset_count_empty. simpl. rewrite Hl. simpl.
    set (m2 := set_up (Some s) (set_lost (Some ((l ∪ ∅) ∖ ∅)) m)).
    pose proof (notify_waitup_frame m2 h) as Hn.
    pose proof (notify_waitup_outcomes m2 h) as Hpo.
    destruct (notify_waitup m2 h) as [m' h'].
    destruct Hn as (H1 & H2 & H3 & _ & _ & H4). simpl in *.
    assert (Hl' : (l ∪ ∅) ∖ ∅ = l) by set_solver.
    rewrite H1, H2, H3, H4, Hpo, Hl'. done.
  - intros Ht. unfold broker_torpid_cb. rewrite Hg.
    unfold post_join_leave. simpl. rewrite Ht.
    unfold idset_difference. rewrite difference_diag_L.
    unfold post_event. rewrite idset_count_empty. simpl.
    destruct m; simpl in *. by subst.
Qed.

Lemma unchanged_snapshot_posts_nothing_witness :
  eventlog (broker_online_cb (members "0-3") leader_up4 (flux0 [Some 5])).2
    = eventlog (flux0 [Some 5])
  ∧ post_outcomes
      (broker_online_cb (members "0-3") leader_up4 (flux0 [Some 5])).2
    = post_outcomes (flux0 [Some 5]).
Proof.
  destruct (unchanged_snapshot_posts_nothing (members "0-3") leader_up4
              (flux0 [Some 5]) (flux0 [Some 5]) (idset_range 0 4) ∅ [])
    as [H _]; [vm_compute; reflexivity|].
  destruct H as (_ & _ & _ & H1 & H2); try reflexivity.
  split; [exact H1|exact H2].
Defined.

(** ** Forced up *)

(** X8: with [monitor-force-up], the leader [monitor_create] makes has
    every rank up from the start and watches no group; its restart event
    gives the same set for [ranks] and [online]; a waitup request for
    [size] ranks is answered at once, and one for fewer ranks is
    deferred. *)
Theorem forced_up_is_full_from_the_start (c : resource_ctx)
    (inventory_size : Z) (cfg : resource_config) (h h1 : flux) (m : monitor)
    (groups : list string) :
  monitor_create c inventory_size cfg h = (Some m, groups, h1) →
  ctx_rank c = 0%nat → monitor_force_up cfg = true →
  groups = [] ∧ 0 < size m
  ∧ monitor_get_up m = Some (idset_range 0 (Z.to_nat (size m)))
  ∧ up_count m = size m
  ∧ (∃ hostlist, attr_hostlist c = Some hostlist
       ∧ eventlog h1 =
           eventlog h
           ++ [Event "restart"
                 [("ranks", idset_encode (idset_range 0 (Z.to_nat (size m))));
                  ("online", idset_encode (idset_range 0 (Z.to_nat (size m))));
                  ("nodelist", hostlist)]])
  ∧ (∀ msg h', wants msg = Some (size m) →
       waitup_cb msg m h' = (m, flux_respond msg h'))
  ∧ (∀ msg h' w, wants msg = Some w → 0 ≤ w < size m →
       waitup_cb msg m h' = (set_waitup_requests (Some [msg]) m, h')).
Proof.
  unfold monitor_create. intros Hc Hrk Hf. rewrite Hrk, Hf in Hc. simpl in Hc.
  set (sz := if ctx_size c <? inventory_size then inventory_size
             else ctx_size c) in *.
  unfold post_restart_event in Hc. simpl in Hc.
  destruct (attr_hostlist c) as [hostlist|]; [|done].
  destruct (Z.leb_spec sz 0) as [?|Hpos]; [done|].
  pose proof (reslog_post_pack_log "restart"
                [("ranks", idset_encode (idset_range 0 (Z.to_nat sz)));
                 ("online", idset_encode (idset_range 0 (Z.to_nat sz)));
                 ("nodelist", hostlist)] h) as Hp.
  destruct (reslog_post_pack _ _ h) as [rc h'].
  destruct Hp as [(-> & E & _)|(-> & _)]; [|done].
  simpl in Hc. injection Hc as <- <- <-. simpl.
  assert (Hcount : idset_count (idset_range 0 (Z.to_nat sz)) = sz).
  { rewrite idset_count_range. lia. }
  split; [done|]. split; [done|]. split; [done|]. split; [done|].
  split; [by exists hostlist|]. split.
  - intros msg h2 Hw. unfold waitup_cb. unfold wants in Hw. rewrite Hw.
    simpl. unfold up_count. simpl. rewrite Hcount.
    rewrite Z.gtb_ltb, Z.ltb_irrefl. simpl.
    destruct (Z.ltb_spec sz 0) as [?|_]; [lia|].
    by rewrite Z.eqb_refl.
  - intros msg h2 w Hw Hrange. unfold waitup_cb. unfold wants in Hw.
    rewrite Hw. simpl. unfold up_count. simpl. rewrite Hcount.
    rewrite Z.gtb_ltb.
    destruct (Z.ltb_spec sz w) as [?|_]; [lia|].
    destruct (Z.ltb_spec w 0) as [?|_]; [lia|]. simpl.
    destruct (Z.eqb_spec sz w) as [?|_]; [lia|]. done.
Qed.

Lemma forced_up_is_full_from_the_start_witness :
  up_count
    (Mon 0 4 (Some ∅) (Some (idset_range 0 4)) None (Some ∅) (Some [])) = 4.
Proof.
  destruct (forced_up_is_full_from_the_start ctx4 0 forced_up (flux0 [])
              (Flux [Event "restart"
                       [("ranks", "0-3"); ("online", "0-3");
                        ("nodelist", "node[0-3]")]] [] [] 0 [])
              (Mon 0 4 (Some ∅) (Some (idset_range 0 4)) None (Some ∅)
                 (Some []))
              []) as (_ & _ & _ & H & _).
  - vm_compute. reflexivity.
  - reflexivity.
  - reflexivity.
  - exact H.
Defined.

(** ** The restart event *)

Lemma diff_events_names J L old new :
  Forall (λ e, ev_name e = J ∨ ev_name e = L) (diff_events J L old new).
Proof.
  unfold diff_events, event_for. apply Forall_app. split.
  - destruct (idset_count (new ∖ old) =? 0); [done|].
    apply Forall_singleton. by left.
  - destruct (idset_count (old ∖ new) =? 0); [done|].
    apply Forall_singleton. by right.
Qed.

Lemma post_join_leave_names r new J L m h :
  ∃ evs, eventlog (post_join_leave r new J L m h).2
         = eventlog h ++ evs
    ∧ Forall (λ e, ev_name e = J ∨ ev_name e = L) evs.
Proof.
  pose proof (post_join_leave_log r new J L m h) as H.
  destruct (post_join_leave r new J L m h) as [[rc m1] h1].
  destruct H as (evs & E & [k Hk]). exists evs. split; [done|].
  destruct (deref r m) as [old|].
  - pose proof (diff_events_names J L old new) as HF.
    rewrite Hk in HF. by apply Forall_app in HF as [? _].
  - by destruct evs.
Qed.

Lemma handle_membership_events i m h :
  ∃ evs, eventlog (handle i m h).2 = eventlog h ++ evs
    ∧ Forall membership_event evs.
Proof.
  assert (Hnil : ∀ h', eventlog h' = eventlog h →
            ∃ evs, eventlog h' = eventlog h ++ evs
                   ∧ Forall membership_event evs).
  { intros h' E. exists []. by rewrite app_nil_r. }
  assert (Hup : ∀ evs, Forall (λ e, ev_name e = "online"
                                    ∨ ev_name e = "offline") evs →
            Forall membership_event evs).
  { intros evs HF. eapply Forall_impl; [exact HF|].
    unfold membership_event. intros; tauto. }
  assert (Htp : ∀ evs, Forall (λ e, ev_name e = "torpid"
                                    ∨ ev_name e = "lively") evs →
            Forall membership_event evs).
  { intros evs HF. eapply Forall_impl; [exact HF|].
    unfold membership_event. intros; tauto. }
  destruct i as [f|f|msg|msg]; simpl.
  - unfold broker_online_cb.
    pose proof (group_get_frame f h) as Hg.
    destruct (group_get f h) as [[new|] h0]; simpl; destruct Hg as [Eg _].
    2:{ by apply Hnil. }
    pose proof (post_join_leave_names RefUp new "online" "offline" m h0) as H.
    destruct (post_join_leave RefUp new "online" "offline" m h0)
      as [[rc m1] h1].
    destruct H as (evs & E & HF). simpl in E.
    destruct (rc <? 0); simpl.
    + exists evs. rewrite E, Eg. auto.
    + pose proof (notify_waitup_frame (set_up (Some new) m1) h1) as Hn.
      destruct (notify_waitup (set_up (Some new) m1) h1) as [m' h'].
      destruct Hn as (_ & _ & _ & _ & _ & En). simpl.
      exists evs. rewrite En, E, Eg. auto.
  - unfold broker_torpid_cb.
    pose proof (group_get_frame f h) as Hg.
    destruct (group_get f h) as [[new|] h0]; simpl; destruct Hg as [Eg _].
    2:{ by apply Hnil. }
    pose proof (post_join_leave_names RefTorpid new "torpid" "lively" m h0)
      as H.
    destruct (post_join_leave RefTorpid new "torpid" "lively" m h0)
      as [[rc m1] h1].
    destruct H as (evs & E & HF). simpl in E.
    destruct (rc <? 0); simpl; exists evs; rewrite E, Eg; auto.
  - apply Hnil. unfold waitup_cb. repeat case_match; reflexivity.
  - unfold force_down_cb, idset_copy, idset_decode_subtract.
    destruct (unpack_str "ranks" (msg_payload msg)) as [ranks|]; simpl.
    2:{ by apply Hnil. }
    destruct (up m) as [old|] eqn:Hu; simpl.
    2:{ by apply Hnil. }
    destruct (idset_decode ranks) as [b|]; simpl.
    2:{ by apply Hnil. }
    pose proof (post_join_leave_names RefUp (old ∖ b) "online" "offline" m h)
      as H.
    destruct (post_join_leave RefUp (old ∖ b) "online" "offline" m h)
      as [[rc m1] h1].
    destruct H as (evs & E & HF). simpl in E.
    destruct (rc <? 0); simpl.
    + exists evs. rewrite E. auto.
    + pose proof (notify_waitup_frame (set_up (Some (old ∖ b)) m1) h1) as Hn.
      destruct (notify_waitup (set_up (Some (old ∖ b)) m1) h1) as [m' h'].
      destruct Hn as (_ & _ & _ & _ & _ & En). simpl.
      exists evs. rewrite En, E. auto.
Qed.

Lemma run_membership_events ins :
  ∀ m h, ∃ evs, eventlog (run ins m h).2 = eventlog h ++ evs
    ∧ Forall membership_event evs.
Proof.
  induction ins as [|i rest IH]; intros m h; simpl.
  - exists []. by rewrite app_nil_r.
  - destruct (handle_membership_events i m h) as (e1 & E1 & F1).
    destruct (handle i m h) as [m' h']. simpl in E1.
    destruct (IH m' h') as (e2 & E2 & F2).
    exists (e1 ++ e2). rewrite E2, E1, app_assoc. split; [done|].
    by apply Forall_app.
Qed.

(** X9: the leader's [restart] event is posted by [monitor_create], once
    and before anything else the monitor posts: it carries the ranks
    [0 .. size-1], the set that is up at the start and the hostlist, and
    every event posted after it, by any inputs, is an [online],
    [offline], [torpid] or [lively] event. *)
Theorem restart_is_posted_once_and_first (c : resource_ctx)
    (inventory_size : Z) (cfg : resource_config) (h h1 : flux) (m : monitor)
    (groups : list string) (ins : list input) :
  monitor_create c inventory_size cfg h = (Some m, groups, h1) →
  ctx_rank c = 0%nat →
  ∃ hostlist u evs,
    attr_hostlist c = Some hostlist ∧ up m = Some u
    ∧ eventlog (run ins m h1).2 =
        eventlog h
        ++ Event "restart"
             [("ranks", idset_encode (idset_range 0 (Z.to_nat (size m))));
              ("online", idset_encode u); ("nodelist", hostlist)]
           :: evs
    ∧ Forall membership_event evs.
Proof.
  unfold monitor_create. intros Hc Hrk. rewrite Hrk in Hc. simpl in Hc.
  set (sz := if ctx_size c <? inventory_size then inventory_size
             else ctx_size c) in *.
  set (m1 := Mon 0 sz (Some ∅) (Some ∅) None (Some ∅) (Some [])) in *.
  assert (Hm : ∃ m2 g2, (if monitor_force_up cfg
                         then (set_up (Some (idset_range 0 (Z.to_nat sz))) m1, [])
                         else match attr_recovery_mode c with
                              | Some _ => (m1, [])
                              | None =>
                                  (m1, [if systemd_enable cfg
                                        then "sdmon.online"
                                        else "broker.online"; "broker.torpid"])
                              end) = (m2, g2)
               ∧ size m2 = sz ∧ is_Some (up m2)).
  { destruct (monitor_force_up cfg); [by eauto|].
    destruct (attr_recovery_mode c); by eauto. }
  destruct Hm as (m2 & g2 & Hm & Hsz & [u Hu]). rewrite Hm in Hc.
  unfold post_restart_event in Hc. rewrite Hsz, Hu in Hc.
  destruct (attr_hostlist c) as [hostlist|]; [|done].
  destruct (Z.leb_spec sz 0) as [?|Hpos]; [done|].
  pose proof (reslog_post_pack_log "restart"
                [("ranks", idset_encode (idset_range 0 (Z.to_nat sz)));
                 ("online", idset_encode u); ("nodelist", hostlist)] h) as Hp.
  destruct (reslog_post_pack _ _ h) as [rc h'].
  destruct Hp as [(-> & E & _)|(-> & _)]; [|done].
  simpl in Hc. injection Hc as <- <- <-.
  destruct (run_membership_events ins m2 h') as (evs & Ev & HF).
  exists hostlist, u, evs. split; [done|]. split; [done|].
  rewrite Ev, E, Hsz, <- app_assoc. done.
Qed.

Lemma restart_is_posted_once_and_first_witness :
  ∃ hostlist u evs,
    attr_hostlist ctx4 = Some hostlist ∧ up leader_start = Some u
    ∧ eventlog (run loss_and_return leader_start flux_start).2 =
        eventlog (flux0 [])
        ++ Event "restart"
             [("ranks",
               idset_encode (idset_range 0 (Z.to_nat (size leader_start))));
              ("online", idset_encode u); ("nodelist", hostlist)]
           :: evs
    ∧ Forall membership_event evs.
Proof.
  apply (restart_is_posted_once_and_first ctx4 0 (Config false false)
           (flux0 []) flux_start leader_start
           ["broker.online"; "broker.torpid"] loss_and_return).
  - vm_compute. reflexivity.
  - reflexivity.
Defined.

(** ** The size and the rank *)

Lemma post_join_leave_size r new J L m h :
  size (post_join_leave r new J L m h).1.2 = size m
  ∧ rank (post_join_leave r new J L m h).1.2 = rank m.
Proof.
  unfold post_join_leave. destruct (deref r m); [|done].
  destruct (post_event J _ h) as [rc1 h1].
  destruct (rc1 <? 0); [done|].
  destruct (post_event L _ h1) as [rc2 h2].
  destruct (rc2 <? 0); [done|].
  destruct (is_up r); [|done]. by destruct (lost m).
Qed.

Lemma handle_size_rank i m h :
  size (handle i m h).1 = size m ∧ rank (handle i m h).1 = rank m.
Proof.
  destruct i as [f|f|msg|msg]; simpl.
  - unfold broker_online_cb.
    destruct (group_get f h) as [[new|] h0]; [|done].
    pose proof (post_join_leave_size RefUp new "online" "offline" m h0) as H.
    destruct (post_join_leave RefUp new "online" "offline" m h0)
      as [[rc m1] h1]. simpl in H.
    destruct (rc <? 0); [done|].
    pose proof (notify_waitup_frame (set_up (Some new) m1) h1) as Hn.
    destruct (notify_waitup (set_up (Some new) m1) h1) as [m' h'].
    destruct Hn as (_ & _ & _ & Hr & Hs & _). simpl in *.
    rewrite Hs, Hr. done.
  - unfold broker_torpid_cb.
    destruct (group_get f h) as [[new|] h0]; [|done].
    pose proof (post_join_leave_size RefTorpid new "torpid" "lively" m h0)
      as H.
    destruct (post_join_leave RefTorpid new "torpid" "lively" m h0)
      as [[rc m1] h1]. simpl in H.
    by destruct (rc <? 0).
  - unfold waitup_cb. repeat case_match; done.
  - unfold force_down_cb, idset_copy, idset_decode_subtract.
    destruct (unpack_str "ranks" (msg_payload msg)) as [ranks|]; [|done].
    destruct (up m) as [old|]; [|done].
    destruct (idset_decode ranks) as [b|]; [|done].
    pose proof (post_join_leave_size RefUp (old ∖ b) "online" "offline" m h)
      as H.
    destruct (post_join_leave RefUp (old ∖ b) "online" "offline" m h)
      as [[rc m1] h1]. simpl in H.
    destruct (rc <? 0); [done|].
    pose proof (notify_waitup_frame (set_up (Some (old ∖ b)) m1) h1) as Hn.
    destruct (notify_waitup (set_up (Some (old ∖ b)) m1) h1) as [m' h'].
    destruct Hn as (_ & _ & _ & Hr & Hs & _). simpl in *.
    rewrite Hs, Hr. done.
Qed.

Lemma run_size_rank ins :
  ∀ m h, size (run ins m h).1 = size m ∧ rank (run ins m h).1 = rank m.
Proof.
  induction ins as [|i rest IH]; intros m h; simpl; [done|].
  pose proof (handle_size_rank i m h) as [Hs Hr].
  destruct (handle i m h) as [m' h']. simpl in *.
  destruct (IH m' h') as [Hs' Hr']. by rewrite Hs', Hr', Hs, Hr.
Qed.

(** X16: on every rank, the size of the monitor is fixed by
    [monitor_create] as the larger of the instance size and the
    inventory size, and neither the size nor the rank is changed by any
    input. *)
Theorem size_is_fixed_at_creation (c : resource_ctx) (inventory_size : Z)
    (cfg : resource_config) (h h1 : flux) (m : monitor)
    (groups : list string) (ins : list input) :
  monitor_create c inventory_size cfg h = (Some m, groups, h1) →
  size m = Z.max (ctx_size c) inventory_size
  ∧ rank m = ctx_rank c
  ∧ size (run ins m h1).1 = size m
  ∧ rank (run ins m h1).1 = rank m.
Proof.
  intros Hc.
  assert (Hm : size m = Z.max (ctx_size c) inventory_size
               ∧ rank m = ctx_rank c).
  { unfold monitor_create in Hc.
    assert (Hmax : (if ctx_size c <? inventory_size then inventory_size
                    else ctx_size c) = Z.max (ctx_size c) inventory_size).
    { destruct (Z.ltb_spec (ctx_size c) inventory_size); lia. }
    rewrite Hmax in Hc.
    destruct (0 <? ctx_rank c)%nat; [by injection Hc as <- _ _|].
    destruct (monitor_force_up cfg).
    - destruct (post_restart_event c _ h) as [rc h'].
      destruct (rc <? 0); [done|]. by injection Hc as <- _ _.
    - destruct (attr_recovery_mode c);
        destruct (post_restart_event c _ h) as [rc h'];
        destruct (rc <? 0); try done; by injection Hc as <- _ _. }
  destruct Hm as [Hs Hr]. destruct (run_size_rank ins m h1) as [Hs' Hr'].
  done.
Qed.

Lemma size_is_fixed_at_creation_witness :
  size leader_start = Z.max (ctx_size ctx4) 0
  ∧ rank leader_start = ctx_rank ctx4
  ∧ size (run loss_and_return leader_start flux_start).1 = size leader_start
  ∧ rank (run loss_and_return leader_start flux_start).1 = rank leader_start.
Proof.
  apply (size_is_fixed_at_creation ctx4 0 (Config false false) (flux0 [])
           flux_start leader_start ["broker.online"; "broker.torpid"]
           loss_and_return).
  vm_compute. reflexivity.
Defined.

(** ** No request is lost or answered twice *)

Lemma response_to_answer r : response_to (answer r) = r.
Proof. unfold answer. by destruct (wants r). Qed.

Lemma map_response_to_answer l : map response_to (map answer l) = l.
Proof.
  induction l as [|r l IH]; simpl; [done|].
  by rewrite response_to_answer, IH.
Qed.

Lemma filter_split (f : flux_msg → bool) l :
  List.filter (λ r, negb (f r)) l ++ List.filter f l ≡ₚ l.
Proof.
  induction l as [|x l IH]; simpl; [done|].
  destruct (f x); simpl.
  - rewrite <- Permutation_middle. by rewrite IH.
  - by rewrite IH.
Qed.

Lemma handle_requests i m h reqs :
  leader_ok m → waitup_requests m = Some reqs →
  ∃ rs reqs',
    responses (handle i m h).2 = responses h ++ rs
    ∧ waitup_requests (handle i m h).1 = Some reqs'
    ∧ map response_to rs ++ reqs' ≡ₚ reqs ++ request_of i.
Proof.
  intros [Hrk [u Hu] [t Ht] [l Hl] _ _] Hr.
  assert (Hsame : ∀ rl, rl = responses h →
            ∃ rs reqs', rl = responses h ++ rs
              ∧ Some reqs = Some reqs'
              ∧ map response_to rs ++ reqs' ≡ₚ reqs ++ []).
  { intros rl ->. exists [], reqs. by rewrite !app_nil_r. }
  assert (Hone : ∀ rl msg r, rl = responses h ++ [r] →
            response_to r = msg →
            ∃ rs reqs', rl = responses h ++ rs
              ∧ Some reqs = Some reqs'
              ∧ map response_to rs ++ reqs' ≡ₚ reqs ++ [msg]).
  { intros rl msg r -> <-. exists [r], reqs. split; [done|]. split; [done|].
    simpl. by rewrite <- Permutation_cons_append. }
  destruct i as [f|f|msg|msg]; simpl.
  - unfold broker_online_cb.
    pose proof (group_get_frame f h) as Hg.
    destruct (group_get f h) as [[new|] h0]; destruct Hg as [_ Rg]; simpl.
    2:{ rewrite Hr. by apply Hsame. }
    pose proof (commit_record new m h0 u l reqs Hu Hl Hr) as H.
    destruct (post_join_leave RefUp new "online" "offline" m h0)
      as [[rc m1] h1].
    destruct H as (R & [(-> & -> & _)|(-> & _ & H)]); simpl.
    { rewrite Hr. apply Hsame. simpl. by rewrite R. }
    destruct (notify_waitup (set_up (Some new) m1) h1) as [m' h'].
    destruct H as (-> & _ & R'). simpl.
    eexists _, _. split; [by rewrite R', Rg|]. split; [done|].
    rewrite map_response_to_answer, app_nil_r. apply filter_split.
  - unfold broker_torpid_cb.
    pose proof (group_get_frame f h) as Hg.
    destruct (group_get f h) as [[new|] h0]; destruct Hg as [_ Rg]; simpl.
    2:{ rewrite Hr. by apply Hsame. }
    pose proof (post_join_leave_torpid new "torpid" "lively" m h0) as H.
    pose proof (post_join_leave_frame RefTorpid new "torpid" "lively" m h0)
      as HF.
    destruct (post_join_leave RefTorpid new "torpid" "lively" m h0)
      as [[rc m1] h1].
    simpl in H. subst m1. destruct HF as (_ & _ & _ & _ & R & _).
    destruct (rc <? 0); simpl; rewrite Hr; apply Hsame; simpl;
      by rewrite R.
  - unfold waitup_cb.
    destruct (unpack_int "up" (msg_payload msg)) as [want|]; simpl.
    2:{ rewrite Hr. by eapply Hone. }
    rewrite Hrk. simpl.
    destruct (_ || _); simpl.
    { rewrite Hr. by eapply Hone. }
    destruct (negb (up_count m =? want)); simpl.
    + rewrite Hr. simpl. exists [], (reqs ++ [msg]).
      by rewrite app_nil_r.
    + rewrite Hr. by eapply Hone.
  - unfold force_down_cb.
    destruct (unpack_str "ranks" (msg_payload msg)) as [ranks|]; simpl.
    2:{ rewrite Hr. by eapply Hone. }
    rewrite Hu. simpl. unfold idset_decode_subtract.
    destruct (idset_decode ranks) as [b|]; simpl.
    2:{ rewrite Hr. by eapply Hone. }
    pose proof (commit_record (u ∖ b) m h u l reqs Hu Hl Hr) as H.
    destruct (post_join_leave RefUp (u ∖ b) "online" "offline" m h)
      as [[rc m1] h1].
    destruct H as (R & [(-> & -> & _)|(-> & _ & H)]); simpl.
    { rewrite Hr. eapply Hone; [by rewrite R|done]. }
    destruct (notify_waitup (set_up (Some (u ∖ b)) m1) h1) as [m' h'].
    destruct H as (-> & _ & R'). simpl.
    eexists (_ ++ [Respond msg]), _.
    split; [by rewrite R', <- app_assoc|]. split; [done|].
    rewrite map_app, map_response_to_answer. simpl.
    rewrite <- app_assoc. rewrite (Permutation_app_comm [msg]).
    rewrite app_assoc. by rewrite filter_split.
Qed.

Lemma run_requests ins :
  ∀ m h reqs, leader_ok m → waitup_requests m = Some reqs →
  ∃ rs reqs',
    responses (run ins m h).2 = responses h ++ rs
    ∧ waitup_requests (run ins m h).1 = Some reqs'
    ∧ map response_to rs ++ reqs' ≡ₚ reqs ++ ins ≫= request_of.
Proof.
  induction ins as [|i rest IH]; intros m h reqs Hok Hr; simpl.
  - exists [], reqs. by rewrite !app_nil_r.
  - destruct (handle_requests i m h reqs Hok Hr) as (rs1 & reqs1 & R1 & W1 & P1).
    pose proof (handle_ok i m h Hok) as Hok1.
    destruct (handle i m h) as [m1 h1]. simpl in *.
    destruct (IH m1 h1 reqs1 Hok1 W1) as (rs2 & reqs2 & R2 & W2 & P2).
    exists (rs1 ++ rs2), reqs2. split; [by rewrite R2, R1, app_assoc|].
    split; [done|].
    rewrite map_app, <- app_assoc, P2, app_assoc, P1.
    by rewrite <- app_assoc.
Qed.

(** X19: on the leader, from [monitor_create] on, no request is lost and
    none is answered twice: after any inputs, the requests answered so
    far (each by one response) together with the requests on the
    deferred list are exactly the requests received, each as often as
    it was received. *)
Theorem every_request_is_answered_once_or_deferred (c : resource_ctx)
    (inventory_size : Z) (cfg : resource_config) (h h1 : flux) (m : monitor)
    (groups : list string) (ins : list input) :
  monitor_create c inventory_size cfg h = (Some m, groups, h1) →
  ctx_rank c = 0%nat →
  ∃ rs reqs,
    responses (run ins m h1).2 = responses h ++ rs
    ∧ waitup_requests (run ins m h1).1 = Some reqs
    ∧ map response_to rs ++ reqs ≡ₚ ins ≫= request_of.
Proof.
  intros Hc Hrk.
  pose proof (monitor_create_ok _ _ _ _ _ _ _ Hc Hrk) as Hok.
  assert (H0 : waitup_requests m = Some [] ∧ responses h1 = responses h).
  { unfold monitor_create in Hc. rewrite Hrk in Hc. simpl in Hc.
    assert (Hp : ∀ m2, responses (post_restart_event c m2 h).2 = responses h).
    { intros m2. unfold post_restart_event.
      destruct (attr_hostlist c) as [hl|]; [|done].
      destruct (size m2 <=? 0); [done|]. destruct (up m2) as [u2|]; [|done].
      pose proof (reslog_post_pack_log "restart"
                    [("ranks", idset_encode (idset_range 0 (Z.to_nat (size m2))));
                     ("online", idset_encode u2); ("nodelist", hl)] h) as H.
      destruct (reslog_post_pack _ _ h) as [rc h'].
      by destruct H as [(_ & _ & ?)|(_ & _ & ?)]. }
    destruct (monitor_force_up cfg).
    - specialize (Hp (set_up
                        (Some (idset_range 0
                                 (Z.to_nat (if ctx_size c <? inventory_size
                                            then inventory_size
                                            else ctx_size c))))
                        (Mon 0 (if ctx_size c <? inventory_size
                                then inventory_size else ctx_size c)
                           (Some ∅) (Some ∅) None (Some ∅) (Some [])))).
      destruct (post_restart_event c _ h) as [rc h'].
      destruct (rc <? 0); [done|]. by injection Hc as <- _ <-.
    - specialize (Hp (Mon 0 (if ctx_size c <? inventory_size
                             then inventory_size else ctx_size c)
                        (Some ∅) (Some ∅) None (Some ∅) (Some []))).
      destruct (attr_recovery_mode c);
        destruct (post_restart_event c _ h) as [rc h'];
        destruct (rc <? 0); try done; by injection Hc as <- _ <-. }
  destruct H0 as [Hr0 R0].
  destruct (run_requests ins m h1 [] Hok Hr0) as (rs & reqs & R & W & P).
  exists rs, reqs. by rewrite R, R0.
Qed.

Lemma every_request_is_answered_once_or_deferred_witness :
  ∃ rs reqs,
    responses (run two_up_one_waiting leader_start flux_start).2
    = responses (flux0 []) ++ rs
    ∧ waitup_requests (run two_up_one_waiting leader_start flux_start).1
      = Some reqs
    ∧ map response_to rs ++ reqs ≡ₚ two_up_one_waiting ≫= request_of.
Proof.
  apply (every_request_is_answered_once_or_deferred ctx4 0
           (Config false false) (flux0 []) flux_start leader_start
           ["broker.online"; "broker.torpid"]).
  - vm_compute. reflexivity.
  - reflexivity.
Defined.

End MonitorSpec.

(* ===================================================================== *)
(** * Part IV: properties of the waitqueue                                 *)
(* ===================================================================== *)

Module WaitqueueSpec.
Import Waitqueue.
Local Open Scope Z_scope.

(** Split a conjunction into its parts, and nothing else. *)
Ltac conj_split := repeat match goal with |- _ ∧ _ => split end.

(** ** Counting *)

Lemma occ_app a l1 l2 : occ a (l1 ++ l2) = (occ a l1 + occ a l2)%nat.
Proof. induction l1 as [|x l1 IH]; simpl; [done|]. rewrite IH. lia. Qed.

Lemma occ_zero a l : occ a l = 0%nat ↔ a ∉ l.
Proof.
  induction l as [|x l IH]; simpl.
  - split; [intros _; apply not_elem_of_nil|done].
  - rewrite not_elem_of_cons. destruct (Nat.eqb_spec x a) as [->|Hne].
    + split; [lia|]. intros [? _]. done.
    + simpl. rewrite IH. split; [intros ?; split; [congruence|done]|].
      by intros [_ ?].
Qed.

Lemma occ_pos a l : (0 < occ a l)%nat ↔ a ∈ l.
Proof.
  destruct (decide (a ∈ l)) as [Hin|Hnin].
  - split; [done|]. intros _.
    destruct (occ a l) eqn:E; [|lia]. apply occ_zero in E. done.
  - split; [|done]. apply occ_zero in Hnin. lia.
Qed.

Lemma occ_rev a l : occ a (rev l) = occ a l.
Proof.
  induction l as [|x l IH]; simpl; [done|].
  rewrite occ_app, IH. simpl. lia.
Qed.

Lemma occ_remove_first a w l :
  occ a (remove_first w l) =
    if decide (a = w ∧ w ∈ l) then (occ a l - 1)%nat else occ a l.
Proof.
  induction l as [|x l IH]; simpl.
  - case_decide as H; [|done]. destruct H as [_ H]. by apply elem_of_nil in H.
  - destruct (Nat.eqb_spec x w) as [->|Hne].
    + destruct (Nat.eqb_spec w a) as [->|Hne'].
      * rewrite decide_True; [lia|]. split; [done|apply elem_of_cons; auto].
      * rewrite decide_False; [done|]. intros [? _]. congruence.
    + simpl. rewrite IH. destruct (Nat.eqb_spec x a) as [->|Hne'].
      * rewrite !decide_False; [done| |]; intros [? _]; congruence.
      * case_decide as H1; case_decide as H2; try done.
        -- exfalso. apply H2. destruct H1. split; [done|].
           apply elem_of_cons; auto.
        -- exfalso. apply H1. destruct H2 as [? H2]. split; [done|].
           apply elem_of_cons in H2 as [?|?]; [congruence|done].
Qed.

Lemma count_msgs_app s l1 l2 :
  count_msgs s (l1 ++ l2) = (count_msgs s l1 + count_msgs s l2)%nat.
Proof. induction l1 as [|x l1 IH]; simpl; [done|]. rewrite IH. lia. Qed.

Lemma count_msgs_ext s s' l :
  (∀ a, a ∈ l → bears_msg s' a = bears_msg s a) →
  count_msgs s' l = count_msgs s l.
Proof.
  induction l as [|x l IH]; simpl; [done|]. intros H.
  rewrite H by (apply elem_of_cons; auto).
  rewrite IH; [done|]. intros a Ha. apply H, elem_of_cons. auto.
Qed.

Lemma count_msgs_remove_first s w l :
  w ∈ l →
  count_msgs s l =
    ((if bears_msg s w then 1 else 0) + count_msgs s (remove_first w l))%nat.
Proof.
  induction l as [|x l IH]; simpl.
  - intros H. by apply elem_of_nil in H.
  - intros H. destruct (Nat.eqb_spec x w) as [->|Hne]; [done|].
    apply elem_of_cons in H as [?|H]; [congruence|].
    simpl. rewrite (IH H). lia.
Qed.

Lemma fire_count_app a t1 t2 :
  fire_count a (t1 ++ t2) = (fire_count a t1 + fire_count a t2)%nat.
Proof. induction t1 as [|e t1 IH]; simpl; [done|]. rewrite IH. lia. Qed.

(** ** Sums over the queues *)

Lemma qsum_empty f : qsum f ∅ = 0%nat.
Proof. unfold qsum. by rewrite map_fold_empty. Qed.

Lemma qsum_insert_fresh f (m : gmap qaddr waitqueue_struct) i x :
  m !! i = None → qsum f (<[i:=x]> m) = (f x + qsum f m)%nat.
Proof.
  intros H. unfold qsum. rewrite map_fold_insert_L; [done| |done].
  intros. lia.
Qed.

Lemma qsum_lookup f (m : gmap qaddr waitqueue_struct) i x :
  m !! i = Some x → qsum f m = (f x + qsum f (delete i m))%nat.
Proof.
  intros H. rewrite <- (insert_delete_id m i x H) at 1.
  apply qsum_insert_fresh, lookup_delete_eq.
Qed.

Lemma qsum_insert f (m : gmap qaddr waitqueue_struct) i x :
  qsum f (<[i:=x]> m) = (f x + qsum f (delete i m))%nat.
Proof.
  rewrite <- insert_delete_eq. apply qsum_insert_fresh, lookup_delete_eq.
Qed.

Lemma qsum_ext f g (m : gmap qaddr waitqueue_struct) :
  (∀ i x, m !! i = Some x → f x = g x) → qsum f m = qsum g m.
Proof.
  induction m as [|i x m Hi IH] using map_ind; intros H.
  - by rewrite !qsum_empty.
  - rewrite !qsum_insert_fresh by done.
    rewrite (H i x) by apply lookup_insert_eq.
    rewrite IH; [done|]. intros j y Hj. apply (H j y).
    rewrite lookup_insert_ne; [done|]. intros ->. congruence.
Qed.

Lemma qsum_zero f (m : gmap qaddr waitqueue_struct) i x :
  qsum f m = 0%nat → m !! i = Some x → f x = 0%nat.
Proof. intros Hz Hi. rewrite (qsum_lookup f m i x Hi) in Hz. lia. Qed.


(** ** The heap invariant under the elementary updates *)

Lemma bears_msg_store_wait s w wt a :
  bears_msg (store_wait w wt s) a =
    if decide (a = w) then has_msg wt else bears_msg s a.
Proof.
  unfold bears_msg. simpl. case_decide as H.
  - subst. by rewrite lookup_insert_eq.
  - by rewrite lookup_insert_ne.
Qed.

Lemma bears_msg_free_wait s w a :
  bears_msg (free_wait w s) a =
    if decide (a = w) then false else bears_msg s a.
Proof.
  unfold bears_msg. simpl. case_decide as H.
  - subst. by rewrite lookup_delete_eq.
  - by rewrite lookup_delete_ne.
Qed.

Lemma refs_store_queue s qa wq wq' a :
  queues s !! qa = Some wq →
  (refs (store_queue qa wq' s) a + occ a (q wq) = refs s a + occ a (q wq'))%nat.
Proof.
  intros H. unfold refs. simpl. rewrite qsum_insert.
  rewrite (qsum_lookup _ (queues s) qa wq H). lia.
Qed.

Lemma refs_same_list s qa wq wq' a :
  queues s !! qa = Some wq → q wq' = q wq →
  refs (store_queue qa wq' s) a = refs s a.
Proof.
  intros H E. pose proof (refs_store_queue s qa wq wq' a H) as R.
  rewrite E in R. lia.
Qed.

Lemma refs_store_fresh_queue s qa wq' a :
  queues s !! qa = None →
  refs (store_queue qa wq' s) a = (occ a (q wq') + refs s a)%nat.
Proof. intros H. unfold refs. simpl. by rewrite qsum_insert_fresh. Qed.

Lemma refs_free_queue s qa wq a :
  queues s !! qa = Some wq →
  (refs (free_queue qa s) a + occ a (q wq) = refs s a)%nat.
Proof.
  intros H. unfold refs. simpl.
  rewrite (qsum_lookup _ (queues s) qa wq H). lia.
Qed.

Lemma refs_zero_not_in s a qa wq :
  refs s a = 0%nat → queues s !! qa = Some wq → a ∉ q wq.
Proof.
  intros Hz Hq. apply occ_zero.
  apply (qsum_zero (λ wq, occ a (q wq)) (queues s) qa wq Hz Hq).
Qed.

(** Updates that leave the waits and the queues alone. *)
Lemma wf_pend_frame P k q0 s s' :
  waits s' = waits s → queues s' = queues s → (brk s ≤ brk s')%nat →
  wf_pend P k q0 s → wf_pend P k q0 s'.
Proof.
  intros Hw Hq Hb [H1 H2 H3 H4 H5]. constructor.
  - intros a. specialize (H1 a). unfold refs in *. by rewrite Hw, Hq.
  - intros qa wq Hq'. rewrite Hq in Hq'. rewrite (H2 qa wq Hq').
    rewrite (count_msgs_ext s s'); [done|].
    intros a _. unfold bears_msg. by rewrite Hw.
  - intros a. rewrite Hw. intros Ha. specialize (H3 a Ha). lia.
  - intros a. rewrite Hq. intros Ha. specialize (H4 a Ha). lia.
  - intros a wt. rewrite Hw. apply H5.
Qed.

Lemma wf_pend_brk P k q0 s b :
  (brk s ≤ b)%nat → wf_pend P k q0 s → wf_pend P k q0 (set_brk b s).
Proof. intros Hb. by apply wf_pend_frame. Qed.

Lemma wf_pend_nil_any q1 q2 s : wf_pend [] 0 q1 s → wf_pend [] 0 q2 s.
Proof.
  intros [H1 H2 H3 H4 H5]. constructor; try done.
  intros qa wq Hq. rewrite (H2 qa wq Hq).
  by destruct (Nat.eqb qa q1), (Nat.eqb qa q2).
Qed.

(** A pending entry is allocated and holds a reference. *)
Lemma wf_pend_head w R k q0 s :
  wf_pend (w :: R) k q0 s →
  ∃ wt, waits s !! w = Some wt
        ∧ usecount wt = Z.of_nat (refs s w + occ w R) + 1.
Proof.
  intros H. pose proof (wf_ref _ _ _ _ H w) as Hw. simpl in Hw.
  rewrite Nat.eqb_refl in Hw.
  destruct (waits s !! w) as [wt|]; [|lia]. exists wt. split; [done|]. lia.
Qed.

(** Storing a wait with another use count or handler: the references it
    accounts for must be the ones that exist. *)
Lemma wf_store_wait P P' k q0 s w wt wt' :
  wf_pend P k q0 s → waits s !! w = Some wt →
  hand_msg wt' = hand_msg wt → cb wt' = cb wt →
  (∀ a, a ≠ w → occ a P' = occ a P) →
  usecount wt' = Z.of_nat (refs s w + occ w P') →
  wf_pend P' k q0 (store_wait w wt' s).
Proof.
  intros [H1 H2 H3 H4 H5] Hw Hm Hc HP Hu.
  assert (Hb : ∀ a, bears_msg (store_wait w wt' s) a = bears_msg s a).
  { intros a. rewrite bears_msg_store_wait. case_decide; [|done].
    subst. unfold bears_msg, has_msg. by rewrite Hw, Hm. }
  constructor.
  - intros a. simpl. destruct (decide (a = w)) as [->|Hne].
    + rewrite lookup_insert_eq. exact Hu.
    + rewrite lookup_insert_ne by done. specialize (H1 a).
      unfold refs in *. simpl. by rewrite HP.
  - intros qa wq Hq. simpl in Hq. rewrite (H2 qa wq Hq).
    by rewrite (count_msgs_ext s (store_wait w wt' s)).
  - intros a. simpl. destruct (decide (a = w)) as [->|Hne].
    + intros _. apply H3. by rewrite Hw.
    + rewrite lookup_insert_ne by done. apply H3.
  - done.
  - intros a wt0. simpl. destruct (decide (a = w)) as [->|Hne].
    + rewrite lookup_insert_eq. intros [= <-]. rewrite Hm, Hc.
      apply (H5 w wt Hw).
    + rewrite lookup_insert_ne by done. apply H5.
Qed.

(** Freeing a wait nothing refers to. *)
Lemma wf_free_wait P P' k q0 s w :
  wf_pend P k q0 s →
  (∀ a, a ≠ w → occ a P' = occ a P) →
  (refs s w + occ w P' = 0)%nat →
  wf_pend P' k q0 (free_wait w s).
Proof.
  intros [H1 H2 H3 H4 H5] HP Hz. constructor.
  - intros a. simpl. destruct (decide (a = w)) as [->|Hne].
    + rewrite lookup_delete_eq. exact Hz.
    + rewrite lookup_delete_ne by done. specialize (H1 a).
      unfold refs in *. simpl. by rewrite HP.
  - intros qa wq Hq. simpl in Hq. rewrite (H2 qa wq Hq).
    rewrite (count_msgs_ext s (free_wait w s)); [done|].
    intros a Ha. rewrite bears_msg_free_wait. case_decide; [|done]. subst.
    exfalso. apply (refs_zero_not_in s w qa wq); [lia|done|done].
  - intros a. simpl. destruct (decide (a = w)) as [->|Hne].
    + rewrite lookup_delete_eq. by intros [? ?].
    + rewrite lookup_delete_ne by done. apply H3.
  - done.
  - intros a wt0. simpl. destruct (decide (a = w)) as [->|Hne].
    + by rewrite lookup_delete_eq.
    + rewrite lookup_delete_ne by done. apply H5.
Qed.


(** Storing a wait that nothing refers to (a new one, or one not yet
    queued). *)
Lemma wf_store_unreferenced P k q0 s w wt' :
  wf_pend P k q0 s → (w < brk s)%nat →
  (refs s w + occ w P = 0)%nat →
  usecount wt' = 0 → (is_Some (hand_msg wt') → cb wt' = None) →
  wf_pend P k q0 (store_wait w wt' s).
Proof.
  intros [H1 H2 H3 H4 H5] Hb Hz Hu Hs. constructor.
  - intros a. simpl. destruct (decide (a = w)) as [->|Hne].
    + rewrite lookup_insert_eq. unfold refs in *. simpl. lia.
    + rewrite lookup_insert_ne by done. apply H1.
  - intros qa wq Hq. simpl in Hq. rewrite (H2 qa wq Hq).
    rewrite (count_msgs_ext s (store_wait w wt' s)); [done|].
    intros a Ha. rewrite bears_msg_store_wait. case_decide; [|done]. subst.
    exfalso. apply (refs_zero_not_in s w qa wq); [lia|done|done].
  - intros a. simpl. destruct (decide (a = w)) as [->|Hne]; [done|].
    rewrite lookup_insert_ne by done. apply H3.
  - done.
  - intros a wt0. simpl. destruct (decide (a = w)) as [->|Hne].
    + rewrite lookup_insert_eq. by intros [= <-].
    + rewrite lookup_insert_ne by done. apply H5.
Qed.

Lemma wf_unreferenced P k q0 s w :
  wf_pend P k q0 s →
  (waits s !! w = None ∨ ∃ wt, waits s !! w = Some wt ∧ usecount wt = 0) →
  (refs s w + occ w P = 0)%nat.
Proof.
  intros H Hw. pose proof (wf_ref _ _ _ _ H w) as Hr.
  destruct Hw as [Hw|(wt & Hw & Hu)]; rewrite Hw in Hr; lia.
Qed.

(** Replacing the list or the counter of a queue, with the entries that
    leave the list going to the pending ones. *)
Lemma wf_store_queue P P' k k' q0 s qa wq wq' :
  wf_pend P k q0 s → queues s !! qa = Some wq →
  (∀ a, occ a (q wq') + occ a P' = occ a (q wq) + occ a P)%nat →
  msgs_on_queue wq' =
    Z.of_nat (count_msgs s (q wq') + if Nat.eqb qa q0 then k' else 0) →
  (k' = k ∨ qa = q0) →
  wf_pend P' k' q0 (store_queue qa wq' s).
Proof.
  intros [H1 H2 H3 H4 H5] Hq Ho Hm Hk. constructor.
  - intros a. simpl. specialize (H1 a). specialize (Ho a).
    pose proof (refs_store_queue s qa wq wq' a Hq) as Hr.
    destruct (waits s !! a); lia.
  - intros qa' wq0. simpl. destruct (decide (qa' = qa)) as [->|Hne].
    + rewrite lookup_insert_eq. intros [= <-]. rewrite Hm.
      by rewrite (count_msgs_ext s (store_queue qa wq' s)).
    + rewrite lookup_insert_ne by done. intros Hq0.
      rewrite (H2 qa' wq0 Hq0).
      rewrite (count_msgs_ext s (store_queue qa wq' s)) by done.
      destruct Hk as [-> | ->]; [done|].
      destruct (Nat.eqb_spec qa' q0); [done|]. done.
  - done.
  - intros qa'. simpl. destruct (decide (qa' = qa)) as [->|Hne].
    + intros _. apply H4. by rewrite Hq.
    + rewrite lookup_insert_ne by done. apply H4.
  - done.
Qed.

(** The two stores of [wait_addqueue]. *)
Lemma wf_addqueue P k q0 s qa w wq wt :
  wf_pend P k q0 s → queues s !! qa = Some wq → waits s !! w = Some wt →
  wf_pend P k q0
    (store_queue qa
       (Queue (q wq ++ [w])
          (if has_msg wt then msgs_on_queue wq + 1 else msgs_on_queue wq))
       (store_wait w (set_usecount (usecount wt + 1) wt) s)).
Proof.
  intros H Hq Hw. pose proof H as [H1 H2 H3 H4 H5].
  set (s1 := store_wait w (set_usecount (usecount wt + 1) wt) s).
  assert (Hb : ∀ a, bears_msg s1 a = bears_msg s a).
  { intros a. unfold s1. rewrite bears_msg_store_wait. case_decide; [|done].
    subst. unfold bears_msg. by rewrite Hw. }
  assert (Hcm : ∀ s2 l, waits s2 = waits s1 → count_msgs s2 l = count_msgs s l).
  { intros s2 l E. apply count_msgs_ext. intros a _. rewrite <- Hb.
    unfold bears_msg. by rewrite E. }
  constructor.
  - intros a. simpl.
    pose proof (refs_store_queue s1 qa wq
                  (Queue (q wq ++ [w])
                     (if has_msg wt then msgs_on_queue wq + 1
                      else msgs_on_queue wq)) a Hq) as Hr.
    simpl in Hr. rewrite occ_app in Hr. simpl in Hr.
    assert (refs s1 a = refs s a) as Hrs by done. rewrite Hrs in Hr.
    specialize (H1 a). destruct (decide (a = w)) as [->|Hne].
    + rewrite lookup_insert_eq. simpl. rewrite Hw in H1.
      rewrite Nat.eqb_refl in Hr. lia.
    + rewrite lookup_insert_ne by done.
      destruct (Nat.eqb_spec w a) as [->|_]; [done|].
      destruct (waits s !! a); lia.
  - intros qa' wq0. simpl. destruct (decide (qa' = qa)) as [->|Hne].
    + rewrite lookup_insert_eq. intros [= <-]. simpl.
      rewrite Hcm by done. rewrite count_msgs_app. simpl.
      specialize (H2 qa wq Hq). unfold bears_msg. rewrite Hw.
      destruct (has_msg wt); lia.
    + rewrite lookup_insert_ne by done. intros Hq0.
      rewrite Hcm by done. apply (H2 qa' wq0 Hq0).
  - intros a. simpl. destruct (decide (a = w)) as [->|Hne].
    + intros _. apply H3. by rewrite Hw.
    + rewrite lookup_insert_ne by done. apply H3.
  - intros qa'. simpl. destruct (decide (qa' = qa)) as [->|Hne].
    + intros _. apply H4. by rewrite Hq.
    + rewrite lookup_insert_ne by done. apply H4.
  - intros a wt0. simpl. destruct (decide (a = w)) as [->|Hne].
    + rewrite lookup_insert_eq. intros [= <-]. simpl. apply (H5 w wt Hw).
    + rewrite lookup_insert_ne by done. apply H5.
Qed.

(** A new, empty queue. *)
Lemma wf_new_queue s :
  wf s → wf (set_brk (S (brk s)) (store_queue (brk s) (Queue [] 0) s)).
Proof.
  intros [H1 H2 H3 H4 H5].
  assert (Hf : queues s !! brk s = None).
  { destruct (queues s !! brk s) eqn:E; [|done].
    assert (brk s < brk s)%nat by (apply H4; by rewrite E). lia. }
  constructor.
  - intros a. simpl. specialize (H1 a).
    pose proof (refs_store_fresh_queue s (brk s) (Queue [] 0) a Hf) as Hr.
    simpl in Hr.
    assert (refs (set_brk (S (brk s)) (store_queue (brk s) (Queue [] 0) s)) a
            = refs s a) as -> by done.
    done.
  - intros qa wq. simpl. destruct (decide (qa = brk s)) as [->|Hne].
    + rewrite lookup_insert_eq. intros [= <-]. simpl.
      by destruct (Nat.eqb (brk s) 0).
    + rewrite lookup_insert_ne by done. intros Hq. rewrite (H2 qa wq Hq).
      by rewrite (count_msgs_ext s
                    (set_brk (S (brk s)) (store_queue (brk s) (Queue [] 0) s))).
  - intros a Ha. simpl in *. specialize (H3 a Ha). lia.
  - intros qa. simpl. destruct (decide (qa = brk s)) as [->|Hne]; [lia|].
    rewrite lookup_insert_ne by done. intros Ha. specialize (H4 qa Ha). lia.
  - done.
Qed.


(** ** Creating and enqueueing *)

Lemma alloc_fails_frame s :
  waits (alloc_fails s).2 = waits s ∧ queues (alloc_fails s).2 = queues s
  ∧ brk (alloc_fails s).2 = brk s ∧ trace (alloc_fails s).2 = trace s.
Proof. unfold alloc_fails. by destruct (oom s). Qed.

Lemma extends_refl b s : extends_from b s s.
Proof.
  constructor; try done. intros qa. destruct (queues s !! qa) as [wq|]; [|done].
  exists wq, []. rewrite app_nil_r. split; [done|]. split; [done|].
  intros x Hx. by apply elem_of_nil in Hx.
Qed.

Lemma extends_trans b s1 s2 s3 :
  extends_from b s1 s2 → extends_from b s2 s3 → extends_from b s1 s3.
Proof.
  intros [A1 A2 A3 A4] [B1 B2 B3 B4]. constructor.
  - lia.
  - intros a Ha. rewrite B2, A2; done.
  - intros qa. specialize (A3 qa). specialize (B3 qa).
    destruct (queues s1 !! qa) as [wq|].
    + destruct A3 as (wq2 & n2 & E2 & L2 & N2). rewrite E2 in B3.
      destruct B3 as (wq3 & n3 & E3 & L3 & N3).
      exists wq3, (n2 ++ n3). split; [done|]. split.
      * by rewrite L3, L2, app_assoc.
      * intros x Hx. apply elem_of_app in Hx as [Hx|Hx]; auto.
    + by rewrite A3 in B3.
  - congruence.
Qed.

Lemma extends_frame b s s' :
  waits s' = waits s → queues s' = queues s → (brk s ≤ brk s')%nat →
  trace s' = trace s → extends_from b s s'.
Proof.
  intros Hw Hq Hb Ht. constructor; try done.
  - intros a _. by rewrite Hw.
  - intros qa. rewrite Hq. destruct (queues s !! qa) as [wq|]; [|done].
    exists wq, []. rewrite app_nil_r. split; [done|]. split; [done|].
    intros x Hx. by apply elem_of_nil in Hx.
Qed.

(** [wait_create] and [wait_create_msg_handler]: the new wait has the
    next address and no reference. *)
Lemma wait_create_spec P k q0 c s b :
  wf_pend P k q0 s → (b ≤ brk s)%nat →
  wf_pend P k q0 (wait_create c s).2
  ∧ extends_from b s (wait_create c s).2
  ∧ match (wait_create c s).1 with
    | Some w => w = brk s ∧ (brk s < brk (wait_create c s).2)%nat
                ∧ waits (wait_create c s).2 !! w = Some (Wait 0 c None None)
    | None => True
    end.
Proof.
  intros H Hb. unfold wait_create.
  pose proof (alloc_fails_frame s) as (Fw & Fq & Fb & Ft).
  destruct (alloc_fails s) as [fails s1]. simpl in *.
  assert (H1 : wf_pend P k q0 s1) by (apply (wf_pend_frame P k q0 s); [done..|lia|done]).
  destruct fails; simpl.
  - split; [|split; [|done]].
    + by apply (wf_pend_frame P k q0 s1).
    + apply extends_frame; simpl; try done. lia.
  - assert (Hd : waits s1 !! brk s1 = None).
    { destruct (waits s1 !! brk s1) eqn:E; [|done].
      assert (brk s1 < brk s1)%nat
        by (apply (wf_brk_w _ _ _ _ H1); by rewrite E). lia. }
    split; [|split].
    + apply (wf_store_unreferenced P k q0 (set_brk (S (brk s1)) s1));
        simpl; try done; try lia.
      * apply wf_pend_brk; [lia|done].
      * apply (wf_unreferenced P k q0 s1); auto.
    + constructor; simpl; try done; try lia.
      * intros a Ha. rewrite lookup_insert_ne by lia. by rewrite Fw.
      * intros qa. rewrite Fq. destruct (queues s !! qa) as [wq|]; [|done].
        exists wq, []. rewrite app_nil_r. split; [done|]. split; [done|].
        intros x Hx. by apply elem_of_nil in Hx.
    + rewrite Fb. split; [done|]. split; [lia|]. by rewrite <- Fb, lookup_insert_eq.
Qed.

Lemma wait_create_msg_handler_spec P k q0 m c s b :
  wf_pend P k q0 s → (b ≤ brk s)%nat →
  wf_pend P k q0 (wait_create_msg_handler m c s).2
  ∧ extends_from b s (wait_create_msg_handler m c s).2
  ∧ match (wait_create_msg_handler m c s).1 with
    | Some w => w = brk s ∧ (brk s < brk (wait_create_msg_handler m c s).2)%nat
                ∧ waits (wait_create_msg_handler m c s).2 !! w
                  = Some (Wait 0 None c m)
    | None => True
    end.
Proof.
  intros H Hb. unfold wait_create_msg_handler.
  pose proof (wait_create_spec P k q0 None s b H Hb) as (W & E & R).
  destruct (wait_create None s) as [[w|] s1]; simpl in *; [|done].
  destruct R as (-> & Hlt & Hw).
  split; [|split].
  - apply wf_store_unreferenced; try done.
    apply (wf_unreferenced P k q0 s1); [done|]. right. by eexists.
  - destruct E as [E1 E2 E3 E4]. constructor; simpl; try done.
    intros a Ha. rewrite lookup_insert_ne by lia. by apply E2.
  - split; [done|]. split; [done|]. by rewrite lookup_insert_eq.
Qed.

(** [wait_addqueue] on an allocated queue and wait returns, and keeps
    the invariant. *)
Lemma wait_addqueue_spec P k q0 qa w s wq wt :
  wf_pend P k q0 s → queues s !! qa = Some wq → waits s !! w = Some wt →
  ∃ rc s', wait_addqueue qa w s = Some (rc, s') ∧ wf_pend P k q0 s'
    ∧ trace s' = trace s ∧ brk s' = brk s
    ∧ ((rc = -1 ∧ errno s' = ENOMEM ∧ waits s' = waits s ∧ queues s' = queues s)
       ∨ (rc = 0
          ∧ waits s' = <[w := set_usecount (usecount wt + 1) wt]> (waits s)
          ∧ queues s' =
              <[qa := Queue (q wq ++ [w])
                        (if has_msg wt then msgs_on_queue wq + 1
                         else msgs_on_queue wq)]> (queues s))).
Proof.
  intros H Hq Hw. unfold wait_addqueue. rewrite Hq, Hw.
  pose proof (alloc_fails_frame s) as (Fw & Fq & Fb & Ft).
  destruct (alloc_fails s) as [fails s1]. simpl in *.
  assert (H1 : wf_pend P k q0 s1) by (apply (wf_pend_frame P k q0 s); [done..|lia|done]).
  destruct fails.
  - eexists _, _. split; [done|]. split.
    + by apply (wf_pend_frame P k q0 s1).
    + simpl. repeat split; auto.
  - eexists _, _. split; [done|]. split.
    + apply wf_addqueue; [done| |]; congruence.
    + simpl. repeat split; auto. right. rewrite Fw, Fq. auto.
Qed.


(** ** User callbacks *)

Lemma wait_addqueue_extends b qa w s rc s' :
  (b ≤ w)%nat → wait_addqueue qa w s = Some (rc, s') →
  extends_from b s s' ∧ brk s' = brk s
  ∧ (is_Some (waits s !! w) → is_Some (waits s' !! w)).
Proof.
  intros Hb. unfold wait_addqueue.
  destruct (queues s !! qa) as [wq|] eqn:Hq; [|done].
  destruct (waits s !! w) as [wt|] eqn:Hw; [|done].
  pose proof (alloc_fails_frame s) as (Fw & Fq & Fb & Ft).
  destruct (alloc_fails s) as [fails s1]. simpl in *.
  destruct fails; intros [= <- <-]; simpl.
  - split; [|split; [done|]].
    + apply extends_frame; simpl; try done. lia.
    + by rewrite Fw, Hw.
  - split; [|split; [done|]].
    + constructor; simpl; try done; try lia.
      * intros a Ha. rewrite lookup_insert_ne by lia. by rewrite Fw.
      * intros qa'. rewrite Fq. destruct (decide (qa' = qa)) as [->|Hne].
        -- rewrite Hq, lookup_insert_eq. eexists _, [w]. split; [done|].
           split; [done|]. intros x Hx. apply list_elem_of_singleton in Hx.
           by subst.
        -- rewrite lookup_insert_ne by done.
           destruct (queues s !! qa') as [wq'|]; [|done].
           exists wq', []. rewrite app_nil_r. split; [done|].
           split; [done|]. intros x Hx. by apply elem_of_nil in Hx.
    + rewrite lookup_insert_eq. by eexists.
Qed.

Lemma add_to_queues_extends b qs w s :
  (b ≤ w)%nat →
  extends_from b s (add_to_queues qs w s)
  ∧ brk (add_to_queues qs w s) = brk s.
Proof.
  intros Hb. revert s. induction qs as [|qa rest IH]; intros s; simpl.
  - split; [apply extends_refl|done].
  - destruct (wait_addqueue qa w s) as [[rc s1]|] eqn:E; [|apply IH].
    destruct (wait_addqueue_extends b qa w s rc s1 Hb E) as (X & B & _).
    destruct (IH s1) as (X' & B'). split; [|congruence].
    by apply (extends_trans b s s1).
Qed.

Lemma wait_create_extends b c s :
  (b ≤ brk s)%nat →
  extends_from b s (wait_create c s).2
  ∧ match (wait_create c s).1 with
    | Some w => w = brk s ∧ (brk s < brk (wait_create c s).2)%nat
    | None => True
    end.
Proof.
  intros Hb. unfold wait_create.
  pose proof (alloc_fails_frame s) as (Fw & Fq & Fb & Ft).
  destruct (alloc_fails s) as [fails s1]. simpl in *. destruct fails; simpl.
  - split; [|done]. apply extends_frame; simpl; try done. lia.
  - split; [|rewrite Fb; split; [done|lia]].
    constructor; simpl; try done; try lia.
    + intros a Ha. rewrite lookup_insert_ne by lia. by rewrite Fw.
    + intros qa. rewrite Fq. destruct (queues s !! qa) as [wq|]; [|done].
      exists wq, []. rewrite app_nil_r. split; [done|]. split; [done|].
      intros x Hx. by apply elem_of_nil in Hx.
Qed.

Lemma wait_create_msg_handler_extends b m c s :
  (b ≤ brk s)%nat →
  extends_from b s (wait_create_msg_handler m c s).2
  ∧ match (wait_create_msg_handler m c s).1 with
    | Some w => w = brk s ∧ (brk s < brk (wait_create_msg_handler m c s).2)%nat
    | None => True
    end.
Proof.
  intros Hb. unfold wait_create_msg_handler.
  pose proof (wait_create_extends b None s Hb) as (E & R).
  destruct (wait_create None s) as [[w|] s1]; simpl in *; [|done].
  destruct R as (-> & Hlt). split; [|done].
  destruct E as [E1 E2 E3 E4]. constructor; simpl; try done.
  intros a Ha. rewrite lookup_insert_ne by lia. by apply E2.
Qed.

Lemma run_action_extends b a s :
  (b ≤ brk s)%nat → extends_from b s (run_action a s).
Proof.
  intros Hb. destruct a as [c qs|m c qs]; simpl.
  - pose proof (wait_create_extends b c s Hb) as (E & R).
    destruct (wait_create c s) as [[w|] s1]; simpl in *; [|done].
    destruct R as (-> & Hlt).
    apply (extends_trans b s s1); [done|].
    apply add_to_queues_extends. lia.
  - pose proof (wait_create_msg_handler_extends b m c s Hb) as (E & R).
    destruct (wait_create_msg_handler m c s) as [[w|] s1]; simpl in *; [|done].
    destruct R as (-> & Hlt).
    apply (extends_trans b s s1); [done|].
    apply add_to_queues_extends. lia.
Qed.

Lemma run_actions_extends b acts s :
  (b ≤ brk s)%nat → extends_from b s (run_actions acts s).
Proof.
  unfold run_actions. revert s.
  induction acts as [|a rest IH]; intros s Hb; simpl.
  - apply extends_refl.
  - pose proof (run_action_extends b a s Hb) as E.
    apply (extends_trans b s (run_action a s)); [done|].
    apply IH. pose proof (ext_brk _ _ _ E). lia.
Qed.

Lemma add_to_queues_wf P k q0 qs w s :
  wf_pend P k q0 s → is_Some (waits s !! w) →
  wf_pend P k q0 (add_to_queues qs w s).
Proof.
  revert s. induction qs as [|qa rest IH]; intros s H Hw; simpl; [done|].
  destruct (queues s !! qa) as [wq|] eqn:Hq.
  - destruct Hw as [wt Hw].
    destruct (wait_addqueue_spec P k q0 qa w s wq wt H Hq Hw)
      as (rc & s1 & E & W1 & _ & _ & Hc).
    rewrite E. apply IH; [done|].
    destruct Hc as [(_ & _ & -> & _)|(_ & -> & _)].
    + by rewrite Hw.
    + rewrite lookup_insert_eq. by eexists.
  - unfold wait_addqueue. rewrite Hq. by apply IH.
Qed.

Lemma run_action_wf P k q0 a s :
  wf_pend P k q0 s → wf_pend P k q0 (run_action a s).
Proof.
  intros H. destruct a as [c qs|m c qs]; simpl.
  - pose proof (wait_create_spec P k q0 c s 0 H ltac:(lia)) as (W & _ & R).
    destruct (wait_create c s) as [[w|] s1]; simpl in *; [|done].
    destruct R as (_ & _ & Hw). apply add_to_queues_wf; [done|].
    rewrite Hw. by eexists.
  - pose proof (wait_create_msg_handler_spec P k q0 m c s 0 H ltac:(lia))
      as (W & _ & R).
    destruct (wait_create_msg_handler m c s) as [[w|] s1]; simpl in *; [|done].
    destruct R as (_ & _ & Hw). apply add_to_queues_wf; [done|].
    rewrite Hw. by eexists.
Qed.

Lemma run_actions_wf P k q0 acts s :
  wf_pend P k q0 s → wf_pend P k q0 (run_actions acts s).
Proof.
  unfold run_actions. revert s.
  induction acts as [|a rest IH]; intros s H; simpl; [done|].
  apply IH. by apply run_action_wf.
Qed.

(** Freeing an old wait before or after a callback runs is the same. *)
Lemma alloc_fails_free w s :
  alloc_fails (free_wait w s) =
    ((alloc_fails s).1, free_wait w (alloc_fails s).2).
Proof. unfold alloc_fails. simpl. by destruct (oom s). Qed.

Lemma add_to_queues_free w qs w' s :
  w ≠ w' →
  add_to_queues qs w' (free_wait w s) = free_wait w (add_to_queues qs w' s).
Proof.
  intros Hne. revert s. induction qs as [|qa rest IH]; intros s; simpl; [done|].
  unfold wait_addqueue. simpl. rewrite lookup_delete_ne by done.
  destruct (queues s !! qa) as [wq|]; [|apply IH].
  destruct (waits s !! w') as [wt|]; [|apply IH].
  rewrite alloc_fails_free. destruct (alloc_fails s) as [fails s1]. simpl.
  destruct fails.
  - apply (IH (set_errno ENOMEM s1)).
  - rewrite <- IH. f_equal. unfold store_queue, store_wait, free_wait,
      set_queues, set_waits. simpl. f_equal.
    by rewrite delete_insert_ne.
Qed.

Lemma run_action_free w a s :
  (w < brk s)%nat →
  run_action a (free_wait w s) = free_wait w (run_action a s).
Proof.
  intros Hw. destruct a as [c qs|m c qs]; simpl.
  - unfold wait_create. rewrite alloc_fails_free.
    pose proof (alloc_fails_frame s) as (_ & _ & Fb & _).
    destruct (alloc_fails s) as [fails s1]. simpl in *.
    destruct fails; [done|]. simpl.
    rewrite <- add_to_queues_free by lia. f_equal.
    unfold store_wait, free_wait, set_brk, set_waits. simpl. f_equal.
    rewrite delete_insert_ne by lia. done.
  - unfold wait_create_msg_handler, wait_create. rewrite alloc_fails_free.
    pose proof (alloc_fails_frame s) as (_ & _ & Fb & _).
    destruct (alloc_fails s) as [fails s1]. simpl in *.
    destruct fails; [done|]. simpl.
    rewrite <- add_to_queues_free by lia. f_equal.
    unfold store_wait, free_wait, set_brk, set_waits. simpl. f_equal.
    rewrite !delete_insert_ne by lia. done.
Qed.

Lemma run_actions_free w acts s :
  (w < brk s)%nat →
  run_actions acts (free_wait w s) = free_wait w (run_actions acts s).
Proof.
  unfold run_actions. revert s.
  induction acts as [|a rest IH]; intros s Hw; simpl; [done|].
  rewrite run_action_free by done. apply IH.
  pose proof (ext_brk _ _ _ (run_action_extends 0 a s ltac:(lia))). lia.
Qed.


(** ** Dropping one reference *)

Lemma free_store_wait w wt s : free_wait w (store_wait w wt s) = free_wait w s.
Proof.
  unfold free_wait, store_wait, set_waits. simpl. by rewrite delete_insert_eq.
Qed.

(** [unref] on an allocated wait, without the detour through the store. *)
Lemma unref_eq w s wt :
  waits s !! w = Some wt →
  unref w s =
    Some (if usecount wt =? 1 then free_wait w s
          else store_wait w (set_usecount (usecount wt - 1) wt) s).
Proof.
  intros Hw. unfold unref. rewrite Hw.
  destruct (Z.eqb_spec (usecount wt - 1) 0) as [E|E].
  - unfold wait_destroy. simpl. rewrite lookup_insert_eq. simpl.
    rewrite E. simpl. rewrite free_store_wait.
    destruct (Z.eqb_spec (usecount wt) 1); [done|lia].
  - destruct (Z.eqb_spec (usecount wt) 1); [lia|done].
Qed.

(** [wait_runone] on an allocated wait: the callback runs on the heap
    from which the wait is already gone. *)
Lemma wait_runone_eq user w s wt :
  waits s !! w = Some wt → (w < brk s)%nat →
  wait_runone user w s =
    Some (if usecount wt =? 1 then
            match callback_of w wt with
            | Some (e, c) => run_actions (user c) (log e (free_wait w s))
            | None => free_wait w s
            end
          else store_wait w (set_usecount (usecount wt - 1) wt) s).
Proof.
  intros Hw Hb. unfold wait_runone. rewrite Hw.
  destruct (Z.eqb_spec (usecount wt - 1) 0) as [E|E];
    destruct (Z.eqb_spec (usecount wt) 1) as [E1|E1]; try lia; [|done].
  set (s1 := store_wait w (set_usecount (usecount wt - 1) wt) s).
  assert (Hfire : ∀ e c,
            wait_destroy w (run_actions (user c) (log e s1)) =
              Some (run_actions (user c) (log e (free_wait w s)))).
  { intros e c. unfold wait_destroy.
    pose proof (run_actions_extends (brk s) (user c) (log e s1) ltac:(done))
      as X.
    rewrite (ext_waits _ _ _ X w Hb). simpl. rewrite lookup_insert_eq. simpl.
    rewrite E. simpl.
    rewrite <- run_actions_free by done.
    by rewrite <- (free_store_wait w (set_usecount (usecount wt - 1) wt) s). }
  unfold callback_of. destruct (cb wt) as [c|]; [apply Hfire|].
  destruct (hand_cb wt) as [c|]; [apply Hfire|].
  unfold wait_destroy, s1. simpl. rewrite lookup_insert_eq. simpl. rewrite E.
  simpl. by rewrite free_store_wait.
Qed.

(** The invariant across the release of the first pending entry. *)
Lemma release_step w R k q0 s wt :
  wf_pend (w :: R) k q0 s → waits s !! w = Some wt →
  1 ≤ usecount wt
  ∧ wf_pend R k q0
      (if usecount wt =? 1 then free_wait w s
       else store_wait w (set_usecount (usecount wt - 1) wt) s)
  ∧ (usecount wt = 1 → w ∉ R).
Proof.
  intros H Hw. destruct (wf_pend_head w R k q0 s H) as (wt' & Hw' & Hu).
  rewrite Hw in Hw'. injection Hw' as <-.
  assert (Ho : ∀ a, a ≠ w → occ a R = occ a (w :: R)).
  { intros a Ha. simpl. destruct (Nat.eqb_spec w a); [congruence|done]. }
  split; [lia|]. split.
  - destruct (Z.eqb_spec (usecount wt) 1) as [E|E].
    + apply (wf_free_wait (w :: R)); [done|done|lia].
    + apply (wf_store_wait (w :: R) R k q0 s w wt); try done. simpl. lia.
  - intros E. apply occ_zero. lia.
Qed.

Lemma after_some k wt0 wt :
  after k wt0 = Some wt →
  usecount wt = usecount wt0 - Z.of_nat k ∧ cb wt = cb wt0
  ∧ hand_cb wt = hand_cb wt0 ∧ hand_msg wt = hand_msg wt0.
Proof.
  unfold after. destruct (Nat.eqb_spec k 0) as [->|Hk].
  - intros [= <-]. repeat split; lia.
  - destruct (usecount wt0 =? Z.of_nat k); [done|].
    intros [= <-]. simpl. repeat split; lia.
Qed.

Lemma after_succ k wt0 wt :
  after k wt0 = Some wt →
  after (S k) wt0 =
    if usecount wt =? 1 then None
    else Some (set_usecount (usecount wt - 1) wt).
Proof.
  intros H. destruct (after_some k wt0 wt H) as (Hu & Hc & Hh & Hm).
  unfold after at 1. simpl.
  destruct (Z.eqb_spec (usecount wt0) (Z.of_nat (S k)));
    destruct (Z.eqb_spec (usecount wt) 1); try lia; [done|].
  f_equal. destruct wt, wt0. simpl in *. subst. unfold set_usecount. simpl.
  f_equal. lia.
Qed.

Lemma after_callback k wt0 wt a :
  after k wt0 = Some wt → callback_of a wt = callback_of a wt0.
Proof.
  intros H. destruct (after_some k wt0 wt H) as (_ & Hc & Hh & Hm).
  unfold callback_of. by rewrite Hc, Hh, Hm.
Qed.


(** ** One turn of the loop of [wait_runqueue] *)

Lemma dec_msgs_step w R qa s wq wt :
  wf_pend (w :: R) (count_msgs s (w :: R)) qa s →
  queues s !! qa = Some wq → waits s !! w = Some wt →
  wf_pend (w :: R) (count_msgs s R) qa
    (if has_msg wt then store_queue qa (Queue (q wq) (msgs_on_queue wq - 1)) s
     else s).
Proof.
  intros H Hq Hw. simpl in H. unfold bears_msg in H. rewrite Hw in H.
  destruct (has_msg wt); [|done].
  apply (wf_store_queue (w :: R) (w :: R) (1 + count_msgs s R)%nat
           (count_msgs s R) qa s qa wq); try done.
  - simpl. rewrite (wf_msgs _ _ _ _ H qa wq Hq).
    rewrite Nat.eqb_refl. lia.
  - by right.
Qed.

Lemma runone_step user w R k q0 s wt b :
  wf_pend (w :: R) k q0 s → waits s !! w = Some wt →
  (b ≤ brk s)%nat → (w < b)%nat →
  ∃ s', wait_runone user w s = Some s' ∧ wf_pend R k q0 s'
    ∧ (brk s ≤ brk s')%nat
    ∧ (∀ a, (a < b)%nat →
         waits s' !! a =
           if decide (a = w) then
             if usecount wt =? 1 then None
             else Some (set_usecount (usecount wt - 1) wt)
           else waits s !! a)
    ∧ (∀ qa,
         match queues s !! qa with
         | Some wq =>
             ∃ wq' news, queues s' !! qa = Some wq' ∧ q wq' = q wq ++ news
                         ∧ ∀ x, x ∈ news → (b ≤ x)%nat
         | None => queues s' !! qa = None
         end)
    ∧ trace s' =
        trace s ++ (if usecount wt =? 1 then
                      match callback_of w wt with
                      | Some (e, _) => [e]
                      | None => []
                      end
                    else [])
    ∧ (usecount wt = 1 → w ∉ R).
Proof.
  intros H Hw Hb Hwb.
  rewrite (wait_runone_eq user w s wt Hw) by lia.
  destruct (release_step w R k q0 s wt H Hw) as (Hu & Hwf & Hnot).
  eexists. split; [done|].
  destruct (Z.eqb_spec (usecount wt) 1) as [E|E].
  - assert (X : ∀ s1, waits s1 = waits (free_wait w s) →
                queues s1 = queues s → brk s1 = brk s →
                wf_pend R k q0 s1 →
                ∀ acts, let s' := run_actions acts s1 in
                  wf_pend R k q0 s' ∧ (brk s ≤ brk s')%nat
                  ∧ (∀ a, (a < b)%nat →
                       waits s' !! a =
                         if decide (a = w) then None else waits s !! a)
                  ∧ (∀ qa,
                       match queues s !! qa with
                       | Some wq =>
                           ∃ wq' news, queues s' !! qa = Some wq'
                             ∧ q wq' = q wq ++ news
                             ∧ ∀ x, x ∈ news → (b ≤ x)%nat
                       | None => queues s' !! qa = None
                       end)
                  ∧ trace s' = trace s1).
    { intros s1 E1 E2 E3 W1 acts s'.
      pose proof (run_actions_extends b acts s1 ltac:(lia)) as [X1 X2 X3 X4].
      split; [by apply run_actions_wf|]. split; [fold s' in X1; lia|].
      split; [|split; [|done]].
      - intros a Ha. fold s' in X2. rewrite (X2 a Ha), E1. simpl.
        case_decide; [subst; by rewrite lookup_delete_eq|].
        by rewrite lookup_delete_ne.
      - intros qa. specialize (X3 qa). by rewrite E2 in X3. }
    destruct (callback_of w wt) as [[e c]|].
    + destruct (X (log e (free_wait w s)) eq_refl eq_refl eq_refl
                  ltac:(by apply (wf_pend_frame R k q0 (free_wait w s)))
                  (user c)) as (X1 & X2 & X3 & X4 & X5).
      split; [exact X1|]. split; [exact X2|]. split; [exact X3|].
      split; [exact X4|]. split; [exact X5|]. by auto.
    + destruct (X (free_wait w s) eq_refl eq_refl eq_refl Hwf [])
        as (X1 & X2 & X3 & X4 & X5).
      split; [exact X1|]. split; [exact X2|]. split; [exact X3|].
      split; [exact X4|]. split; [|by auto].
      simpl in X5. simpl. by rewrite app_nil_r.
  - split; [done|]. split; [done|]. split; [|split; [|split]].
    + intros a _. simpl. case_decide; [subst; by rewrite lookup_insert_eq|].
      by rewrite lookup_insert_ne.
    + intros qa. simpl. destruct (queues s !! qa) as [wq|]; [|done].
      exists wq, []. rewrite app_nil_r. split; [done|]. split; [done|].
      intros x Hx. by apply elem_of_nil in Hx.
    + simpl. by rewrite app_nil_r.
    + intros ?. lia.
Qed.


(** ** The loop of [wait_runqueue] *)

Lemma run_copy_spec user s0 qa wq0 :
  queues s0 !! qa = Some wq0 →
  ∀ R D s, run_inv s0 qa D R s →
  ∃ s', run_copy user qa R s = Some s'
        ∧ run_inv s0 qa (rev R ++ D) [] s'
        ∧ trace s' = trace s ++ run_events s0 D R.
Proof.
  intros Hq0. induction R as [|w R IH]; intros D s I.
  - exists s. simpl. by rewrite app_nil_r.
  - destruct I as [Hwf Hbrk Hwaits Hqueues Hold].
    assert (Hwb : (w < brk s0)%nat) by (apply Hold; left).
    destruct (wf_pend_head _ _ _ _ _ Hwf) as (wt & Hw & Hu).
    pose proof (Hwaits w Hwb) as Hw0. rewrite Hw in Hw0.
    destruct (waits s0 !! w) as [wt0|] eqn:Hws0; simpl in Hw0; [|done].
    symmetry in Hw0.
    pose proof (Hqueues qa) as Hqa. rewrite Hq0 in Hqa.
    destruct Hqa as (wq & news & Hq & Hl & Hn).
    simpl. rewrite Hw.
    pose proof (dec_msgs_step w R qa s wq wt Hwf Hq Hw) as Hwf1.
    remember (if has_msg wt
              then store_queue qa (Queue (q wq) (msgs_on_queue wq - 1)) s
              else s) as s1 eqn:Es1.
    assert (Hs1 : (if has_msg wt
                   then match queues s !! qa with
                        | Some wq =>
                            Some (store_queue qa
                                    (Queue (q wq) (msgs_on_queue wq - 1)) s)
                        | None => None
                        end
                   else Some s) = Some s1).
    { rewrite Es1, Hq. by destruct (has_msg wt). }
    rewrite Hs1.
    assert (Hw1 : waits s1 = waits s) by (rewrite Es1; by destruct (has_msg wt)).
    assert (Hb1 : brk s1 = brk s) by (rewrite Es1; by destruct (has_msg wt)).
    assert (Ht1 : trace s1 = trace s) by (rewrite Es1; by destruct (has_msg wt)).
    assert (Hq1 : ∀ qa',
              match queues s !! qa' with
              | Some x => ∃ x', queues s1 !! qa' = Some x' ∧ q x' = q x
              | None => queues s1 !! qa' = None
              end).
    { intros qa'. rewrite Es1. destruct (has_msg wt).
      - simpl. destruct (decide (qa' = qa)) as [->|Hne].
        + rewrite Hq, lookup_insert_eq. by eexists.
        + rewrite lookup_insert_ne by done.
          destruct (queues s !! qa'); [by eexists|done].
      - destruct (queues s !! qa'); [by eexists|done]. }
    destruct (runone_step user w R (count_msgs s R) qa s1 wt (brk s0))
      as (s2 & E2 & W2 & B2 & Wt2 & Q2 & T2 & N2);
      [done|by rewrite Hw1|lia|done|].
    rewrite E2.
    assert (I2 : run_inv s0 qa (w :: D) R s2).
    { constructor.
      - replace (count_msgs s2 R) with (count_msgs s R); [done|].
        symmetry. apply count_msgs_ext. intros a Ha.
        unfold bears_msg. rewrite (Wt2 a) by (apply Hold; by right).
        destruct (decide (a = w)) as [->|Hne]; [|by rewrite Hw1]. rewrite Hw.
        destruct (Z.eqb_spec (usecount wt) 1) as [E1|E1]; [|done].
        exfalso. by apply (N2 E1).
      - lia.
      - intros a Ha. rewrite (Wt2 a Ha).
        destruct (decide (a = w)) as [->|Haw].
        + rewrite Hws0. simpl. rewrite Nat.eqb_refl. simpl.
          by rewrite (after_succ _ _ _ Hw0).
        + rewrite Hw1, (Hwaits a Ha). simpl.
          destruct (Nat.eqb_spec w a); [congruence|done].
      - intros qa'. specialize (Hqueues qa'). specialize (Hq1 qa').
        specialize (Q2 qa').
        destruct (queues s0 !! qa') as [wqx|].
        + destruct Hqueues as (wq' & news' & Hq' & Hl' & Hn').
          rewrite Hq' in Hq1. destruct Hq1 as (x' & Hx' & Hlx).
          rewrite Hx' in Q2. destruct Q2 as (wq2 & news2 & Hq2 & Hl2 & Hn2).
          exists wq2, (news' ++ news2). split; [done|]. split.
          * by rewrite Hl2, Hlx, Hl', app_assoc.
          * intros x Hx. apply elem_of_app in Hx as [Hx|Hx]; auto.
        + rewrite Hqueues in Hq1. by rewrite Hq1 in Q2.
      - intros x Hx. apply Hold. by right. }
    destruct (IH (w :: D) s2 I2) as (s' & E' & I' & T').
    exists s'. split; [done|]. split.
    + simpl. by rewrite <- app_assoc.
    + rewrite T', T2, Ht1. simpl. rewrite Hws0, <- app_assoc.
      f_equal. f_equal.
      destruct (after_some _ _ _ Hw0) as (Hu0 & _).
      rewrite (after_callback _ _ _ w Hw0).
      destruct (Z.eqb_spec (usecount wt) 1);
        destruct (Z.eqb_spec (usecount wt0) (Z.of_nat (occ w D) + 1));
        try lia; done.
Qed.


(** ** [wait_runqueue] *)

Lemma wf_live w P k q0 s :
  wf_pend P k q0 s → (0 < refs s w + occ w P)%nat →
  ∃ wt, waits s !! w = Some wt ∧ 1 ≤ usecount wt ∧ (w < brk s)%nat.
Proof.
  intros H Hpos. pose proof (wf_ref _ _ _ _ H w) as Hr.
  destruct (waits s !! w) as [wt|] eqn:Hw; [|lia].
  exists wt. split; [done|]. split; [lia|].
  apply (wf_brk_w _ _ _ _ H). by rewrite Hw.
Qed.

Lemma wf_queued_live w P k q0 s qa wq :
  wf_pend P k q0 s → queues s !! qa = Some wq → w ∈ q wq →
  ∃ wt, waits s !! w = Some wt ∧ 1 ≤ usecount wt ∧ (w < brk s)%nat.
Proof.
  intros H Hq Hin. apply (wf_live w P k q0 s H).
  unfold refs. rewrite (qsum_lookup _ (queues s) qa wq Hq).
  apply occ_pos in Hin. lia.
Qed.

Lemma bind_after_0 (o : option wait_struct) : o ≫= after 0 = o.
Proof. by destruct o. Qed.

(** The heap after the copy is made and the queue purged. *)
Lemma run_inv_start s qa wq :
  wf s → queues s !! qa = Some wq →
  run_inv s qa [] (q wq)
    (store_queue qa (Queue [] (msgs_on_queue wq)) (alloc_fails s).2).
Proof.
  intros H Hq.
  pose proof (alloc_fails_frame s) as (Fw & Fq & Fb & Ft).
  set (s1 := (alloc_fails s).2) in *.
  assert (H1 : wf_pend [] 0 qa s1).
  { apply (wf_pend_frame [] 0 qa s); [done..|lia|].
    by apply (wf_pend_nil_any 0). }
  assert (Hq1 : queues s1 !! qa = Some wq) by (by rewrite Fq).
  set (s2 := store_queue qa (Queue [] (msgs_on_queue wq)) s1).
  assert (Hc : ∀ l, count_msgs s2 l = count_msgs s1 l).
  { intros l. by apply count_msgs_ext. }
  constructor.
  - rewrite Hc.
    apply (wf_store_queue [] (q wq) 0 (count_msgs s1 (q wq)) qa s1 qa wq);
      try done.
    + simpl. rewrite Nat.eqb_refl.
      rewrite (wf_msgs _ _ _ _ H1 qa wq Hq1), Nat.eqb_refl. lia.
    + by right.
  - simpl. lia.
  - intros a _. simpl. by rewrite bind_after_0, Fw.
  - intros qa'. simpl. rewrite Fq. destruct (decide (qa' = qa)) as [->|Hne].
    + rewrite Hq, lookup_insert_eq. exists (Queue [] (msgs_on_queue wq)), [].
      split; [done|]. split; [done|]. intros x Hx. by apply elem_of_nil in Hx.
    + rewrite lookup_insert_ne by done.
      destruct (queues s !! qa') as [wq'|]; [|done].
      exists wq', []. rewrite app_nil_r. split; [done|]. split; [done|].
      intros x Hx. by apply elem_of_nil in Hx.
  - intros x Hx.
    by destruct (wf_queued_live x [] 0 0 s qa wq H Hq Hx) as (? & _ & _ & ?).
Qed.

Lemma wait_runqueue_spec user s qa wq :
  wf s → queues s !! qa = Some wq →
  (q wq = [] → wait_runqueue user qa s = Some (0, s))
  ∧ (q wq ≠ [] → (alloc_fails s).1 = true →
     wait_runqueue user qa s = Some (-1, set_errno ENOMEM (alloc_fails s).2))
  ∧ (q wq ≠ [] → (alloc_fails s).1 = false →
     ∃ s', wait_runqueue user qa s = Some (0, s')
           ∧ run_inv s qa (rev (q wq)) [] s'
           ∧ trace s' = trace s ++ run_events s [] (q wq)).
Proof.
  intros H Hq. unfold wait_runqueue. rewrite Hq.
  split; [|split].
  - intros ->. done.
  - intros Hne Hf. destruct (q wq) eqn:E; [done|]. simpl.
    destruct (alloc_fails s) as [fails s1]. simpl in *. by subst.
  - intros Hne Hf.
    pose proof (run_inv_start s qa wq H Hq) as I.
    destruct (run_copy_spec user s qa wq Hq (q wq) [] _ I) as (s' & E & I' & T).
    rewrite app_nil_r in I'.
    assert (Hlt : Nat.ltb 0 (length (q wq)) = true).
    { destruct (q wq); [done|]. done. }
    rewrite Hlt. pose proof (alloc_fails_frame s) as (_ & _ & _ & Ft).
    destruct (alloc_fails s) as [fails s1]. simpl in *. subst fails.
    rewrite E. exists s'. split; [done|]. split; [done|].
    by rewrite T, Ft.
Qed.

Lemma run_inv_wf s0 qa D s : run_inv s0 qa D [] s → wf s.
Proof. intros [H _ _ _ _]. simpl in H. by apply (wf_pend_nil_any qa). Qed.


(** ** How operations change the waits already there *)

Lemma evolves_refl s : evolves s s.
Proof. constructor; [done|]. intros a wt' _ H. exists wt'. auto. Qed.

Lemma evolves_trans s1 s2 s3 : evolves s1 s2 → evolves s2 s3 → evolves s1 s3.
Proof.
  intros [A1 A2] [B1 B2]. constructor; [lia|].
  intros a wt3 Ha H3.
  destruct (B2 a wt3 ltac:(lia) H3) as (wt2 & H2 & C2 & M2 & Hh2).
  destruct (A2 a wt2 Ha H2) as (wt1 & H1 & C1 & M1 & Hh1).
  exists wt1. split; [done|]. split; [congruence|]. split; [congruence|].
  destruct Hh2 as [Hh2|Hh2]; [|by right].
  destruct Hh1 as [Hh1|Hh1]; [left|right]; congruence.
Qed.

Lemma evolves_same_waits s s' :
  waits s' = waits s → (brk s ≤ brk s')%nat → evolves s s'.
Proof.
  intros Hw Hb. constructor; [done|]. intros a wt' _. rewrite Hw. intros H.
  exists wt'. auto.
Qed.

Lemma evolves_pointwise s s' :
  (brk s ≤ brk s')%nat →
  (∀ a, (a < brk s)%nat →
     waits s' !! a = None
     ∨ ∃ wt wt', waits s !! a = Some wt ∧ waits s' !! a = Some wt'
         ∧ cb wt' = cb wt ∧ hand_msg wt' = hand_msg wt
         ∧ (hand_cb wt' = hand_cb wt ∨ hand_cb wt' = None)) →
  evolves s s'.
Proof.
  intros Hb H. constructor; [done|]. intros a wt' Ha Hw'.
  destruct (H a Ha) as [Hn|(wt & wt2 & H1 & H2 & ?)]; [congruence|].
  rewrite H2 in Hw'. injection Hw' as <-. by exists wt.
Qed.

Lemma evolves_extends s s' : extends_from (brk s) s s' → evolves s s'.
Proof.
  intros [E1 E2 E3 E4]. constructor; [done|]. intros a wt' Ha.
  rewrite (E2 a Ha). intros H. exists wt'. auto.
Qed.

Lemma evolves_after s s' D :
  (brk s ≤ brk s')%nat →
  (∀ a, (a < brk s)%nat → waits s' !! a = waits s !! a ≫= after (occ a D)) →
  evolves s s'.
Proof.
  intros Hb H. constructor; [done|]. intros a wt' Ha. rewrite (H a Ha).
  destruct (waits s !! a) as [wt|]; simpl; [|done]. intros Hf.
  destruct (after_some _ _ _ Hf) as (_ & ? & ? & ?). exists wt. auto.
Qed.

(** ** [wait_queue_destroy] and [wait_destroy] *)

Lemma unref_all_spec s0 k q0 :
  ∀ R D s, wf_pend R k q0 s →
    (∀ a, waits s !! a = waits s0 !! a ≫= after (occ a D)) →
    ∃ s', unref_all R s = Some s' ∧ wf_pend [] k q0 s'
      ∧ (∀ a, waits s' !! a = waits s0 !! a ≫= after (occ a (rev R ++ D)))
      ∧ queues s' = queues s ∧ brk s' = brk s ∧ trace s' = trace s.
Proof.
  induction R as [|w R IH]; intros D s H Hw0.
  - exists s. simpl. split; [done|]. split; [done|]. split; [done|]. auto.
  - destruct (wf_pend_head _ _ _ _ _ H) as (wt & Hw & Hu).
    simpl. rewrite (unref_eq w s wt Hw).
    destruct (release_step w R k q0 s wt H Hw) as (_ & Hwf & _).
    pose proof (Hw0 w) as Hws. rewrite Hw in Hws.
    destruct (waits s0 !! w) as [wt0|] eqn:Hws0; simpl in Hws; [|done].
    symmetry in Hws.
    set (s1 := if usecount wt =? 1 then free_wait w s
               else store_wait w (set_usecount (usecount wt - 1) wt) s) in *.
    assert (Hw1 : ∀ a, waits s1 !! a = waits s0 !! a ≫= after (occ a (w :: D))).
    { intros a. simpl. destruct (Nat.eqb_spec w a) as [<-|Hne].
      - rewrite Hws0. simpl. rewrite (after_succ _ _ _ Hws). unfold s1.
        destruct (usecount wt =? 1); simpl.
        + by rewrite lookup_delete_eq.
        + by rewrite lookup_insert_eq.
      - simpl. rewrite <- Hw0. unfold s1.
        destruct (usecount wt =? 1); simpl.
        + by rewrite lookup_delete_ne.
        + by rewrite lookup_insert_ne. }
    destruct (IH (w :: D) s1 Hwf Hw1) as (s' & E & W & Hw' & Q & B & T).
    exists s'. split; [done|]. split; [done|]. split.
    + intros a. rewrite Hw'. simpl. by rewrite <- app_assoc.
    + unfold s1 in *. destruct (usecount wt =? 1); simpl in *;
        repeat split; auto.
Qed.

Lemma unref_set_queues w qs s :
  unref w (set_queues qs s) = set_queues qs <$> unref w s.
Proof.
  unfold unref. simpl. destruct (waits s !! w) as [wt|]; [|done].
  destruct (usecount wt - 1 =? 0); [|done].
  unfold wait_destroy. simpl. rewrite lookup_insert_eq. simpl.
  by destruct (usecount wt - 1 =? 0).
Qed.

Lemma unref_all_set_queues l qs s :
  unref_all l (set_queues qs s) = set_queues qs <$> unref_all l s.
Proof.
  revert s. induction l as [|w l IH]; intros s; simpl; [done|].
  rewrite unref_set_queues. destruct (unref w s) as [s1|]; simpl; [|done].
  apply IH.
Qed.

Lemma unref_frame w s s' :
  unref w s = Some s' →
  queues s' = queues s ∧ brk s' = brk s ∧ trace s' = trace s.
Proof.
  unfold unref. destruct (waits s !! w) as [wt|]; [|done].
  destruct (usecount wt - 1 =? 0).
  - unfold wait_destroy. simpl. rewrite lookup_insert_eq. simpl.
    destruct (usecount wt - 1 =? 0); [|done]. by intros [= <-].
  - by intros [= <-].
Qed.

Lemma unref_all_frame l s s' :
  unref_all l s = Some s' →
  queues s' = queues s ∧ brk s' = brk s ∧ trace s' = trace s.
Proof.
  revert s. induction l as [|w l IH]; intros s; simpl.
  - by intros [= <-].
  - destruct (unref w s) as [s1|] eqn:E; [|done]. intros H.
    destruct (unref_frame w s s1 E) as (Q1 & B1 & T1).
    destruct (IH s1 H) as (Q2 & B2 & T2).
    repeat split; congruence.
Qed.

Lemma wf_free_queue s qa wq :
  wf s → queues s !! qa = Some wq → wf_pend (q wq) 0 0 (free_queue qa s).
Proof.
  intros [H1 H2 H3 H4 H5] Hq. constructor; try done.
  - intros a. simpl. specialize (H1 a).
    pose proof (refs_free_queue s qa wq a Hq) as Hr.
    simpl in H1. destruct (waits s !! a); lia.
  - intros qa' wq'. simpl. destruct (decide (qa' = qa)) as [->|Hne].
    + by rewrite lookup_delete_eq.
    + rewrite lookup_delete_ne by done. intros Hq'.
      rewrite (H2 qa' wq' Hq').
      by rewrite (count_msgs_ext s (free_queue qa s)).
  - intros qa'. simpl. destruct (decide (qa' = qa)) as [->|Hne].
    + rewrite lookup_delete_eq. by intros [? ?].
    + rewrite lookup_delete_ne by done. apply H4.
Qed.

Lemma wait_queue_destroy_spec s qa wq :
  wf s → queues s !! qa = Some wq →
  ∃ s', wait_queue_destroy qa s = Some s' ∧ wf s'
    ∧ (∀ a, waits s' !! a = waits s !! a ≫= after (occ a (q wq)))
    ∧ queues s' = delete qa (queues s) ∧ brk s' = brk s
    ∧ trace s' = trace s.
Proof.
  intros H Hq. unfold wait_queue_destroy. rewrite Hq.
  pose proof (wf_free_queue s qa wq H Hq) as Hf.
  destruct (unref_all_spec s 0%nat 0%nat (q wq) [] (free_queue qa s) Hf)
    as (s' & E & W & Hw & Q & B & T).
  { intros a. simpl. by rewrite bind_after_0. }
  unfold free_queue in E at 1. rewrite unref_all_set_queues in E.
  destruct (unref_all (q wq) s) as [s1|] eqn:E1; simpl in E; [|done].
  injection E as <-. destruct (unref_all_frame _ _ _ E1) as (Q1 & B1 & T1).
  assert (Ef : free_queue qa s1 = set_queues (delete qa (queues s)) s1)
    by (unfold free_queue; by rewrite Q1).
  exists (free_queue qa s1). split; [done|]. rewrite Ef.
  split; [done|]. split.
  - intros a. rewrite Hw. rewrite app_nil_r. by rewrite occ_rev.
  - simpl in *. auto.
Qed.

Lemma wait_destroy_spec s w wt :
  wf s → waits s !! w = Some wt → usecount wt = 0 →
  wait_destroy w s = Some (free_wait w s) ∧ wf (free_wait w s).
Proof.
  intros H Hw Hu. unfold wait_destroy. rewrite Hw, Hu. split; [done|].
  apply (wf_free_wait [] [] 0 0 s w); [done|done|].
  apply (wf_unreferenced [] 0 0 s w H). right. by exists wt.
Qed.


(** ** [wait_destroy_msg] *)

Lemma hit_ext test s s' a :
  hand_msg <$> waits s' !! a = hand_msg <$> waits s !! a →
  hit test s' a = hit test s a.
Proof.
  unfold hit. destruct (waits s' !! a) as [wt'|], (waits s !! a) as [wt|];
    simpl; try done. by intros [= ->].
Qed.

Lemma filter_hit_ext test s s' l :
  (∀ a, hand_msg <$> waits s' !! a = hand_msg <$> waits s !! a) →
  List.filter (hit test s') l = List.filter (hit test s) l.
Proof.
  intros H. induction l as [|x l IH]; simpl; [done|].
  by rewrite IH, (hit_ext test s s' x).
Qed.

(** The first loop: what is collected, and what is cleared. *)
Lemma collect_spec test P k q0 :
  ∀ l tmp count s,
    wf_pend P k q0 s → (∀ x, x ∈ l → is_Some (waits s !! x)) →
    match collect test l tmp count s with
    | inl None => False
    | inl (Some (tmp', count', s')) =>
        wf_pend P k q0 s'
        ∧ queues s' = queues s ∧ brk s' = brk s ∧ trace s' = trace s
        ∧ (∀ a, waits s' !! a = waits s !! a
                ∨ ∃ wt, waits s !! a = Some wt
                        ∧ waits s' !! a = Some (clear_hand_cb wt))
        ∧ default [] tmp' = default [] tmp ++ List.filter (hit test s) l
        ∧ (tmp' = None → tmp = None ∧ List.filter (hit test s) l = [])
        ∧ count' = count + Z.of_nat (length (List.filter (hit test s) l))
        ∧ (∀ a, a ∈ l → hit test s a = true →
             ∃ wt, waits s' !! a = Some wt ∧ hand_cb wt = None)
    | inr s' =>
        wf_pend P k q0 s'
        ∧ queues s' = queues s ∧ brk s' = brk s ∧ trace s' = trace s
        ∧ errno s' = ENOMEM
        ∧ (∀ a, waits s' !! a = waits s !! a
                ∨ ∃ wt, waits s !! a = Some wt
                        ∧ waits s' !! a = Some (clear_hand_cb wt))
    end.
Proof.
  induction l as [|w rest IH]; intros tmp count s H Hlive.
  - simpl. rewrite app_nil_r. conj_split; auto; try lia.
    intros a Ha. by apply elem_of_nil in Ha.
  - destruct (Hlive w ltac:(left)) as [wt Hw].
    assert (Hlive' : ∀ x, x ∈ rest → is_Some (waits s !! x))
      by (intros x Hx; apply Hlive; by right).
    simpl. rewrite Hw.
    assert (Hhit : hit test s w =
                   match hand_msg wt, test with
                   | Some m, Some f => f m
                   | _, _ => false
                   end) by (unfold hit; by rewrite Hw).
    rewrite <- Hhit. destruct (hit test s w) eqn:Eh.
    + (* the wait is picked *)
      pose proof (alloc_fails_frame s) as (Fw & Fq & Fb & Ft).
      set (r1 := match tmp with
                 | Some _ => (false, s)
                 | None => alloc_fails s
                 end).
      assert (F1 : waits r1.2 = waits s ∧ queues r1.2 = queues s
                   ∧ brk r1.2 = brk s ∧ trace r1.2 = trace s).
      { unfold r1. destruct tmp; simpl; auto. }
      destruct r1 as [fails1 s1]. simpl in F1.
      destruct F1 as (F1w & F1q & F1b & F1t).
      assert (H1 : wf_pend P k q0 s1)
        by (apply (wf_pend_frame P k q0 s); [done..|lia|done]).
      destruct fails1.
      { simpl. split; [by apply (wf_pend_frame P k q0 s1)|].
        rewrite F1w. conj_split; auto. }
      pose proof (alloc_fails_frame s1) as (F2w & F2q & F2b & F2t).
      destruct (alloc_fails s1) as [fails2 s2]. simpl in *.
      assert (H2 : wf_pend P k q0 s2)
        by (apply (wf_pend_frame P k q0 s1); [done..|lia|done]).
      destruct fails2.
      { simpl. split; [by apply (wf_pend_frame P k q0 s2)|].
        rewrite F2w, F1w. conj_split; auto; congruence. }
      assert (Hw2 : waits s2 !! w = Some wt) by (by rewrite F2w, F1w).
      set (s3 := store_wait w (clear_hand_cb wt) s2).
      assert (H3 : wf_pend P k q0 s3).
      { apply (wf_store_wait P P k q0 s2 w wt); try done.
        pose proof (wf_ref _ _ _ _ H2 w) as Hr. by rewrite Hw2 in Hr. }
      assert (Hm3 : ∀ a, hand_msg <$> waits s3 !! a = hand_msg <$> waits s !! a).
      { intros a. unfold s3. simpl. destruct (decide (a = w)) as [->|Hne].
        - by rewrite lookup_insert_eq, Hw.
        - rewrite lookup_insert_ne by done. by rewrite F2w, F1w. }
      assert (Hlive3 : ∀ x, x ∈ rest → is_Some (waits s3 !! x)).
      { intros x Hx. specialize (Hm3 x).
        destruct (Hlive' x Hx) as [wtx Hwx]. rewrite Hwx in Hm3.
        destruct (waits s3 !! x); [by eexists|done]. }
      set (tmp3 := Some match tmp with Some t => t ++ [w] | None => [w] end).
      specialize (IH tmp3 (count + 1) s3 H3 Hlive3).
      assert (Hw3 : ∀ a, waits s3 !! a = waits s !! a
                         ∨ ∃ wt0, waits s !! a = Some wt0
                                  ∧ waits s3 !! a = Some (clear_hand_cb wt0)).
      { intros a. unfold s3. simpl. destruct (decide (a = w)) as [->|Hne].
        - right. exists wt. by rewrite lookup_insert_eq.
        - left. rewrite lookup_insert_ne by done. by rewrite F2w, F1w. }
      assert (Hcomp : ∀ s' : heap,
                (∀ a, waits s' !! a = waits s3 !! a
                      ∨ ∃ wt0, waits s3 !! a = Some wt0
                               ∧ waits s' !! a = Some (clear_hand_cb wt0)) →
                ∀ a, waits s' !! a = waits s !! a
                     ∨ ∃ wt0, waits s !! a = Some wt0
                              ∧ waits s' !! a = Some (clear_hand_cb wt0)).
      { intros s' Hs' a.
        destruct (Hs' a) as [E|(wt1 & E1 & E2)], (Hw3 a) as [E3|(wt2 & E3 & E4)].
        - left. congruence.
        - right. exists wt2. split; [done|]. congruence.
        - right. exists wt1. split; [congruence|done].
        - right. exists wt2. split; [done|]. rewrite E2.
          rewrite E4 in E1. by injection E1 as <-. }
      destruct (collect test rest tmp3 (count + 1) s3)
        as [[[[tmp' count'] s']|]|s'].
      * destruct IH as (W & Q & B & T & Wt & Tm & Tn & Cn & Cl).
        rewrite (filter_hit_ext test s s3 rest Hm3) in Tm, Tn, Cn.
        split; [done|]. split; [rewrite Q; simpl; congruence|].
        split; [rewrite B; simpl; congruence|].
        split; [rewrite T; simpl; congruence|].
        split; [by apply Hcomp|]. split.
        { rewrite Tm. unfold tmp3. simpl.
          destruct tmp; simpl; by rewrite <- ?app_assoc. }
        split.
        { intros ->. by destruct (Tn eq_refl). }
        split.
        { rewrite Cn. simpl. lia. }
        intros a Ha Hha. apply elem_of_cons in Ha as [->|Ha].
        -- destruct (Wt w) as [E|(wt1 & E1 & E2)].
           ++ exists (clear_hand_cb wt). split; [|done].
              rewrite E. unfold s3. simpl. by rewrite lookup_insert_eq.
           ++ exists (clear_hand_cb wt1). by split.
        -- apply Cl; [done|]. by rewrite (hit_ext test s s3).
      * done.
      * destruct IH as (W & Q & B & T & En & Wt).
        split; [done|]. split; [rewrite Q; simpl; congruence|].
        split; [rewrite B; simpl; congruence|].
        split; [rewrite T; simpl; congruence|].
        split; [done|]. by apply Hcomp.
    + (* the wait is passed over *)
      specialize (IH tmp count s H Hlive').
      destruct (collect test rest tmp count s) as [[[[tmp' count'] s']|]|s'];
        [|done|done].
      destruct IH as (W & Q & B & T & Wt & Tm & Tn & Cn & Cl).
      conj_split; auto.
      intros a Ha Hha. apply elem_of_cons in Ha as [->|Ha]; [congruence|].
      by apply Cl.
Qed.


Lemma occ_filter_le (f : addr → bool) a l :
  (occ a (List.filter f l) ≤ occ a l)%nat.
Proof.
  induction l as [|x l IH]; simpl; [done|].
  destruct (f x); simpl; lia.
Qed.

Lemma hit_bears_msg test s a : hit test s a = true → bears_msg s a = true.
Proof.
  unfold hit, bears_msg, has_msg. destruct (waits s !! a) as [wt|]; [|done].
  by destruct (hand_msg wt).
Qed.

(** The second loop: every collected wait is still on the queue when its
    turn comes. *)
Lemma cull_spec qa :
  ∀ t s, wf s → (∀ x, x ∈ t → bears_msg s x = true) →
    (∃ wq, queues s !! qa = Some wq ∧ ∀ x, (occ x t ≤ occ x (q wq))%nat) →
    ∃ s', cull qa t s = Some s' ∧ wf s' ∧ brk s' = brk s
      ∧ trace s' = trace s
      ∧ (∀ a, waits s' !! a = None
              ∨ ∃ wt wt', waits s !! a = Some wt ∧ waits s' !! a = Some wt'
                  ∧ cb wt' = cb wt ∧ hand_cb wt' = hand_cb wt
                  ∧ hand_msg wt' = hand_msg wt).
Proof.
  induction t as [|w t IH]; intros s H Hb (wq & Hq & Ho).
  - exists s. simpl. split; [done|]. split; [done|]. split; [done|].
    split; [done|]. intros a. destruct (waits s !! a) as [wt|]; [|by left].
    right. by exists wt, wt.
  - simpl. rewrite Hq.
    assert (Hin : w ∈ q wq).
    { apply occ_pos. specialize (Ho w). simpl in Ho.
      rewrite Nat.eqb_refl in Ho. lia. }
    set (s1 := store_queue qa
                 (Queue (remove_first w (q wq)) (msgs_on_queue wq - 1)) s).
    assert (H1 : wf_pend [w] 0 0 s1).
    { apply (wf_store_queue [] [w] 0 0 0 s qa wq); try done.
      - intros a. simpl. rewrite occ_remove_first.
        destruct (Nat.eqb_spec w a) as [<-|Hne].
        + rewrite decide_True by done.
          apply occ_pos in Hin. lia.
        + rewrite decide_False; [lia|]. intros [? _]. congruence.
      - simpl. rewrite (wf_msgs _ _ _ _ H qa wq Hq).
        rewrite (count_msgs_remove_first s w (q wq) Hin).
        rewrite (Hb w) by (by left).
        destruct (Nat.eqb qa 0); lia.
      - by left. }
    destruct (wf_pend_head _ _ _ _ _ H1) as (wt & Hw & Hu).
    rewrite (unref_eq w s1 wt Hw).
    destruct (release_step w [] 0 0 s1 wt H1 Hw) as (_ & H2 & _).
    set (s2 := if usecount wt =? 1 then free_wait w s1
               else store_wait w (set_usecount (usecount wt - 1) wt) s1) in *.
    assert (Hq2 : queues s2 !! qa =
                  Some (Queue (remove_first w (q wq)) (msgs_on_queue wq - 1))).
    { unfold s2. destruct (usecount wt =? 1); simpl; by rewrite lookup_insert_eq. }
    assert (Ho2 : ∀ x, (occ x t ≤ occ x (remove_first w (q wq)))%nat).
    { intros x. specialize (Ho x). simpl in Ho. rewrite occ_remove_first.
      destruct (Nat.eqb_spec w x) as [Heq|Hne].
      - rewrite decide_True by done. lia.
      - rewrite decide_False; [lia|]. intros [? _]. congruence. }
    assert (Hb2 : ∀ x, x ∈ t → bears_msg s2 x = true).
    { intros x Hx. specialize (Hb x ltac:(by right)).
      unfold s2. destruct (Z.eqb_spec (usecount wt) 1) as [E|E].
      - rewrite bears_msg_free_wait. case_decide as Hxw; [|done]. subst x.
        exfalso. apply occ_pos in Hx. specialize (Ho2 w).
        assert (refs s1 w = 0%nat) by lia.
        assert (occ w (remove_first w (q wq)) = 0%nat); [|lia].
        apply occ_zero.
        apply (refs_zero_not_in s1 w qa
                 (Queue (remove_first w (q wq)) (msgs_on_queue wq - 1)) H0).
        unfold s1. simpl. by rewrite lookup_insert_eq.
      - rewrite bears_msg_store_wait. case_decide as Hxw; [|done]. subst x.
        unfold bears_msg in Hb. simpl in Hw. by rewrite Hw in Hb. }
    destruct (IH s2 H2 Hb2) as (s' & E & W & B & T & Wt).
    { eexists. split; [exact Hq2|]. exact Ho2. }
    exists s'. split; [done|]. split; [done|].
    split; [rewrite B; unfold s2; by destruct (usecount wt =? 1)|].
    split; [rewrite T; unfold s2; by destruct (usecount wt =? 1)|].
    intros a. destruct (Wt a) as [Hn|(wt2 & wt' & E2 & E' & C & Hh & Hm)];
      [by left|].
    right. unfold s2 in E2. simpl in Hw.
    destruct (usecount wt =? 1); simpl in E2.
    + destruct (decide (a = w)) as [->|Hne].
      * by rewrite lookup_delete_eq in E2.
      * rewrite lookup_delete_ne in E2 by done. by exists wt2, wt'.
    + destruct (decide (a = w)) as [->|Hne].
      * rewrite lookup_insert_eq in E2. injection E2 as <-.
        exists wt, wt'. by rewrite Hw.
      * rewrite lookup_insert_ne in E2 by done. by exists wt2, wt'.
Qed.

Lemma wait_destroy_msg_spec test s qa wq :
  wf s → queues s !! qa = Some wq →
  ∃ rc s', wait_destroy_msg qa test s = Some (rc, s') ∧ wf s'
    ∧ brk s' = brk s ∧ trace s' = trace s ∧ evolves s s'
    ∧ ((rc = -1 ∧ errno s' = ENOMEM ∧ queues s' = queues s)
       ∨ (rc = Z.of_nat (length (List.filter (hit test s) (q wq)))
          ∧ ∀ a, a ∈ q wq → hit test s a = true →
              ∀ wt, waits s' !! a = Some wt →
                cb wt = None ∧ hand_cb wt = None)).
Proof.
  intros H Hq. unfold wait_destroy_msg. rewrite Hq.
  assert (Hlive : ∀ x, x ∈ q wq → is_Some (waits s !! x)).
  { intros x Hx.
    destruct (wf_queued_live x [] 0 0 s qa wq H Hq Hx) as (wt & -> & _).
    by eexists. }
  pose proof (collect_spec test [] 0%nat 0%nat (q wq) None 0 s H Hlive) as C.
  assert (Hev : ∀ s1 : heap, brk s1 = brk s →
            (∀ a, waits s1 !! a = waits s !! a
                  ∨ ∃ wt, waits s !! a = Some wt
                          ∧ waits s1 !! a = Some (clear_hand_cb wt)) →
            evolves s s1).
  { intros s1 B1 W1. apply evolves_pointwise; [lia|]. intros a _.
    destruct (W1 a) as [E|(wt & E1 & E2)].
    - destruct (waits s !! a) as [wt|] eqn:Ea; [|by left].
      right. exists wt, wt. conj_split; auto.
    - right. exists wt, (clear_hand_cb wt). simpl. conj_split; auto. }
  destruct (collect test (q wq) None 0 s) as [[[[tmp count] s1]|]|s1].
  - destruct C as (W & Q & B & T & Wt & Tm & Tn & Cn & Cl).
    simpl in Tm.
    assert (Hcl : ∀ a, a ∈ q wq → hit test s a = true →
              ∀ wt, waits s1 !! a = Some wt → cb wt = None ∧ hand_cb wt = None).
    { intros a Ha Hh wt Hw. destruct (Cl a Ha Hh) as (wt1 & Hw1 & Hn).
      rewrite Hw in Hw1. injection Hw1 as <-. split; [|done].
      apply (wf_shape _ _ _ _ W a wt Hw).
      apply hit_bears_msg in Hh. unfold bears_msg in Hh.
      destruct (Wt a) as [E|(wt0 & E1 & E2)].
      - rewrite <- E, Hw in Hh. unfold has_msg in Hh.
        destruct (hand_msg wt); [by eexists|done].
      - rewrite E1 in Hh. rewrite Hw in E2. injection E2 as ->. simpl.
        unfold has_msg in Hh. destruct (hand_msg wt0); [by eexists|done]. }
    destruct tmp as [t|].
    + simpl in Tm. subst t.
      destruct (cull_spec qa (List.filter (hit test s) (q wq)) s1 W)
        as (s2 & E & W2 & B2 & T2 & Wt2).
      { intros x Hx. apply list_elem_of_In, filter_In in Hx as [_ Hx].
        apply hit_bears_msg in Hx. unfold bears_msg in *.
        destruct (Wt x) as [Ex|(wt0 & E1 & E2)]; [by rewrite Ex|].
        rewrite E2. by rewrite E1 in Hx. }
      { exists wq. split; [by rewrite Q|]. intros x. apply occ_filter_le. }
      rewrite E. eexists _, s2. split; [done|]. split; [done|].
      split; [congruence|]. split; [congruence|]. split.
      * apply (evolves_trans s s1); [by apply Hev|].
        apply evolves_pointwise; [lia|]. intros a _.
        destruct (Wt2 a) as [?|(wt & wt' & ? & ? & ? & ? & ?)]; [by left|].
        right. exists wt, wt'. conj_split; auto.
      * right. split; [lia|]. intros a Ha Hh wt Hw.
        destruct (Wt2 a) as [?|(wt1 & wt' & E1 & E' & C1 & Hh1 & Hm1)];
          [congruence|].
        rewrite Hw in E'. injection E' as <-.
        destruct (Hcl a Ha Hh wt1 E1). split; congruence.
    + destruct (Tn eq_refl) as [_ Hnil]. rewrite Hnil in Cn.
      eexists _, s1. split; [done|]. split; [done|]. split; [done|].
      split; [done|]. split; [by apply Hev|].
      right. split; [by rewrite Hnil; simpl in *; lia|]. exact Hcl.
  - done.
  - destruct C as (W & Q & B & T & En & Wt).
    eexists _, s1. split; [done|]. split; [done|]. split; [done|].
    split; [done|]. split; [by apply Hev|]. by left.
Qed.


(** ** The callbacks a run invokes *)

Lemma callback_of_wait a wt e c :
  callback_of a wt = Some (e, c) → fired_wait e = a.
Proof.
  unfold callback_of. destruct (cb wt); [by intros [= <- _]|].
  destruct (hand_cb wt); [by intros [= <- _]|done].
Qed.

Lemma fire_count_run_events s a :
  ∀ L seen,
    (fire_count a (run_events s seen L) ≤ 1)%nat
    ∧ ((0 < fire_count a (run_events s seen L))%nat →
       ∃ wt, waits s !! a = Some wt ∧ is_Some (callback_of a wt)
             ∧ Z.of_nat (occ a seen) < usecount wt
             ∧ usecount wt ≤ Z.of_nat (occ a seen + occ a L)).
Proof.
  induction L as [|x L IH]; intros seen; simpl.
  - split; [lia|]. lia.
  - rewrite fire_count_app. destruct (IH (x :: seen)) as (IH1 & IH2).
    simpl in IH2.
    set (ev := match waits s !! x with
               | Some wt =>
                   if usecount wt =? Z.of_nat (occ x seen) + 1 then
                     match callback_of x wt with
                     | Some (e, _) => [e]
                     | None => []
                     end
                   else []
               | None => []
               end).
    assert (Hev : fire_count a ev = 0%nat
                  ∨ (fire_count a ev = 1%nat ∧ x = a
                     ∧ ∃ wt, waits s !! a = Some wt
                             ∧ is_Some (callback_of a wt)
                             ∧ usecount wt = Z.of_nat (occ a seen) + 1)).
    { unfold ev. destruct (waits s !! x) as [wt|] eqn:Hx; [|by left].
      destruct (Z.eqb_spec (usecount wt) (Z.of_nat (occ x seen) + 1))
        as [Eu|Eu]; [|by left].
      destruct (callback_of x wt) as [[e c]|] eqn:Hc; [|by left].
      pose proof (callback_of_wait x wt e c Hc) as He. simpl. rewrite He.
      destruct (Nat.eqb_spec x a) as [->|Hne]; [|by left].
      right. split; [done|]. split; [done|]. exists wt.
      split; [done|]. split; [by rewrite Hc|done]. }
    destruct Hev as [-> | (-> & -> & wt & Hw & Hc & Hu)].
    + split; [lia|]. intros Hpos.
      destruct (IH2 ltac:(lia)) as (wt & Hw & Hc & H1 & H2).
      exists wt. split; [done|]. split; [done|].
      destruct (Nat.eqb_spec x a); lia.
    + rewrite Nat.eqb_refl in IH2. split.
      * destruct (fire_count a (run_events s (a :: seen) L)) eqn:E; [lia|].
        destruct (IH2 ltac:(lia)) as (wt' & Hw' & _ & H1 & _).
        rewrite Hw in Hw'. injection Hw' as <-. lia.
      * intros _. exists wt. split; [done|]. split; [done|].
        rewrite Nat.eqb_refl. lia.
Qed.

(** ** Every operation keeps the invariants *)

Lemma silenced_keep a s s' :
  evolves s s' → trace s' = trace s → silenced a s → silenced a s'.
Proof.
  intros [E1 E2] T (Hb & Hf & Hc). split; [lia|]. split; [by rewrite T|].
  intros wt' Hw'. destruct (E2 a wt' Hb Hw') as (wt & Hw & C & M & Hh).
  destruct (Hc wt Hw) as [C0 H0]. split; [congruence|].
  destruct Hh; congruence.
Qed.

Lemma unfired_keep s s' :
  unfired s → wf s' → evolves s s' → trace s' = trace s → unfired s'.
Proof.
  intros [U1 U2 U3 U4] W [E1 E2] T. constructor.
  - intros a. rewrite T. apply U1.
  - intros a [wt' Hw']. rewrite T.
    destruct (decide (a < brk s)%nat) as [Ha|Ha].
    + destruct (E2 a wt' Ha Hw') as (wt & Hw & _). apply U2. by rewrite Hw.
    + apply U3. lia.
  - intros a Ha. rewrite T. apply U3. lia.
  - apply (wf_brk_w _ _ _ _ W).
Qed.

Lemma wf_refs_ge s qa wq a wt :
  wf s → queues s !! qa = Some wq → waits s !! a = Some wt →
  Z.of_nat (occ a (q wq)) ≤ usecount wt.
Proof.
  intros H Hq Hw. pose proof (wf_ref _ _ _ _ H a) as Hr. rewrite Hw in Hr.
  unfold refs in Hr. rewrite (qsum_lookup _ (queues s) qa wq Hq) in Hr. lia.
Qed.

Lemma run_keeps s qa wq s' :
  wf s → unfired s → queues s !! qa = Some wq →
  run_inv s qa (rev (q wq)) [] s' →
  trace s' = trace s ++ run_events s [] (q wq) →
  wf s' ∧ unfired s' ∧ evolves s s'
  ∧ (∀ a, silenced a s → silenced a s').
Proof.
  intros H U Hq I T. pose proof (run_inv_wf _ _ _ _ I) as W.
  destruct I as [_ Ib Iw _ _].
  assert (Ev : evolves s s') by (by apply (evolves_after s s' (rev (q wq)))).
  destruct U as [U1 U2 U3 U4].
  assert (Hnew : ∀ a, (0 < fire_count a (run_events s [] (q wq)))%nat →
            fire_count a (trace s) = 0%nat ∧ (a < brk s)%nat
            ∧ waits s' !! a = None
            ∧ ∃ wt, waits s !! a = Some wt ∧ is_Some (callback_of a wt)).
  { intros a Hpos.
    destruct (fire_count_run_events s a (q wq) []) as (_ & Hx).
    destruct (Hx Hpos) as (wt & Hw & Hc & H1 & H2). simpl in *.
    assert (Ha : (a < brk s)%nat) by (apply U4; by rewrite Hw).
    split; [apply U2; by rewrite Hw|]. split; [done|]. split; [|by eauto].
    rewrite (Iw a Ha), Hw. simpl. rewrite occ_rev. unfold after.
    pose proof (wf_refs_ge s qa wq a wt H Hq Hw).
    destruct (Nat.eqb_spec (occ a (q wq)) 0); [lia|].
    destruct (Z.eqb_spec (usecount wt) (Z.of_nat (occ a (q wq)))); [done|lia]. }
  split; [done|]. split; [|split; [done|]].
  - constructor.
    + intros a. rewrite T, fire_count_app.
      destruct (fire_count_run_events s a (q wq) []) as (Hle & _).
      destruct (fire_count a (run_events s [] (q wq))) eqn:E.
      * specialize (U1 a). lia.
      * destruct (Hnew a ltac:(lia)) as (-> & _). lia.
    + intros a Ha. rewrite T, fire_count_app.
      destruct (fire_count a (run_events s [] (q wq))) eqn:E.
      * destruct (decide (a < brk s)%nat) as [Hb|Hb].
        -- destruct Ha as [wt' Hw'].
           destruct (ev_waits _ _ Ev a wt' Hb Hw') as (wt & Hw & _).
           rewrite U2; [done|]. by rewrite Hw.
        -- rewrite U3; [done|lia].
      * destruct (Hnew a ltac:(lia)) as (_ & _ & Hn & _).
        rewrite Hn in Ha. by destruct Ha.
    + intros a Ha. rewrite T, fire_count_app.
      destruct (fire_count a (run_events s [] (q wq))) eqn:E.
      * rewrite U3; [done|lia].
      * destruct (Hnew a ltac:(lia)) as (_ & Hb & _). lia.
    + apply (wf_brk_w _ _ _ _ W).
  - intros a (Hb & Hf & Hc). split; [lia|]. split.
    + rewrite T, fire_count_app, Hf.
      destruct (fire_count a (run_events s [] (q wq))) eqn:E; [done|].
      destruct (Hnew a ltac:(lia)) as (_ & _ & _ & wt & Hw & Hcb).
      destruct (Hc wt Hw) as [C0 H0]. unfold callback_of in Hcb.
      rewrite C0, H0 in Hcb. by destruct Hcb.
    + intros wt' Hw'.
      destruct (ev_waits _ _ Ev a wt' Hb Hw') as (wt & Hw & C & M & Hh).
      destruct (Hc wt Hw) as [C0 H0]. split; [congruence|].
      destruct Hh; congruence.
Qed.


Lemma keep_all s s' :
  unfired s → wf s' → evolves s s' → trace s' = trace s →
  wf s' ∧ unfired s' ∧ evolves s s' ∧ (∀ a, silenced a s → silenced a s').
Proof.
  intros U W E T. split; [done|]. split; [by apply (unfired_keep s)|].
  split; [done|]. intros a. by apply silenced_keep.
Qed.

Lemma wf_init outcomes : wf (init outcomes).
Proof.
  constructor; simpl.
  - intros a. rewrite lookup_empty. unfold refs. simpl. by rewrite qsum_empty.
  - intros qa wq H. by rewrite lookup_empty in H.
  - intros a [x H]. by rewrite lookup_empty in H.
  - intros a [x H]. by rewrite lookup_empty in H.
  - intros a wt H. by rewrite lookup_empty in H.
Qed.

Lemma unfired_init outcomes : unfired (init outcomes).
Proof.
  constructor; simpl.
  - intros a. lia.
  - done.
  - done.
  - intros a [x H]. by rewrite lookup_empty in H.
Qed.

Lemma wait_queue_create_spec s :
  wf s →
  wf (wait_queue_create s).2
  ∧ waits (wait_queue_create s).2 = waits s
  ∧ trace (wait_queue_create s).2 = trace s
  ∧ (brk s ≤ brk (wait_queue_create s).2)%nat.
Proof.
  intros H. unfold wait_queue_create.
  pose proof (alloc_fails_frame s) as (Fw & Fq & Fb & Ft).
  destruct (alloc_fails s) as [fails s1]. simpl in *.
  assert (H1 : wf s1) by (apply (wf_pend_frame [] 0 0 s); [done..|lia|done]).
  destruct fails; simpl.
  { split; [by apply (wf_pend_frame [] 0 0 s1)|]. conj_split; auto. lia. }
  pose proof (alloc_fails_frame s1) as (F2w & F2q & F2b & F2t).
  destruct (alloc_fails s1) as [fails2 s2]. simpl in *.
  assert (H2 : wf s2) by (apply (wf_pend_frame [] 0 0 s1); [done..|lia|done]).
  destruct fails2; simpl.
  { split; [by apply (wf_pend_frame [] 0 0 s2)|].
    conj_split; try congruence. lia. }
  split; [by apply wf_new_queue|]. conj_split; try congruence. lia.
Qed.

Lemma step_spec user o s s' :
  wf s → unfired s → step user o s = Some s' →
  wf s' ∧ unfired s' ∧ evolves s s' ∧ (∀ a, silenced a s → silenced a s').
Proof.
  intros H U. destruct o as [|c|m c|w|qa w|qa|qa test|qa]; simpl.
  - intros [= <-].
    destruct (wait_queue_create_spec s H) as (W & Fw & Ft & Fb).
    apply keep_all; try done. by apply evolves_same_waits.
  - intros [= <-].
    destruct (wait_create_spec [] 0 0 c s (brk s) H ltac:(done)) as (W & E & _).
    apply keep_all; try done; [by apply evolves_extends|by destruct E].
  - intros [= <-].
    destruct (wait_create_msg_handler_spec [] 0 0 m c s (brk s) H ltac:(done))
      as (W & E & _).
    apply keep_all; try done; [by apply evolves_extends|by destruct E].
  - intros Hd. unfold wait_destroy in Hd.
    destruct (waits s !! w) as [wt|] eqn:Hw; [|done].
    destruct (Z.eqb_spec (usecount wt) 0) as [Hu|]; [|done].
    injection Hd as <-.
    destruct (wait_destroy_spec s w wt H Hw Hu) as (_ & W).
    apply keep_all; try done.
    apply evolves_pointwise; [done|]. intros a _. simpl.
    destruct (decide (a = w)) as [->|Hne].
    + left. by rewrite lookup_delete_eq.
    + rewrite lookup_delete_ne by done.
      destruct (waits s !! a) as [wta|]; [|by left].
      right. exists wta, wta. conj_split; auto.
  - intros Ha. destruct (wait_addqueue qa w s) as [[rc s1]|] eqn:E; [|done].
    simpl in Ha. injection Ha as <-.
    assert (∃ wq wt, queues s !! qa = Some wq ∧ waits s !! w = Some wt)
      as (wq & wt & Hq & Hw).
    { unfold wait_addqueue in E. destruct (queues s !! qa) as [wq|]; [|done].
      destruct (waits s !! w) as [wt|]; [|done]. by eexists _, _. }
    destruct (wait_addqueue_spec [] 0 0 qa w s wq wt H Hq Hw)
      as (rc' & s2 & E2 & W & T & B & Hc).
    rewrite E in E2. injection E2 as <- <-.
    apply keep_all; try done.
    apply evolves_pointwise; [lia|]. intros a _.
    destruct Hc as [(_ & _ & -> & _)|(_ & -> & _)].
    + destruct (waits s !! a) as [wta|]; [|by left].
      right. exists wta, wta. conj_split; auto.
    + destruct (decide (a = w)) as [->|Hne].
      * rewrite lookup_insert_eq. right.
        exists wt, (set_usecount (usecount wt + 1) wt).
        split; [done|]. split; [done|]. simpl. conj_split; auto.
      * rewrite lookup_insert_ne by done.
        destruct (waits s !! a) as [wta|]; [|by left].
        right. exists wta, wta. conj_split; auto.
  - intros Hr. destruct (wait_runqueue user qa s) as [[rc s1]|] eqn:E; [|done].
    simpl in Hr. injection Hr as <-.
    assert (∃ wq, queues s !! qa = Some wq) as (wq & Hq).
    { unfold wait_runqueue in E. destruct (queues s !! qa); [by eexists|done]. }
    destruct (wait_runqueue_spec user s qa wq H Hq) as (R1 & R2 & R3).
    destruct (decide (q wq = [])) as [Hnil|Hne].
    + rewrite (R1 Hnil) in E. simplify_eq.
      apply keep_all; try done. apply evolves_refl.
    + pose proof (alloc_fails_frame s) as (Fw & Fq & Fb & Ft).
      destruct (alloc_fails s) as [fails sa] eqn:Ea.
      simpl in R2, R3, Fw, Fq, Fb, Ft.
      destruct fails.
      * rewrite (R2 Hne eq_refl) in E. simplify_eq.
        apply keep_all; try done.
        -- apply (wf_pend_frame [] 0 0 s); simpl; try done. lia.
        -- apply evolves_same_waits; simpl; [done|lia].
      * destruct (R3 Hne eq_refl) as (s2 & E2 & I & T).
        rewrite E in E2. simplify_eq.
        by apply (run_keeps s qa wq s2).
  - intros Hd. destruct (wait_destroy_msg qa test s) as [[rc s1]|] eqn:E;
      [|done].
    simpl in Hd. injection Hd as <-.
    assert (∃ wq, queues s !! qa = Some wq) as (wq & Hq).
    { unfold wait_destroy_msg in E.
      destruct (queues s !! qa); [by eexists|done]. }
    destruct (wait_destroy_msg_spec test s qa wq H Hq)
      as (rc' & s2 & E2 & W & B & T & Ev & _).
    rewrite E in E2. injection E2 as <- <-.
    by apply keep_all.
  - intros Hd.
    assert (∃ wq, queues s !! qa = Some wq) as (wq & Hq).
    { unfold wait_queue_destroy in Hd.
      destruct (queues s !! qa); [by eexists|done]. }
    destruct (wait_queue_destroy_spec s qa wq H Hq)
      as (s2 & E2 & W & Hw & Q & B & T).
    rewrite Hd in E2. injection E2 as <-.
    apply keep_all; try done.
    apply (evolves_after s s' (q wq)); [lia|]. intros a _. apply Hw.
Qed.

Lemma exec_spec user ops :
  ∀ s s', wf s → unfired s → exec user ops s = Some s' →
    wf s' ∧ unfired s' ∧ evolves s s' ∧ (∀ a, silenced a s → silenced a s').
Proof.
  induction ops as [|o ops IH]; intros s s' H U; simpl.
  - intros [= <-]. conj_split; auto. apply evolves_refl.
  - destruct (step user o s) as [s1|] eqn:E; [|done]. intros Hx.
    destruct (step_spec user o s s1 H U E) as (W1 & U1 & E1 & S1).
    destruct (IH s1 s' W1 U1 Hx) as (W2 & U2 & E2 & S2).
    conj_split; auto. by apply (evolves_trans s s1).
Qed.

Lemma reachable_good user s : reachable user s → wf s ∧ unfired s.
Proof.
  intros (outcomes & ops & E).
  destruct (exec_spec user ops (init outcomes) s (wf_init _) (unfired_init _) E)
    as (W & U & _).
  done.
Qed.



Lemma fire_count_run_events_pos s a wt :
  waits s !! a = Some wt → is_Some (callback_of a wt) →
  ∀ L seen,
    Z.of_nat (occ a seen) < usecount wt →
    usecount wt ≤ Z.of_nat (occ a seen + occ a L) →
    fire_count a (run_events s seen L) = 1%nat.
Proof.
  intros Hw [[e c] Hc]. induction L as [|x L IH]; intros seen H1 H2; simpl.
  - simpl in H2. lia.
  - rewrite fire_count_app. simpl in H2.
    destruct (Nat.eqb_spec x a) as [->|Hne].
    + rewrite Hw, Hc.
      destruct (Z.eqb_spec (usecount wt) (Z.of_nat (occ a seen) + 1)) as [E|E].
      * simpl. rewrite (callback_of_wait a wt e c Hc), Nat.eqb_refl.
        destruct (fire_count_run_events s a L (a :: seen)) as (_ & Hx).
        destruct (fire_count a (run_events s (a :: seen) L)) eqn:Ef; [done|].
        destruct (Hx ltac:(lia)) as (wt' & Hw' & _ & H3 & _).
        rewrite Hw in Hw'. injection Hw' as <-. simpl in H3.
        rewrite Nat.eqb_refl in H3. lia.
      * simpl. apply IH; simpl; rewrite Nat.eqb_refl; lia.
    + assert (fire_count a
                match waits s !! x with
                | Some wt0 =>
                    if usecount wt0 =? Z.of_nat (occ x seen) + 1 then
                      match callback_of x wt0 with
                      | Some (e0, _) => [e0]
                      | None => []
                      end
                    else []
                | None => []
                end = 0%nat) as ->.
      { destruct (waits s !! x) as [wtx|]; [|done].
        destruct (usecount wtx =? Z.of_nat (occ x seen) + 1); [|done].
        destruct (callback_of x wtx) as [[e' c']|] eqn:Hc'; [|done].
        simpl. rewrite (callback_of_wait x wtx e' c' Hc').
        by destruct (Nat.eqb_spec x a). }
      simpl. apply IH; simpl; destruct (Nat.eqb_spec x a); try done; lia.
Qed.

(** What a successful run leaves behind: each wait, and the queue. *)
Lemma run_result s qa wq s' :
  wf s → queues s !! qa = Some wq →
  run_inv s qa (rev (q wq)) [] s' →
  (∀ a wt, waits s !! a = Some wt → waits s' !! a = after (occ a (q wq)) wt)
  ∧ ∃ wq', queues s' !! qa = Some wq'
      ∧ (∀ x, x ∈ q wq' → (brk s ≤ x)%nat)
      ∧ (∀ x, x ∈ q wq → x ∉ q wq').
Proof.
  intros H Hq I. pose proof I as [_ Ib Iw Iq _]. split.
  - intros a wt Hw.
    rewrite (Iw a), Hw; [simpl; by rewrite occ_rev|].
    apply (wf_brk_w _ _ _ _ H). by rewrite Hw.
  - specialize (Iq qa). rewrite Hq in Iq.
    destruct Iq as (wq' & news & Hq' & Hl & Hn).
    rewrite decide_True in Hl by done. simpl in Hl.
    exists wq'. split; [done|]. rewrite Hl. split; [done|].
    intros x Hx Hx'.
    destruct (wf_queued_live x [] 0 0 s qa wq H Hq Hx) as (_ & _ & _ & Hlt).
    specialize (Hn x Hx'). lia.
Qed.


(** ** C8: the message counter *)

(** C8, as the code has it: after any program over the interface
    (creating queues and waits, [wait_addqueue], [wait_runqueue],
    [wait_destroy_msg], [wait_queue_destroy], with callbacks that
    enqueue new waits), every queue's [msgs_on_queue] is the number of
    its entries that have a message, that is, that were made by
    [wait_create_msg_handler] with a message, whether or not their
    handler is still set. *)
Theorem msgs_on_queue_counts (user : cbname → list action)
    (outcomes : list bool) (ops : list op) (s : heap) :
  exec user ops (init outcomes) = Some s →
  ∀ qa wq, queues s !! qa = Some wq →
    msgs_on_queue wq = Z.of_nat (count_msgs s (q wq)).
Proof.
  intros E qa wq Hq.
  destruct (reachable_good user s) as [W _]; [by exists outcomes, ops|].
  rewrite (wf_msgs _ _ _ _ W qa wq Hq). destruct (Nat.eqb qa 0); lia.
Qed.

Lemma msgs_on_queue_counts_witness :
  queues demo !! 0%nat = Some demo_queue
  ∧ msgs_on_queue demo_queue = Z.of_nat (count_msgs demo (q demo_queue)).
Proof.
  split; [vm_compute; reflexivity|].
  apply (msgs_on_queue_counts demo_user [] demo_ops demo) with (qa := 0%nat).
  - vm_compute. reflexivity.
  - vm_compute. reflexivity.
Defined.

(** C8 as the specification words it fails: the counter counts the
    entries that have a message, not those whose callback is a message
    handler.  A handler registered without a message is on queue 0 of
    [null_msg_heap] with the counter at 0, and the run of that queue
    invokes it; and after the cull of queue 0 in the example, queue 1
    still counts the wait 3, whose handler the cull has cleared. *)
Lemma msgs_on_queue_counterexample :
  exec (λ _, []) null_msg_ops (init []) = Some null_msg_heap
  ∧ queues null_msg_heap !! 0%nat = Some (Queue [1%nat] 0)
  ∧ count_handlers null_msg_heap [1%nat] = 1%nat
  ∧ trace_of (wait_runqueue (λ _, []) 0 null_msg_heap)
    = [FiredHandler 1 7 None]
  ∧ ¬ counts_handlers null_msg_heap
  ∧ exec demo_user (take 8 demo_ops ++ [DestroyMsg 0 any_msg]) (init [])
    = Some demo2_culled
  ∧ queues demo2_culled !! 1%nat = Some (Queue [2%nat; 3%nat] 1)
  ∧ count_handlers demo2_culled [2%nat; 3%nat] = 0%nat
  ∧ ¬ counts_handlers demo2_culled.
Proof.
  assert (H1 : queues null_msg_heap !! 0%nat = Some (Queue [1%nat] 0))
    by (vm_compute; reflexivity).
  assert (H2 : queues demo2_culled !! 1%nat = Some (Queue [2%nat; 3%nat] 1))
    by (vm_compute; reflexivity).
  split; [vm_compute; reflexivity|]. split; [exact H1|].
  split; [vm_compute; reflexivity|]. split; [vm_compute; reflexivity|].
  split.
  { intros H. specialize (H 0%nat _ H1). vm_compute in H. discriminate. }
  split; [vm_compute; reflexivity|]. split; [exact H2|].
  split; [vm_compute; reflexivity|].
  intros H. specialize (H 1%nat _ H2). vm_compute in H. discriminate.
Qed.

(** ** C10: destroying a queue *)

(** C10: [wait_queue_destroy] on a queue of a reachable heap returns; it
    invokes no callback (the trace is as before), the queue is gone, and
    every wait has lost as many references as it had entries on the
    queue, being destroyed when those were all it had. *)
Theorem queue_destroy_only_releases (user : cbname → list action)
    (outcomes : list bool) (ops : list op) (s : heap) (qa : qaddr)
    (wq : waitqueue_struct) :
  exec user ops (init outcomes) = Some s → queues s !! qa = Some wq →
  ∃ s', wait_queue_destroy qa s = Some s'
    ∧ trace s' = trace s
    ∧ queues s' = delete qa (queues s)
    ∧ ∀ a, waits s' !! a = waits s !! a ≫= after (occ a (q wq)).
Proof.
  intros E Hq.
  destruct (reachable_good user s) as [W _]; [by exists outcomes, ops|].
  destruct (wait_queue_destroy_spec s qa wq W Hq)
    as (s' & E' & _ & Hw & Q & _ & T).
  exists s'. auto.
Qed.

Lemma queue_destroy_only_releases_witness :
  ∃ s', wait_queue_destroy 0 demo = Some s'
    ∧ trace s' = trace demo
    ∧ queues s' = delete 0%nat (queues demo)
    ∧ ∀ a, waits s' !! a = waits demo !! a ≫= after (occ a (q demo_queue)).
Proof.
  apply (queue_destroy_only_releases demo_user [] demo_ops demo 0 demo_queue).
  - vm_compute. reflexivity.
  - vm_compute. reflexivity.
Defined.

(** ** C4: [wait_runqueue] is all or nothing *)

(** C4: on a queue that is not empty, when the allocation of the copy
    fails [wait_runqueue] returns -1 with errno ENOMEM and the waits, the
    queues and the trace are as before; when it succeeds,
    [wait_runqueue] returns 0, no entry that was on the queue is on it
    any more, and every wait has lost one reference for each entry it
    had there (and is destroyed when those were all it had). *)
Theorem runqueue_all_or_nothing (user : cbname → list action)
    (outcomes : list bool) (ops : list op) (s : heap) (qa : qaddr)
    (wq : waitqueue_struct) :
  exec user ops (init outcomes) = Some s → queues s !! qa = Some wq →
  q wq ≠ [] →
  ((alloc_fails s).1 = true →
     ∃ s', wait_runqueue user qa s = Some (-1, s') ∧ errno s' = ENOMEM
       ∧ waits s' = waits s ∧ queues s' = queues s ∧ trace s' = trace s)
  ∧ ((alloc_fails s).1 = false →
     ∃ s', wait_runqueue user qa s = Some (0, s')
       ∧ (∃ wq', queues s' !! qa = Some wq' ∧ ∀ x, x ∈ q wq → x ∉ q wq')
       ∧ ∀ a wt, waits s !! a = Some wt →
           waits s' !! a = after (occ a (q wq)) wt).
Proof.
  intros E Hq Hne.
  destruct (reachable_good user s) as [W _]; [by exists outcomes, ops|].
  destruct (wait_runqueue_spec user s qa wq W Hq) as (_ & R2 & R3).
  split.
  - intros Hf. rewrite (R2 Hne Hf). eexists. split; [done|].
    pose proof (alloc_fails_frame s) as (Fw & Fq & _ & Ft). simpl. auto.
  - intros Hf. destruct (R3 Hne Hf) as (s' & E' & I & _).
    destruct (run_result s qa wq s' W Hq I) as (Hw & wq' & Hq' & _ & Hn).
    exists s'. split; [done|]. split; [|done]. by exists wq'.
Qed.

Lemma runqueue_all_or_nothing_witness :
  ((alloc_fails demo).1 = true →
     ∃ s', wait_runqueue demo_user 0 demo = Some (-1, s') ∧ errno s' = ENOMEM
       ∧ waits s' = waits demo ∧ queues s' = queues demo
       ∧ trace s' = trace demo)
  ∧ ((alloc_fails demo).1 = false →
     ∃ s', wait_runqueue demo_user 0 demo = Some (0, s')
       ∧ (∃ wq', queues s' !! 0%nat = Some wq'
                 ∧ ∀ x, x ∈ q demo_queue → x ∉ q wq')
       ∧ ∀ a wt, waits demo !! a = Some wt →
           waits s' !! a = after (occ a (q demo_queue)) wt).
Proof.
  apply (runqueue_all_or_nothing demo_user [] demo_ops demo 0 demo_queue).
  - vm_compute. reflexivity.
  - vm_compute. reflexivity.
  - discriminate.
Defined.

(** ** C9: a run sees the queue as of its start *)

(** ** What the callbacks of a run append *)


Lemma sim_sym b s r : sim b s r → sim b r s.
Proof.
  intros [B O L N Le]. split; auto.
  - intros a Ha. by rewrite N.
  - by rewrite <- B.
Qed.




















(** The run of the example: both waits of queue 0 fire, and the wait
    that callback 5 puts on queue 0 during the run stays there. *)
Example demo_run :
  (λ r, (rc_of r, trace_of r, queue_of r))
    (wait_runqueue demo_user 0 demo)
  = (Some 0, [FiredPlain 2 5; FiredHandler 3 7 (Some 4%nat)], Some [4%nat]).
Proof. vm_compute. reflexivity. Qed.

(** ** C2: callbacks fire at most once *)

(** C2: in any heap reached by a program over the interface, no wait has
    had a callback invoked more than once, and a wait whose callback was
    invoked is destroyed.  A run of a queue invokes a wait's callback
    exactly when the run takes its use count to zero (the wait has a
    callback, and all its references are entries of this queue), and
    then destroys the wait.  And after a [wait_destroy_msg] that
    succeeded, a wait of the queue whose message passed the test never
    has a callback invoked, whatever the program does next. *)
Theorem callback_fires_at_most_once (user : cbname → list action)
    (outcomes : list bool) (ops : list op) (s : heap) :
  exec user ops (init outcomes) = Some s →
  (∀ a, (fire_count a (trace s) ≤ 1)%nat)
  ∧ (∀ a, is_Some (waits s !! a) → fire_count a (trace s) = 0%nat)
  ∧ (∀ qa wq, queues s !! qa = Some wq →
       (q wq ≠ [] → (alloc_fails s).1 = false) →
       ∃ s', wait_runqueue user qa s = Some (0, s')
         ∧ trace s' = trace s ++ run_events s [] (q wq)
         ∧ ∀ a wt, waits s !! a = Some wt →
             (fire_count a (run_events s [] (q wq)) ≤ 1)%nat
             ∧ (fire_count a (run_events s [] (q wq)) = 1%nat ↔
                is_Some (callback_of a wt) ∧ a ∈ q wq
                ∧ usecount wt = Z.of_nat (occ a (q wq)))
             ∧ (a ∈ q wq → usecount wt = Z.of_nat (occ a (q wq)) →
                waits s' !! a = None))
  ∧ (∀ qa wq test rc s1, queues s !! qa = Some wq →
       wait_destroy_msg qa test s = Some (rc, s1) → 0 ≤ rc →
       ∀ a, a ∈ q wq → hit test s a = true →
         ∀ ops' s2, exec user ops' s1 = Some s2 →
           fire_count a (trace s2) = 0%nat).
Proof.
  intros E.
  destruct (reachable_good user s) as [W U]; [by exists outcomes, ops|].
  split; [apply (uf_once _ U)|]. split; [apply (uf_live _ U)|]. split.
  - intros qa wq Hq Hok.
    destruct (wait_runqueue_spec user s qa wq W Hq) as (R1 & _ & R3).
    assert (∃ s', wait_runqueue user qa s = Some (0, s')
              ∧ trace s' = trace s ++ run_events s [] (q wq)
              ∧ ∀ a wt, waits s !! a = Some wt →
                  waits s' !! a = after (occ a (q wq)) wt)
      as (s' & E' & T & Hw).
    { destruct (decide (q wq = [])) as [Hnil|Hne].
      - exists s. split; [by apply R1|]. rewrite Hnil. simpl.
        split; [by rewrite app_nil_r|]. done.
      - destruct (R3 Hne (Hok Hne)) as (s' & E' & I & T).
        destruct (run_result s qa wq s' W Hq I) as (Hw & _).
        by exists s'. }
    exists s'. split; [done|]. split; [done|]. intros a wt Hwa.
    pose proof (wf_refs_ge s qa wq a wt W Hq Hwa) as Hge.
    destruct (fire_count_run_events s a (q wq) []) as (Hle & Hpos).
    split; [done|]. split; [split|].
    + intros H1. destruct (Hpos ltac:(lia)) as (wt' & Hw' & Hc & H2 & H3).
      rewrite Hwa in Hw'. injection Hw' as <-. simpl in *.
      split; [done|]. split; [|lia]. apply occ_pos. lia.
    + intros (Hc & Hin & Hu). apply occ_pos in Hin.
      apply (fire_count_run_events_pos s a wt Hwa Hc); simpl; lia.
    + intros Hin Hu. rewrite (Hw a wt Hwa). unfold after.
      apply occ_pos in Hin.
      destruct (Nat.eqb_spec (occ a (q wq)) 0); [lia|].
      by destruct (Z.eqb_spec (usecount wt) (Z.of_nat (occ a (q wq)))).
  - intros qa wq test rc s1 Hq Ed Hrc a Ha Hh ops' s2 E2.
    destruct (wait_destroy_msg_spec test s qa wq W Hq)
      as (rc' & s1' & Ed' & W1 & B1 & T1 & Ev1 & Hc).
    rewrite Ed in Ed'. injection Ed' as <- <-.
    destruct Hc as [(-> & _)|(_ & Hcl)]; [lia|].
    destruct (wf_queued_live a [] 0 0 s qa wq W Hq Ha) as (wt & Hw & _ & Hb).
    assert (Hs : silenced a s1).
    { split; [lia|]. split.
      - rewrite T1. apply (uf_live _ U). by rewrite Hw.
      - intros wt1 Hw1. by apply (Hcl a Ha Hh wt1). }
    assert (U1 : unfired s1) by (by apply (unfired_keep s)).
    destruct (exec_spec user ops' s1 s2 W1 U1 E2) as (_ & _ & _ & Hsil).
    by destruct (Hsil a Hs) as (_ & ? & _).
Qed.


Lemma callback_fires_at_most_once_witness :
  fire_count 3 (trace demo2_final) = 0%nat.
Proof.
  refine (proj2 (proj2 (proj2
            (callback_fires_at_most_once demo_user [] (take 8 demo_ops)
               demo2 _)))
            0%nat (Queue [2%nat; 3%nat] 1) any_msg 1 demo2_culled _ _ _
            3%nat _ _ [Runqueue 1] demo2_final _).
  - vm_compute. reflexivity.
  - vm_compute. reflexivity.
  - vm_compute. reflexivity.
  - lia.
  - right. left.
  - vm_compute. reflexivity.
  - vm_compute. reflexivity.
Defined.

(** The cull of the example: the message wait 3 leaves queue 0 with its
    handler cleared, and the run of queue 1 destroys it without a
    callback; the plain wait 2 keeps its reference from queue 0. *)
Example demo_cull :
  (fst <$> wait_destroy_msg 0 any_msg demo2, trace demo2_final,
   map_to_list (waits demo2_final))
  = (Some 1, [], [(2%nat, Wait 1 (Some 5%nat) None None)]).
Proof. vm_compute. reflexivity. Qed.


(** A plain wait on two queues: running the first queue leaves it with
    one reference and no callback, running the second invokes the
    callback once and destroys it. *)
Example plain_wait_on_two_queues :
  observe (on_both (Create (Some 9%nat)) ++ [Runqueue 0])
  = Some ([], [(2%nat, Wait 1 (Some 9%nat) None None)])
  ∧ observe (on_both (Create (Some 9%nat)) ++ [Runqueue 0; Runqueue 1])
    = Some ([FiredPlain 2 9], []).
Proof. split; vm_compute; reflexivity. Qed.

(** A message wait on two queues, culled from the first: its handler is
    cleared, and running the second queue destroys it without a
    callback. *)
Example culled_wait_on_two_queues :
  observe (on_both (CreateMsg (Some 4%nat) (Some 7%nat))
           ++ [DestroyMsg 0 any_msg])
  = Some ([], [(2%nat, Wait 1 None None (Some 4%nat))])
  ∧ observe (on_both (CreateMsg (Some 4%nat) (Some 7%nat))
             ++ [DestroyMsg 0 any_msg; Runqueue 1])
    = Some ([], []).
Proof. split; vm_compute; reflexivity. Qed.

(** ** Use counts and queue entries *)

Lemma qsum_all_zero f (m : gmap qaddr waitqueue_struct) :
  (∀ i x, m !! i = Some x → f x = 0%nat) → qsum f m = 0%nat.
Proof.
  induction m as [|i x m Hi IH] using map_ind; intros H.
  - apply qsum_empty.
  - rewrite qsum_insert_fresh by done.
    rewrite (H i x) by apply lookup_insert_eq.
    rewrite IH; [done|]. intros j y Hj. apply (H j y).
    rewrite lookup_insert_ne; [done|]. intros ->. by rewrite Hi in Hj.
Qed.

Lemma refs_zero_iff s a : refs s a = 0%nat ↔ ¬ queued s a.
Proof.
  split.
  - intros H (qa & wq & Hq & Hin). by apply (refs_zero_not_in s a qa wq).
  - intros H. apply qsum_all_zero. intros qa wq Hq.
    apply occ_zero. intros Hin. apply H. by exists qa, wq.
Qed.

Lemma refs_pos_queued s a : refs s a ≠ 0%nat → queued s a.
Proof.
  intros Hn.
  destruct (decide (Exists (λ p, a ∈ q p.2) (map_to_list (queues s))))
    as [Hex|Hnex].
  - apply Exists_exists in Hex as ([qa wq] & Hin & Hwq).
    exists qa, wq. split; [|done]. by apply elem_of_map_to_list.
  - exfalso. apply Hn, refs_zero_iff. intros (qa & wq & Hq & Hin).
    apply Hnex, Exists_exists. exists (qa, wq). split; [|done].
    by apply elem_of_map_to_list.
Qed.

(** X10: in any heap a program over the interface reaches, the use count
    [wait_get_usecount] returns for a wait is the number of queue entries
    that point to it, over all queues; it is zero exactly for a wait
    that is on no queue. *)
Theorem usecount_counts_queue_entries (user : cbname → list action)
    (outcomes : list bool) (ops : list op) (s : heap) (w : addr)
    (wt : wait_struct) :
  exec user ops (init outcomes) = Some s → waits s !! w = Some wt →
  wait_get_usecount w s = Some (Z.of_nat (refs s w))
  ∧ (wait_get_usecount w s = Some 0 ↔ ¬ queued s w).
Proof.
  intros E Hw.
  destruct (reachable_good user s) as [W _]; [by exists outcomes, ops|].
  pose proof (wf_ref _ _ _ _ W w) as Hr. rewrite Hw in Hr. simpl in Hr.
  rewrite Nat.add_0_r in Hr.
  unfold wait_get_usecount. rewrite Hw. simpl. rewrite Hr. split; [done|].
  rewrite <- refs_zero_iff. split.
  - intros [= H]. lia.
  - intros ->. done.
Qed.

Lemma usecount_counts_queue_entries_witness :
  wait_get_usecount 2 demo = Some (Z.of_nat (refs demo 2))
  ∧ (wait_get_usecount 2 demo = Some 0 ↔ ¬ queued demo 2).
Proof.
  apply (usecount_counts_queue_entries demo_user [] demo_ops demo 2%nat
           (Wait 1 (Some 5%nat) None None)).
  - vm_compute. reflexivity.
  - vm_compute. reflexivity.
Defined.

(** X11: in any heap a program over the interface reaches, every entry
    of every queue points to a wait that is allocated and has a use
    count of at least one: a queue never holds a wait that was
    destroyed. *)
Theorem queue_entries_are_allocated (user : cbname → list action)
    (outcomes : list bool) (ops : list op) (s : heap) (qa : qaddr)
    (wq : waitqueue_struct) (w : addr) :
  exec user ops (init outcomes) = Some s →
  queues s !! qa = Some wq → w ∈ q wq →
  ∃ wt, waits s !! w = Some wt ∧ wait_get_usecount w s = Some (usecount wt)
        ∧ 1 ≤ usecount wt.
Proof.
  intros E Hq Hin.
  destruct (reachable_good user s) as [W _]; [by exists outcomes, ops|].
  destruct (wf_queued_live w [] 0 0 s qa wq W Hq Hin) as (wt & Hw & Hu & _).
  exists wt. unfold wait_get_usecount. by rewrite Hw.
Qed.

Lemma queue_entries_are_allocated_witness :
  ∃ wt, waits demo !! 3%nat = Some wt
        ∧ wait_get_usecount 3 demo = Some (usecount wt) ∧ 1 ≤ usecount wt.
Proof.
  apply (queue_entries_are_allocated demo_user [] demo_ops demo 0%nat
           demo_queue 3%nat).
  - vm_compute. reflexivity.
  - vm_compute. reflexivity.
  - apply list_elem_of_In. simpl. auto.
Defined.

(** X12: in any heap a program over the interface reaches,
    [wait_destroy] trips its assertion on a wait exactly when the wait
    is still on a queue; on a wait that is on no queue it frees the wait
    and nothing else. *)
Theorem wait_destroy_needs_unqueued (user : cbname → list action)
    (outcomes : list bool) (ops : list op) (s : heap) (w : addr)
    (wt : wait_struct) :
  exec user ops (init outcomes) = Some s → waits s !! w = Some wt →
  (wait_destroy w s = None ↔ queued s w)
  ∧ (¬ queued s w → wait_destroy w s = Some (free_wait w s)).
Proof.
  intros E Hw.
  destruct (reachable_good user s) as [W _]; [by exists outcomes, ops|].
  pose proof (wf_ref _ _ _ _ W w) as Hr. rewrite Hw in Hr. simpl in Hr.
  rewrite Nat.add_0_r in Hr.
  pose proof (refs_zero_iff s w) as Hz.
  unfold wait_destroy. rewrite Hw.
  destruct (Z.eqb_spec (usecount wt) 0) as [H0|H0].
  - assert (refs s w = 0%nat) by lia. split; [|done].
    split; [done|]. intros Hq. by apply Hz in Hq.
  - split.
    + split; [|done]. intros _. apply refs_pos_queued. lia.
    + intros Hq. apply Hz in Hq. lia.
Qed.

Lemma wait_destroy_needs_unqueued_witness :
  (wait_destroy 2 demo = None ↔ queued demo 2)
  ∧ (¬ queued demo 2 → wait_destroy 2 demo = Some (free_wait 2 demo)).
Proof.
  apply (wait_destroy_needs_unqueued demo_user [] demo_ops demo 2%nat
           (Wait 1 (Some 5%nat) None None)).
  - vm_compute. reflexivity.
  - vm_compute. reflexivity.
Defined.

(** ** The counters of a queue *)

Lemma count_msgs_le s l : (count_msgs s l ≤ length l)%nat.
Proof.
  induction l as [|x l IH]; simpl; [done|].
  destruct (bears_msg s x); lia.
Qed.

(** X13: in any heap a program over the interface reaches,
    [wait_queue_msgs_count] is between zero and [wait_queue_length]. *)
Theorem msgs_count_within_length (user : cbname → list action)
    (outcomes : list bool) (ops : list op) (s : heap) (qa : qaddr)
    (wq : waitqueue_struct) :
  exec user ops (init outcomes) = Some s → queues s !! qa = Some wq →
  ∃ n len, wait_queue_msgs_count qa s = Some n
    ∧ wait_queue_length qa s = Some len ∧ 0 ≤ n ≤ len.
Proof.
  intros E Hq.
  destruct (reachable_good user s) as [W _]; [by exists outcomes, ops|].
  pose proof (wf_msgs _ _ _ _ W qa wq Hq) as Hm.
  pose proof (count_msgs_le s (q wq)) as Hle.
  unfold wait_queue_msgs_count, wait_queue_length. rewrite Hq.
  eexists _, _. split; [done|]. split; [done|].
  rewrite Hm. destruct (Nat.eqb qa 0); lia.
Qed.

Lemma msgs_count_within_length_witness :
  ∃ n len, wait_queue_msgs_count 0 demo = Some n
    ∧ wait_queue_length 0 demo = Some len ∧ 0 ≤ n ≤ len.
Proof.
  apply (msgs_count_within_length demo_user [] demo_ops demo 0%nat demo_queue).
  - vm_compute. reflexivity.
  - vm_compute. reflexivity.
Defined.

(** ** [wait_destroy_msg], entry by entry *)

Lemma clear_hand_cb_idem wt :
  clear_hand_cb (clear_hand_cb wt) = clear_hand_cb wt.
Proof. done. Qed.

Lemma cleared_nil s a : cleared [] s a = waits s !! a.
Proof. unfold cleared. destruct (decide (a ∈ [])) as [H|_]; [|done].
  by apply elem_of_nil in H. Qed.

Lemma cleared_cons hits s w wt a :
  waits s !! w = Some wt →
  cleared hits (store_wait w (clear_hand_cb wt) s) a = cleared (w :: hits) s a.
Proof.
  intros Hw. unfold cleared, store_wait. simpl.
  destruct (decide (a = w)) as [->|Hne].
  - rewrite lookup_insert_eq, Hw. simpl.
    rewrite (decide_True (P := w ∈ w :: hits)) by apply list_elem_of_here.
    by destruct (decide (w ∈ hits)).
  - rewrite lookup_insert_ne by done.
    destruct (decide (a ∈ hits)) as [Hin|Hin].
    + rewrite decide_True; [done|]. by apply list_elem_of_further.
    + rewrite decide_False; [done|]. intros H.
      apply elem_of_cons in H as [?|?]; done.
Qed.

Lemma alloc_fails_oom s :
  ((alloc_fails s).1 = true → true ∈ oom s)
  ∧ (∀ b, b ∈ oom (alloc_fails s).2 → b ∈ oom s)
  ∧ errno (alloc_fails s).2 = errno s.
Proof.
  unfold alloc_fails. destruct (oom s) as [|b rest] eqn:Ho; simpl.
  - rewrite Ho. done.
  - split; [intros ->; apply list_elem_of_here|].
    split; [|done]. intros b' Hb'. by apply list_elem_of_further.
Qed.

Lemma collect_outcome test :
  ∀ l tmp count s,
    (∀ x, x ∈ l → is_Some (waits s !! x)) →
    match collect test l tmp count s with
    | inl None => False
    | inl (Some (tmp', count', s')) =>
        queues s' = queues s ∧ trace s' = trace s ∧ brk s' = brk s
        ∧ default [] tmp' = default [] tmp ++ List.filter (hit test s) l
        ∧ (tmp' = None → tmp = None ∧ List.filter (hit test s) l = [])
        ∧ count' = count + Z.of_nat (length (List.filter (hit test s) l))
        ∧ ∀ a, waits s' !! a = cleared (List.filter (hit test s) l) s a
    | inr s' =>
        queues s' = queues s ∧ trace s' = trace s ∧ brk s' = brk s
        ∧ errno s' = ENOMEM ∧ true ∈ oom s
        ∧ ∃ j, (j < length (List.filter (hit test s) l))%nat
            ∧ ∀ a, waits s' !! a
                   = cleared (take j (List.filter (hit test s) l)) s a
    end.
Proof.
  induction l as [|w rest IH]; intros tmp count s Hlive.
  - simpl. rewrite app_nil_r, Z.add_0_r.
    repeat split; auto; try (intros a; by rewrite cleared_nil).
  - destruct (Hlive w) as [wt Hw]; [apply list_elem_of_here|].
    assert (Hrest : ∀ x, x ∈ rest → is_Some (waits s !! x)).
    { intros x Hx. apply Hlive. by apply list_elem_of_further. }
    assert (Hh : hit test s w
                 = match hand_msg wt, test with
                   | Some m, Some f => f m
                   | _, _ => false
                   end) by (unfold hit; by rewrite Hw).
    cbn [collect List.filter]. rewrite Hw, <- Hh.
    destruct (hit test s w) eqn:Hhit.
    2:{ specialize (IH tmp count s Hrest).
        destruct (collect test rest tmp count s) as [[[[t c] s']|]|s'];
          done. }
    set (r1 := match tmp with
               | Some _ => (false, s)
               | None => alloc_fails s
               end).
    assert (H1 : waits r1.2 = waits s ∧ queues r1.2 = queues s
                 ∧ brk r1.2 = brk s ∧ trace r1.2 = trace s
                 ∧ (r1.1 = true → true ∈ oom s)
                 ∧ (∀ b, b ∈ oom r1.2 → b ∈ oom s)).
    { unfold r1. destruct tmp; simpl; [by auto 10|].
      destruct (alloc_fails_frame s) as (? & ? & ? & ?).
      destruct (alloc_fails_oom s) as (? & ? & _). auto 10. }
    destruct r1 as [f1 s1]. simpl in H1.
    destruct H1 as (W1 & Q1 & B1 & T1 & O1 & S1).
    destruct f1.
    { simpl. rewrite Q1, T1, B1. repeat split; auto.
      exists 0%nat. split; [simpl; lia|]. intros a. simpl.
      by rewrite cleared_nil, W1. }
    destruct (alloc_fails_frame s1) as (W2 & Q2 & B2 & T2).
    destruct (alloc_fails_oom s1) as (O2 & S2 & _).
    destruct (alloc_fails s1) as [f2 s2]. simpl in *.
    destruct f2.
    { simpl. rewrite Q2, T2, B2, Q1, T1, B1. repeat split; auto.
      exists 0%nat. split; [simpl; lia|]. intros a. simpl.
      by rewrite cleared_nil, W2, W1. }
    set (s3 := store_wait w (clear_hand_cb wt) s2).
    assert (Hw2 : waits s2 !! w = Some wt) by (by rewrite W2, W1).
    assert (Hmsg : ∀ a, hand_msg <$> waits s3 !! a = hand_msg <$> waits s !! a).
    { intros a. unfold s3, store_wait. simpl. rewrite W2, W1.
      destruct (decide (a = w)) as [->|Hne].
      - by rewrite lookup_insert_eq, Hw.
      - by rewrite lookup_insert_ne. }
    assert (Hcl : ∀ hits a, cleared hits s3 a = cleared (w :: hits) s a).
    { intros hits a. unfold s3. rewrite (cleared_cons hits s2 w wt a Hw2).
      unfold cleared. by rewrite W2, W1. }
    assert (Hlive3 : ∀ x, x ∈ rest → is_Some (waits s3 !! x)).
    { intros x Hx. specialize (Hmsg x). destruct (Hrest x Hx) as [wx Hwx].
      rewrite Hwx in Hmsg. by destruct (waits s3 !! x). }
    specialize (IH (Some match tmp with
                         | Some t => t ++ [w]
                         | None => [w]
                         end) (count + 1) s3 Hlive3).
    rewrite (filter_hit_ext test s s3 rest Hmsg) in IH.
    destruct (collect test rest _ (count + 1) s3) as [[[[t c] s']|]|s'];
      [| done |].
    + destruct IH as (Q & T & B & D & N & C & Wt).
      rewrite Q, T, B. unfold s3. simpl. rewrite Q2, T2, B2, Q1, T1, B1.
      split; [done|]. split; [done|]. split; [done|]. split.
      { rewrite D. destruct tmp; simpl; [by rewrite <- app_assoc|done]. }
      split.
      { intros ->. by destruct N. }
      split.
      { rewrite C. simpl length. lia. }
      intros a. by rewrite Wt, Hcl.
    + destruct IH as (Q & T & B & En & Oo & j & Hj & Wt).
      rewrite Q, T, B. unfold s3. simpl. rewrite Q2, T2, B2, Q1, T1, B1.
      split; [done|]. split; [done|]. split; [done|]. split; [done|].
      split.
      { apply S1, S2. exact Oo. }
      exists (S j). split; [simpl; lia|]. intros a. simpl.
      by rewrite Wt, Hcl.
Qed.

Lemma remove_all_keeps x t :
  ∀ acc, (∀ w, w ∈ t → w ≠ x) →
    foldl (λ l w, remove_first w l) (x :: acc) t
    = x :: foldl (λ l w, remove_first w l) acc t.
Proof.
  induction t as [|w t IH]; intros acc H; simpl; [done|].
  destruct (Nat.eqb_spec x w) as [->|Hne].
  - exfalso. by apply (H w); [apply list_elem_of_here|].
  - apply IH. intros w' Hw'. apply H. by apply list_elem_of_further.
Qed.

Lemma remove_all_filter (f : addr → bool) l :
  foldl (λ l w, remove_first w l) l (List.filter f l)
  = List.filter (λ a, negb (f a)) l.
Proof.
  induction l as [|x l IH]; simpl; [done|].
  destruct (f x) eqn:Hf; simpl.
  - by rewrite Nat.eqb_refl.
  - rewrite remove_all_keeps; [by rewrite IH|].
    intros w Hw ->. apply list_elem_of_In, filter_In in Hw.
    destruct Hw as [_ Hw]. congruence.
Qed.

Lemma cull_queues qa :
  ∀ t s s' wq, queues s !! qa = Some wq → cull qa t s = Some s' →
    queues s' =
      <[qa := Queue (foldl (λ l w, remove_first w l) (q wq) t)
                    (msgs_on_queue wq - Z.of_nat (length t))]> (queues s)
    ∧ trace s' = trace s ∧ brk s' = brk s.
Proof.
  induction t as [|w t IH]; intros s s' wq Hq Hc.
  - simpl in Hc. injection Hc as <-. simpl. rewrite Z.sub_0_r.
    split; [|done]. rewrite insert_id; [done|]. by destruct wq.
  - cbn [cull] in Hc. rewrite Hq in Hc.
    set (wq1 := Queue (remove_first w (q wq)) (msgs_on_queue wq - 1)) in *.
    destruct (unref w (store_queue qa wq1 s)) as [s2|] eqn:Hu; [|done].
    destruct (unref_frame _ _ _ Hu) as (Q2 & B2 & T2).
    assert (Hq2 : queues s2 !! qa = Some wq1).
    { rewrite Q2. unfold store_queue. simpl. apply lookup_insert_eq. }
    destruct (IH s2 s' wq1 Hq2 Hc) as (Q & T & B).
    rewrite Q, T, B, Q2, T2, B2. unfold store_queue. simpl.
    rewrite insert_insert_eq. split; [|done]. f_equal. f_equal. lia.
Qed.

Lemma unref_waits w s s' :
  unref w s = Some s' →
  ∃ wt, waits s !! w = Some wt
    ∧ waits s' = if usecount wt =? 1 then delete w (waits s)
                 else <[w := set_usecount (usecount wt - 1) wt]> (waits s).
Proof.
  intros Hu. destruct (waits s !! w) as [wt|] eqn:Hw.
  - exists wt. split; [done|]. rewrite (unref_eq w s wt Hw) in Hu.
    injection Hu as <-. by destruct (usecount wt =? 1).
  - unfold unref in Hu. by rewrite Hw in Hu.
Qed.

Lemma cull_live qa :
  ∀ t s s', cull qa t s = Some s' → ∀ a, a ∈ t → is_Some (waits s !! a).
Proof.
  induction t as [|w t IH]; intros s s' Hc a Ha.
  - by apply elem_of_nil in Ha.
  - cbn [cull] in Hc. destruct (queues s !! qa) as [wq|]; [|done].
    set (s1 := store_queue qa _ s) in *.
    destruct (unref w s1) as [s2|] eqn:Hu; [|done].
    destruct (unref_waits w s1 s2 Hu) as (wt & Hw & W2).
    apply elem_of_cons in Ha as [->|Ha]; [by exists wt|].
    destruct (IH s2 s' Hc a Ha) as [wa Hwa]. rewrite W2 in Hwa.
    destruct (usecount wt =? 1).
    + apply lookup_delete_Some in Hwa as [_ Hwa]. by exists wa.
    + destruct (decide (a = w)) as [->|Hne]; [by exists wt|].
      rewrite lookup_insert_ne in Hwa by done. by exists wa.
Qed.

Lemma after_unref k wt :
  usecount wt ≠ 1 →
  after k (set_usecount (usecount wt - 1) wt) = after (S k) wt.
Proof.
  intros Hne. unfold after.
  destruct k as [|k]; cbn [Nat.eqb usecount set_usecount].
  - change (Z.of_nat 1) with 1.
    destruct (Z.eqb_spec (usecount wt) 1) as [?|_]; [done|]. done.
  - destruct (Z.eqb_spec (usecount wt - 1) (Z.of_nat (S k))) as [H1|H1];
      destruct (Z.eqb_spec (usecount wt) (Z.of_nat (S (S k)))) as [H2|H2];
      try lia; [done|].
    unfold set_usecount. cbn [usecount cb hand_cb hand_msg].
    f_equal. f_equal. lia.
Qed.

Lemma cull_waits qa :
  ∀ t s s', cull qa t s = Some s' →
    ∀ a, waits s' !! a = waits s !! a ≫= after (occ a t).
Proof.
  induction t as [|w t IH]; intros s s' Hc a.
  - simpl in Hc. injection Hc as <-. simpl. by destruct (waits s !! a).
  - pose proof (cull_live qa (w :: t) s s' Hc) as Hlive.
    cbn [cull] in Hc. destruct (queues s !! qa) as [wq|]; [|done].
    set (s1 := store_queue qa _ s) in *.
    destruct (unref w s1) as [s2|] eqn:Hu; [|done].
    destruct (unref_waits w s1 s2 Hu) as (wt & Hw & W2).
    assert (Hw' : waits s !! w = Some wt) by done.
    assert (W2' : waits s2 = if usecount wt =? 1 then delete w (waits s)
                             else <[w := set_usecount (usecount wt - 1) wt]>
                                    (waits s)) by done.
    rewrite (IH s2 s' Hc a), W2'. simpl.
    destruct (Nat.eqb_spec w a) as [->|Hne].
    + rewrite Hw'. simpl.
      destruct (Z.eqb_spec (usecount wt) 1) as [H1|H1].
      * rewrite lookup_delete_eq. simpl.
        assert (Hocc : occ a t = 0%nat).
        { apply occ_zero. intros Hin.
          destruct (cull_live qa t s2 s' Hc a Hin) as [x Hx].
          by rewrite W2', lookup_delete_eq in Hx. }
        rewrite Hocc. unfold after. simpl. by rewrite H1.
      * rewrite lookup_insert_eq. simpl. by apply after_unref.
    + simpl. destruct (usecount wt =? 1).
      * by rewrite lookup_delete_ne.
      * by rewrite lookup_insert_ne.
Qed.

Lemma bind_after_zero (o : option wait_struct) : o ≫= after 0 = o.
Proof. by destruct o. Qed.

Lemma destroy_msg_cases s qa wq test rc s' :
  (∀ x, x ∈ q wq → is_Some (waits s !! x)) →
  queues s !! qa = Some wq →
  wait_destroy_msg qa test s = Some (rc, s') →
  (rc = -1 ∧ errno s' = ENOMEM ∧ queues s' = queues s ∧ trace s' = trace s
   ∧ true ∈ oom s
   ∧ ∃ j, (j < length (List.filter (hit test s) (q wq)))%nat
       ∧ ∀ a, waits s' !! a
              = cleared (take j (List.filter (hit test s) (q wq))) s a)
  ∨ (rc = Z.of_nat (length (List.filter (hit test s) (q wq)))
     ∧ queues s' =
         <[qa := Queue (List.filter (λ a, negb (hit test s a)) (q wq))
                       (msgs_on_queue wq - rc)]> (queues s)
     ∧ trace s' = trace s
     ∧ ∀ a, waits s' !! a
            = cleared (List.filter (hit test s) (q wq)) s a
              ≫= after (occ a (List.filter (hit test s) (q wq)))).
Proof.
  intros Hlive Hq E. unfold wait_destroy_msg in E. rewrite Hq in E.
  pose proof (collect_outcome test (q wq) None 0 s Hlive) as H.
  destruct (collect test (q wq) None 0 s) as [[[[tmp count] s1]|]|s1];
    [| done |].
  - right. destruct H as (Q & T & B & D & N & C & W). simpl in D, C.
    destruct tmp as [t|].
    + simpl in D. subst t.
      destruct (cull qa (List.filter (hit test s) (q wq)) s1) as [s2|] eqn:Hc;
        [|done].
      injection E as <- <-.
      assert (Hq1 : queues s1 !! qa = Some wq) by (by rewrite Q).
      destruct (cull_queues qa _ s1 s2 wq Hq1 Hc) as (Q2 & T2 & _).
      split; [lia|]. split.
      { rewrite Q2, Q, remove_all_filter. f_equal. f_equal. lia. }
      split; [by rewrite T2|].
      intros a. by rewrite (cull_waits qa _ s1 s2 Hc a), W.
    + injection E as <- <-. destruct (N eq_refl) as [_ Hnil].
      rewrite Hnil in *. simpl in *. split; [lia|]. split.
      { rewrite Q. pose proof (remove_all_filter (hit test s) (q wq)) as Hf.
        rewrite Hnil in Hf. simpl in Hf. rewrite <- Hf.
        rewrite C, Z.sub_0_r, insert_id; [done|]. by destruct wq. }
      split; [done|]. intros a. by rewrite W, bind_after_zero.
  - left. injection E as <- <-.
    destruct H as (Q & T & _ & En & O & j & Hj & W).
    repeat split; auto. by exists j.
Qed.

Lemma reachable_queue_live user outcomes ops s qa wq :
  exec user ops (init outcomes) = Some s → queues s !! qa = Some wq →
  wf s ∧ ∀ x, x ∈ q wq → is_Some (waits s !! x).
Proof.
  intros E Hq.
  destruct (reachable_good user s) as [W _]; [by exists outcomes, ops|].
  split; [done|]. intros x Hx.
  destruct (wf_queued_live x [] 0 0 s qa wq W Hq Hx) as (wt & Hw & _).
  by exists wt.
Qed.

(** X14: in any heap a program over the interface reaches,
    [wait_destroy_msg] returns; it succeeds when no allocation fails;
    and when it succeeds it returns the number of entries of the queue
    whose message passes the test, leaves on the queue the other
    entries, in their order, lowers the message counter by that number,
    invokes no callback, and changes no wait but the matching ones:
    these have their handler cleared and lose one reference for each of
    their entries (and are destroyed with the last). *)
Theorem destroy_msg_removes_matching (user : cbname → list action)
    (outcomes : list bool) (ops : list op) (s : heap) (qa : qaddr)
    (wq : waitqueue_struct) (test : option (msg → bool)) :
  exec user ops (init outcomes) = Some s → queues s !! qa = Some wq →
  ∃ rc s', wait_destroy_msg qa test s = Some (rc, s')
    ∧ (no_oom s → 0 ≤ rc)
    ∧ (0 ≤ rc →
       rc = Z.of_nat (length (List.filter (hit test s) (q wq)))
       ∧ queues s' =
           <[qa := Queue (List.filter (λ a, negb (hit test s a)) (q wq))
                         (msgs_on_queue wq - rc)]> (queues s)
       ∧ trace s' = trace s
       ∧ ∀ a, waits s' !! a
              = cleared (List.filter (hit test s) (q wq)) s a
                ≫= after (occ a (List.filter (hit test s) (q wq)))).
Proof.
  intros E Hq.
  destruct (reachable_queue_live user outcomes ops s qa wq E Hq) as [W Hlive].
  destruct (wait_destroy_msg_spec test s qa wq W Hq) as (rc & s' & Ed & _).
  exists rc, s'. split; [done|].
  destruct (destroy_msg_cases s qa wq test rc s' Hlive Hq Ed)
    as [(-> & _ & _ & _ & O & _)|(Hrc & H)].
  - split; [|lia]. intros Hno. by specialize (Hno true O).
  - split; [lia|]. intros _. by split.
Qed.

Lemma destroy_msg_removes_matching_witness :
  ∃ rc s', wait_destroy_msg 0 any_msg demo2 = Some (rc, s')
    ∧ rc = Z.of_nat (length (List.filter (hit any_msg demo2) [2%nat; 3%nat]))
    ∧ queues s' =
        <[0%nat := Queue (List.filter (λ a, negb (hit any_msg demo2 a))
                            [2%nat; 3%nat])
                         (1 - rc)]> (queues demo2)
    ∧ trace s' = trace demo2.
Proof.
  destruct (destroy_msg_removes_matching demo_user [] (take 8 demo_ops) demo2
              0%nat (Queue [2%nat; 3%nat] 1) any_msg)
    as (rc & s' & E & Hno & H).
  - vm_compute. reflexivity.
  - vm_compute. reflexivity.
  - exists rc, s'. split; [exact E|].
    destruct H as (H1 & H2 & H3 & _).
    + apply Hno. intros b Hb. vm_compute in Hb. by apply elem_of_nil in Hb.
    + split; [exact H1|]. split; [exact H2|exact H3].
Defined.

(** X15: in any heap a program over the interface reaches, when
    [wait_destroy_msg] fails it sets errno to ENOMEM, leaves every queue
    and every use count as it was and invokes no callback; but the
    matching entries it had collected before the allocation failed, a
    proper initial part of all matching entries, have had their message
    handler cleared, and are still on the queue. *)
Theorem destroy_msg_failure_keeps_the_queue (user : cbname → list action)
    (outcomes : list bool) (ops : list op) (s s' : heap) (qa : qaddr)
    (wq : waitqueue_struct) (test : option (msg → bool)) :
  exec user ops (init outcomes) = Some s → queues s !! qa = Some wq →
  wait_destroy_msg qa test s = Some (-1, s') →
  errno s' = ENOMEM ∧ queues s' = queues s ∧ trace s' = trace s
  ∧ ∃ j, (j < length (List.filter (hit test s) (q wq)))%nat
      ∧ ∀ a, waits s' !! a
             = cleared (take j (List.filter (hit test s) (q wq))) s a.
Proof.
  intros E Hq Ed.
  destruct (reachable_queue_live user outcomes ops s qa wq E Hq) as [W Hlive].
  destruct (destroy_msg_cases s qa wq test (-1) s' Hlive Hq Ed)
    as [(_ & En & Q & T & _ & H)|(Hrc & _)]; [done|lia].
Qed.

Lemma destroy_msg_failure_keeps_the_queue_witness :
  errno demo3_failed = ENOMEM ∧ queues demo3_failed = queues demo3
  ∧ trace demo3_failed = trace demo3
  ∧ ∃ j, (j < length (List.filter (hit any_msg demo3) (q demo3_queue)))%nat
      ∧ ∀ a, waits demo3_failed !! a
             = cleared (take j (List.filter (hit any_msg demo3) (q demo3_queue)))
                 demo3 a.
Proof.
  apply (destroy_msg_failure_keeps_the_queue demo_user
           (replicate 14 false ++ [true])
           (take 8 demo_ops
            ++ [CreateMsg (Some 8%nat) (Some 9%nat); Addqueue 0 4])
           demo3 demo3_failed 0%nat demo3_queue any_msg).
  - vm_compute. reflexivity.
  - vm_compute. reflexivity.
  - vm_compute. reflexivity.
Defined.

(** The failed cull of the example: the wait 3 is still on queue 0 and
    on queue 1 with both references, its handler is gone, and running
    both queues destroys it without a callback; the wait 4, which the
    cull did not reach, keeps its handler and is called. *)
Example failed_cull_clears_handler :
  (fst <$> wait_destroy_msg 0 any_msg demo3,
   q <$> queues demo3_failed !! 0%nat,
   waits demo3_failed !! 3%nat,
   trace <$> exec demo_user [Runqueue 0; Runqueue 1] demo3_failed)
  = (Some (-1), Some [2%nat; 3%nat; 4%nat],
     Some (Wait 2 None None (Some 4%nat)),
     Some [FiredHandler 4 9 (Some 8%nat); FiredPlain 2 5]).
Proof. vm_compute. reflexivity. Qed.

(** ** Allocation failures *)

(** X17: a call of [wait_create], [wait_create_msg_handler],
    [wait_queue_create] or [wait_addqueue] that fails for lack of memory
    changes no wait and no queue and invokes no callback: it only sets
    errno to ENOMEM.  In particular a failed [wait_addqueue] has not
    taken a reference, and a [wait_queue_create] whose list cannot be
    allocated leaves no queue behind. *)
Theorem failed_allocation_changes_nothing (s : heap) :
  (∀ c, (wait_create c s).1 = None → only_errno s (wait_create c s).2)
  ∧ (∀ m c, (wait_create_msg_handler m c s).1 = None →
       only_errno s (wait_create_msg_handler m c s).2)
  ∧ ((wait_queue_create s).1 = None → only_errno s (wait_queue_create s).2)
  ∧ (∀ qa w s', wait_addqueue qa w s = Some (-1, s') → only_errno s s').
Proof.
  assert (Hc : ∀ c, (wait_create c s).1 = None →
                    only_errno s (wait_create c s).2).
  { intros c. unfold wait_create.
    destruct (alloc_fails_frame s) as (W & Q & B & T).
    destruct (alloc_fails s) as [f s1]. simpl in *.
    destruct f; [|done]. intros _. by unfold only_errno. }
  split; [done|]. split.
  { intros m c. unfold wait_create_msg_handler.
    specialize (Hc None).
    destruct (wait_create None s) as [[w|] s1]; [done|]. simpl in *. auto. }
  split.
  { unfold wait_queue_create.
    destruct (alloc_fails_frame s) as (W & Q & B & T).
    destruct (alloc_fails s) as [f s1]. simpl in *.
    destruct f; [intros _; by unfold only_errno|].
    destruct (alloc_fails_frame s1) as (W1 & Q1 & B1 & T1).
    destruct (alloc_fails s1) as [f1 s2]. simpl in *.
    destruct f1; [|done]. intros _. unfold only_errno. simpl.
    by rewrite W1, Q1, B1, T1. }
  intros qa w s'. unfold wait_addqueue.
  destruct (queues s !! qa) as [wq|]; [|done].
  destruct (waits s !! w) as [wt|]; [|done].
  destruct (alloc_fails_frame s) as (W & Q & B & T).
  destruct (alloc_fails s) as [f s1]. simpl in *.
  destruct f; [|done]. intros [= <-]. by unfold only_errno.
Qed.

Lemma failed_allocation_changes_nothing_witness :
  only_errno demo_oom (wait_create (Some 5%nat) demo_oom).2.
Proof.
  apply (proj1 (failed_allocation_changes_nothing demo_oom) (Some 5%nat)).
  vm_compute. reflexivity.
Defined.

(** ** The error hook *)

Lemma hook_of_insert a w x k r :
  hook_of a (Hooks (<[w := x]> (hook k)) r)
  = if decide (a = w) then x else hook_of a k.
Proof.
  unfold hook_of. simpl. destruct (decide (a = w)) as [->|Hne].
  - by rewrite lookup_insert_eq.
  - by rewrite lookup_insert_ne.
Qed.

Lemma set_errnums_spec w c s :
  is_Some (waits s !! w) →
  ∀ es k, error_cb (hook_of w k) = c →
    ∃ k', set_errnums w es s k = Some k'
      ∧ reported k' = reported k ++ reports w c es
      ∧ error_cb (hook_of w k') = c
      ∧ errnum (hook_of w k') = default (errnum (hook_of w k)) (last es)
      ∧ ∀ a, a ≠ w → hook_of a k' = hook_of a k.
Proof.
  intros [wt Hw]. induction es as [|e rest IH]; intros k Hc.
  - exists k. simpl. split; [done|]. split.
    { unfold reports. destruct c; by rewrite app_nil_r. }
    done.
  - cbn [set_errnums wait_aux_set_errnum]. rewrite Hw. cbn [error_cb].
    set (k1 := match error_cb (hook_of w k) with
               | Some f =>
                   Hooks (hook (Hooks (<[w := Hook e (error_cb (hook_of w k))]>
                                         (hook k)) (reported k)))
                         (reported (Hooks (<[w := Hook e (error_cb (hook_of w k))]>
                                             (hook k)) (reported k))
                          ++ [(w, e, f)])
               | None => Hooks (<[w := Hook e (error_cb (hook_of w k))]>
                                  (hook k)) (reported k)
               end).
    assert (Hh : ∀ a, hook_of a k1
                      = if decide (a = w) then Hook e c else hook_of a k).
    { intros a. unfold k1. rewrite Hc. destruct c; simpl;
        apply hook_of_insert. }
    assert (Hr : reported k1 = reported k ++ reports w c [e]).
    { unfold k1. rewrite Hc. destruct c; simpl; [done|].
      by rewrite app_nil_r. }
    assert (Hc1 : error_cb (hook_of w k1) = c).
    { rewrite Hh. by rewrite decide_True. }
    destruct (IH k1 Hc1) as (k' & E & R & C & N & O).
    exists k'. split; [done|]. split.
    { rewrite R, Hr, <- app_assoc. f_equal. unfold reports. by destruct c. }
    split; [done|]. split.
    { rewrite N, Hh, decide_True by done. simpl.
      rewrite (last_cons e rest). by destruct (last rest). }
    intros a Ha. rewrite (O a Ha), Hh. by rewrite decide_False.
Qed.

(** X18: the error hook of a wait that is allocated.  After
    [wait_set_error_cb] has registered a callback (or NULL, for none),
    [wait_aux_set_errnum] called once for each error number of a list
    invokes the callback once per call, in order, with that call's error
    number; afterwards [wait_aux_get_errnum] returns the last number set
    (the number it had, when the list is empty), and the hooks of the
    other waits are as before.  On a NULL wait [wait_aux_get_errnum]
    returns -1. *)
Theorem error_hook_reports_every_error (s : heap) (w : addr)
    (c : option cbname) (es : list Z) (k : hooks) :
  is_Some (waits s !! w) →
  wait_aux_get_errnum None s k = Some (-1)
  ∧ ∃ k1 k2,
      wait_set_error_cb (Some w) c s k = Some (0, k1)
      ∧ set_errnums w es s k1 = Some k2
      ∧ reported k2 = reported k ++ reports w c es
      ∧ wait_aux_get_errnum (Some w) s k2
        = Some (default (errnum (hook_of w k)) (last es))
      ∧ ∀ a, a ≠ w → hook_of a k2 = hook_of a k.
Proof.
  intros Hlive. split; [done|]. pose proof Hlive as [wt Hw].
  set (k1 := Hooks (<[w := Hook (errnum (hook_of w k)) c]> (hook k))
                   (reported k)).
  assert (Hh : ∀ a, hook_of a k1
                    = if decide (a = w) then Hook (errnum (hook_of w k)) c
                      else hook_of a k).
  { intros a. apply hook_of_insert. }
  assert (Hc1 : error_cb (hook_of w k1) = c).
  { rewrite Hh. by rewrite decide_True. }
  destruct (set_errnums_spec w c s Hlive es k1 Hc1) as (k2 & E & R & C & N & O).
  exists k1, k2. split.
  { unfold wait_set_error_cb. by rewrite Hw. }
  split; [done|]. split; [done|]. split.
  { unfold wait_aux_get_errnum. rewrite Hw, N, Hh.
    by rewrite decide_True. }
  intros a Ha. rewrite (O a Ha), Hh. by rewrite decide_False.
Qed.

Lemma error_hook_reports_every_error_witness :
  wait_aux_get_errnum None demo no_hooks = Some (-1)
  ∧ ∃ k1 k2,
      wait_set_error_cb (Some 2%nat) (Some 7%nat) demo no_hooks = Some (0, k1)
      ∧ set_errnums 2 [ENOMEM; EINVAL] demo k1 = Some k2
      ∧ reported k2
        = reported no_hooks ++ reports 2 (Some 7%nat) [ENOMEM; EINVAL]
      ∧ wait_aux_get_errnum (Some 2%nat) demo k2
        = Some (default (errnum (hook_of 2 no_hooks)) (last [ENOMEM; EINVAL]))
      ∧ ∀ a, a ≠ 2%nat → hook_of a k2 = hook_of a no_hooks.
Proof.
  apply (error_hook_reports_every_error demo 2%nat (Some 7%nat)
           [ENOMEM; EINVAL] no_hooks).
  exists (Wait 1 (Some 5%nat) None None). vm_compute. reflexivity.
Defined.

(** ** Iterating over a queue *)

Lemma set_errnum_step w e s k :
  is_Some (waits s !! w) →
  ∃ k1, wait_aux_set_errnum (Some w) e s k = Some (0, k1)
    ∧ reported k1 = reported k ++ reports w (error_cb (hook_of w k)) [e]
    ∧ ∀ a, hook_of a k1
           = if decide (a = w) then Hook e (error_cb (hook_of w k))
             else hook_of a k.
Proof.
  intros [wt Hw]. unfold wait_aux_set_errnum. rewrite Hw. cbn [error_cb].
  destruct (error_cb (hook_of w k)) as [c|] eqn:Hc.
  - eexists. split; [done|]. split; [done|]. intros a. apply hook_of_insert.
  - eexists. split; [done|]. split; [by rewrite app_nil_r|].
    intros a. apply hook_of_insert.
Qed.

Lemma visit_set_errnum e s :
  ∀ l k, (∀ x, x ∈ l → is_Some (waits s !! x)) →
    ∃ k', visit_all (set_errnum_cb e) l s k = Some k'
      ∧ reported k'
        = reported k
          ++ flat_map (λ w, reports w (error_cb (hook_of w k)) [e]) l
      ∧ (∀ a, error_cb (hook_of a k') = error_cb (hook_of a k))
      ∧ (∀ a, errnum (hook_of a k')
              = if decide (a ∈ l) then e else errnum (hook_of a k)).
Proof.
  induction l as [|w rest IH]; intros k Hlive.
  - exists k. cbn [visit_all flat_map]. rewrite app_nil_r.
    split; [done|]. split; [done|]. split; [done|].
    intros a. rewrite decide_False; [done|]. apply not_elem_of_nil.
  - destruct (set_errnum_step w e s k) as (k1 & E1 & R1 & H1);
      [apply Hlive, list_elem_of_here|].
    destruct (IH k1) as (k' & E & R & C & N).
    { intros x Hx. by apply Hlive, list_elem_of_further. }
    assert (Hcb : ∀ a, error_cb (hook_of a k1) = error_cb (hook_of a k)).
    { intros a. rewrite H1. by destruct (decide (a = w)) as [->|?]. }
    exists k'. split.
    { cbn [visit_all]. unfold set_errnum_cb at 1. by rewrite E1. }
    split.
    { rewrite R, R1, <- app_assoc. f_equal. cbn [flat_map]. f_equal.
      apply flat_map_ext. intros a. by rewrite Hcb. }
    split.
    { intros a. by rewrite C, Hcb. }
    intros a. rewrite N, H1.
    destruct (decide (a = w)) as [->|Hne].
    + rewrite (decide_True (P := w ∈ w :: rest)) by apply list_elem_of_here.
      by destruct (decide (w ∈ rest)).
    + destruct (decide (a ∈ rest)) as [Hin|Hin].
      * rewrite decide_True; [done|]. by apply list_elem_of_further.
      * rewrite decide_False; [done|]. intros H.
        apply elem_of_cons in H as [?|?]; done.
Qed.

(** X20: in any heap a program over the interface reaches,
    [wait_queue_iter] with the callback that sets an error number
    returns 0 and reaches every entry of the queue: afterwards
    [wait_aux_get_errnum] returns that number for each wait on the
    queue, the error callback of each entry that has one was invoked
    once per entry, in the order of the queue, with that number, and
    the waits that are not on the queue keep their error number.  With
    a NULL callback [wait_queue_iter] returns 0 and does nothing. *)
Theorem iter_sets_errnum_on_every_entry (user : cbname → list action)
    (outcomes : list bool) (ops : list op) (s : heap) (qa : qaddr)
    (wq : waitqueue_struct) (e : Z) (k : hooks) :
  exec user ops (init outcomes) = Some s → queues s !! qa = Some wq →
  wait_queue_iter qa None s k = Some (0, k)
  ∧ ∃ k', wait_queue_iter qa (Some (set_errnum_cb e)) s k = Some (0, k')
      ∧ reported k'
        = reported k
          ++ flat_map (λ w, reports w (error_cb (hook_of w k)) [e]) (q wq)
      ∧ (∀ w, w ∈ q wq → wait_aux_get_errnum (Some w) s k' = Some e)
      ∧ (∀ a, a ∉ q wq → errnum (hook_of a k') = errnum (hook_of a k)).
Proof.
  intros E Hq.
  destruct (reachable_queue_live user outcomes ops s qa wq E Hq) as [_ Hlive].
  unfold wait_queue_iter. rewrite Hq. split; [done|].
  destruct (visit_set_errnum e s (q wq) k Hlive) as (k' & Ev & R & _ & N).
  exists k'. rewrite Ev. split; [done|]. split; [done|]. split.
  - intros w Hw. unfold wait_aux_get_errnum.
    destruct (Hlive w Hw) as [wt Hwt]. rewrite Hwt, N.
    by rewrite decide_True.
  - intros a Ha. rewrite N. by rewrite decide_False.
Qed.

Lemma iter_sets_errnum_on_every_entry_witness :
  wait_queue_iter 0 None demo no_hooks = Some (0, no_hooks)
  ∧ ∃ k', wait_queue_iter 0 (Some (set_errnum_cb EINVAL)) demo no_hooks
          = Some (0, k')
      ∧ reported k'
        = reported no_hooks
          ++ flat_map (λ w, reports w (error_cb (hook_of w no_hooks)) [EINVAL])
               (q demo_queue)
      ∧ (∀ w, w ∈ q demo_queue →
           wait_aux_get_errnum (Some w) demo k' = Some EINVAL)
      ∧ (∀ a, a ∉ q demo_queue →
           errnum (hook_of a k') = errnum (hook_of a no_hooks)).
Proof.
  apply (iter_sets_errnum_on_every_entry demo_user [] demo_ops demo 0%nat
           demo_queue EINVAL no_hooks).
  - vm_compute. reflexivity.
  - vm_compute. reflexivity.
Defined.

End WaitqueueSpec.
